(** * The connector's fleet reconciler and topic router (src/app.js)

    A shallow embedding of the stateful core of [app.js]: the message
    listener installed by [connect], [processConfig], [processEntity],
    [publish], [subscribe], [getEntityTopic], [publishHomeAssistantDiscovery],
    [log] and the [unhandledRejection] handler.

    Conventions of the embedding.
    - The module-level variables [SUBSCRIBED_TOPICS], [PUBLISH_TOPICS],
      [HA_DISCOVERY] and [DEVICE_INSTANCES] are the fields of [State]; every
      function takes the state and returns the new one.
    - Every call that leaves the module (on the broker client, on a device
      instance, on the console or the file system) is appended to the
      [trace] field, oldest first.
    - The three tables that are JavaScript objects hold their own
      properties, and what they inherit is part of the lookups: every plain
      object inherits the functions of [Object.prototype]
      ([inherited_function]), so [SUBSCRIBED_TOPICS[topic][id]] and
      [DEVICE_CLASSES[name]] find a function under such a name without an
      own property.  A read or write under the name [__proto__] reaches the
      prototype itself: a write replaces an object's prototype or, through
      [SUBSCRIBED_TOPICS.__proto__], adds a property to [Object.prototype]
      for every object of the process.  The embedding does not follow the
      program beyond such a write: the call ends as [Unmodelled].
    - The subscription table is a finite map: which topics and which device
      ids it holds is as in the program, the order in which [Object.keys]
      lists them is the map's and not the program's order of insertion.  The
      device table is an [Array] used as a dictionary:
      it is kept as the list that [Object.values] walks, ids that are array
      indices first and in ascending order, the others in the order of
      their creation ([Array_set]).
    - [processConfig] is an [async] function that awaits one [connect] at a
      time; it is run here to completion, so no other listener interleaves
      with it, and a rejection of its promise is an [Outcome].  What a driver
      does with the callbacks it is given is a later step of its own
      ([processEntity]), not part of the round that connects it.
    - A payload that [JSON.parse] accepts is a [Document]: a configuration
      with its [support] array and its [devices] array of objects, or a value
      on which the reads of [processConfig] throw. *)

From stdpp Require Import gmap strings list fin_maps pretty.
From Stdlib Require Import ZArith Lia Ascii.

Open Scope string_scope.
Open Scope list_scope.
Set Warnings "-register-all".

(** ** JavaScript values *)

Inductive JsValue : Type :=
| Undefined
| Null
| Bool (b : bool)
| Num (z : Z)
| Str (s : string)
| Arr (elements : list JsValue)
| Obj (props : list (string * JsValue)).

(** [Array.prototype.join] on an array whose elements are already strings. *)
Definition join (sep : string) (parts : list string) : string :=
  String.concat sep parts.

(** [String(v)]; numbers are integers in the safe range. *)
Fixpoint String_ (v : JsValue) : string :=
  match v with
  | Undefined => "undefined"
  | Null => "null"
  | Bool true => "true"
  | Bool false => "false"
  | Num z => pretty z
  | Str s => s
  | Arr elements =>
      join "," (map (λ e, match e with
                          | Undefined | Null => ""
                          | _ => String_ e
                          end) elements)
  | Obj _ => "[object Object]"
  end.

(** What [Array.prototype.join] makes of one element. *)
Definition join_element (v : JsValue) : string :=
  match v with
  | Undefined | Null => ""
  | _ => String_ v
  end.

(** The condition of [if (v)], [v ? a : b] and [v || d]. *)
Definition truthy (v : JsValue) : bool :=
  match v with
  | Undefined | Null => false
  | Bool b => b
  | Num z => negb (Z.eqb z 0)
  | Str s => negb (String.eqb s "")
  | Arr _ | Obj _ => true
  end.

(** Own property of an association list, [undefined] when absent. *)
Fixpoint prop_get (props : list (string * JsValue)) (k : string) : JsValue :=
  match props with
  | [] => Undefined
  | (k', v) :: rest => if String.eqb k' k then v else prop_get rest k
  end.

(** [v.k] for a value that is neither [null] nor [undefined]. *)
Definition get (v : JsValue) (k : string) : JsValue :=
  match v with
  | Obj props => prop_get props k
  | _ => Undefined
  end.

(** [v instanceof Object] *)
Definition instanceof_Object (v : JsValue) : bool :=
  match v with
  | Arr _ | Obj _ => true
  | _ => false
  end.

(** [Object.entries(v)] for [v instanceof Object], own properties in the
    order they were created. *)
Definition Object_entries (v : JsValue) : list (string * JsValue) :=
  match v with
  | Obj props => props
  | Arr elements => imap (λ i e, (pretty i, e)) elements
  | _ => []
  end.

(** [o[k] = v] on an association list: an existing property keeps its place. *)
Fixpoint prop_set {A : Type} (k : string) (v : A) (props : list (string * A))
  : list (string * A) :=
  match props with
  | [] => [(k, v)]
  | (k', v') :: rest =>
      if String.eqb k' k then (k, v) :: rest else (k', v') :: prop_set k v rest
  end.


(** [s.split('/')]: never empty, one more part than there are slashes. *)
Fixpoint split_slash (s : string) : list string :=
  match s with
  | EmptyString => [""]
  | String c rest =>
      if Ascii.eqb c "/"%char then "" :: split_slash rest
      else match split_slash rest with
           | [] => [String c ""]
           | part :: parts => String c part :: parts
           end
  end.

(** [parts[parts.length - 1]] for the never empty result of a split. *)
Definition last_part (parts : list string) : string :=
  default "" (last parts).

(** [Object.keys(v)] and [Object.values(v)] for [v instanceof Object]. *)
Definition Object_keys (v : JsValue) : list string :=
  map fst (Object_entries v).

Definition Object_values (v : JsValue) : list JsValue :=
  map snd (Object_entries v).

(** [v === s] for a string literal [s]. *)
Definition is_string (v : JsValue) (s : string) : bool :=
  match v with
  | Str s' => String.eqb s' s
  | _ => false
  end.

(** The double quote character, as a one-character string. *)
Definition dquote : string := String (Ascii.ascii_of_nat 34) "".

(** ** Data model *)

(** Modelled from the spec: the device drivers under [./device/] are not
    among the sources.  A driver instance is its identity fields together
    with what its [connect()] resolves to (a string is a failure reason,
    anything else a success; the promise is taken to resolve) and what its
    [disconnect()] does ([None]: it returns; [Some e]: it throws [e]).  The
    module never awaits what [disconnect()] returns. *)
Module Device.
Record t : Type := mk {
  id : string;
  name : string;
  manufacturer : string;
  model : string;
  version : string;
  connect : JsValue;
  disconnect : option JsValue
}.
End Device.
Abbreviation Device := Device.t.

(** One entry of [data.devices]: [class] is the property name that
    [config.class] stands for in [DEVICE_CLASSES[config.class]];
    [config.subscribe instanceof Object] is [Some] of its entries, each a key
    and the property name its topic stands for; [settings] are the
    driver-specific fields. *)
Module DeviceConfig.
Record t : Type := mk {
  class : string;
  subscribe : option (list (string * string));
  settings : list (string * JsValue)
}.
End DeviceConfig.
Abbreviation DeviceConfig := DeviceConfig.t.

(** A configuration document that [JSON.parse] accepted: the strings that
    [data.support.includes] finds, and the entries that the loop over
    [data.devices] is given. *)
Module FleetConfig.
Record t : Type := mk {
  support : list string;
  devices : list DeviceConfig
}.
End FleetConfig.
Abbreviation FleetConfig := FleetConfig.t.

(** What a driver hands to its entity-update callback: an object, or a plain
    string standing in for one. *)
Inductive EntityValue : Type :=
| EntityString (s : string)
| EntityObject (props : list (string * JsValue)).

Definition entity_value (entity : EntityValue) : JsValue :=
  match entity with
  | EntityString s => Str s
  | EntityObject props => Obj props
  end.

(** [entity.k] *)
Definition entity_get (entity : EntityValue) (k : string) : JsValue :=
  get (entity_value entity) k.

(** The closure [(state, value) => device.handle(key, state, value)]. *)
Record Handler : Type := mkHandler {
  handler_device : Device;
  handler_key : JsValue
}.

(** The payload of a [client.publish]; [JSON.stringify] is kept symbolic. *)
Inductive Payload : Type :=
| JSON_stringify (v : JsValue)
| Text (s : string).

Inductive Effect : Type :=
| client_subscribe (topic : string)
| client_unsubscribe (topics : list string)
| client_publish (topic : string) (message : Payload) (retain : bool)
| device_new (config : DeviceConfig)
| device_onEntityUpdate (device : Device) (support : list string)
| device_onMessage (device : Device)
| device_connect (device : Device)
| device_disconnect (device : Device)
| device_handle (device : Device) (key : JsValue) (state : string)
                (value : string)
| console_log (content : string)
| fs_writeFile (path : string) (content : string).

Record State : Type := mkState {
  SUBSCRIBED_TOPICS : gmap string (gmap string Handler);
  PUBLISH_TOPICS : list string;
  HA_DISCOVERY : list string;
  DEVICE_INSTANCES : list (string * Device);
  trace : list Effect
}.

(** The module as loaded: nothing subscribed, published, announced or
    connected. *)
Definition initial : State :=
  mkState ∅ [] [] [] [].

Definition emit (e : Effect) (st : State) : State :=
  mkState (SUBSCRIBED_TOPICS st) (PUBLISH_TOPICS st) (HA_DISCOVERY st)
          (DEVICE_INSTANCES st) (trace st ++ [e]).

Definition set_SUBSCRIBED_TOPICS (v : gmap string (gmap string Handler))
  (st : State) : State :=
  mkState v (PUBLISH_TOPICS st) (HA_DISCOVERY st) (DEVICE_INSTANCES st)
          (trace st).

Definition set_PUBLISH_TOPICS (v : list string) (st : State) : State :=
  mkState (SUBSCRIBED_TOPICS st) v (HA_DISCOVERY st) (DEVICE_INSTANCES st)
          (trace st).

Definition set_HA_DISCOVERY (v : list string) (st : State) : State :=
  mkState (SUBSCRIBED_TOPICS st) (PUBLISH_TOPICS st) v (DEVICE_INSTANCES st)
          (trace st).

Definition set_DEVICE_INSTANCES (v : list (string * Device)) (st : State)
  : State :=
  mkState (SUBSCRIBED_TOPICS st) (PUBLISH_TOPICS st) (HA_DISCOVERY st) v
          (trace st).

(** How a call ends: it returns, or it throws (for an [async] function: its
    promise rejects with) [reason], or it writes under the name [__proto__]
    and so leaves what the embedding describes; the state that comes with
    [Unmodelled] is the one in which that write is made. *)
Inductive Outcome : Type :=
| Returns
| Throws (reason : JsValue)
| Unmodelled.

(** ** Constants *)

Definition BASE_TOPIC : string := "connector".
Definition DEVICE_TOPIC : string := "device".
Definition CONFIG_TOPIC : string := "config".
Definition HA_BASE_TOPIC : string := "homeassistant".

(** [chalk] only styles its argument; the text is unchanged. *)
Module chalk.
Definition cyan (s : string) : string := s.
Definition yellow (s : string) : string := s.
Definition black_bgRed (s : string) : string := s.
Definition black_bgGreen (s : string) : string := s.
Definition black_bgCyan (s : string) : string := s.
End chalk.

(** [array.includes(x)] on an array of strings *)
Definition includes (xs : list string) (x : string) : bool :=
  bool_decide (x ∈ xs).

Definition newline : string := String (Ascii.ascii_of_nat 10) "".

(** ** What plain objects inherit

    The properties of [Object.prototype] that are functions; together with
    the accessor [__proto__] they are all the properties it has. *)
Definition Object_prototype_functions : list string :=
  ["constructor"; "__defineGetter__"; "__defineSetter__"; "hasOwnProperty";
   "__lookupGetter__"; "__lookupSetter__"; "isPrototypeOf";
   "propertyIsEnumerable"; "toString"; "valueOf"; "toLocaleString"].

(** [typeof o[k] === 'function'] for a plain object [o] without an own
    property [k], [k] not being [__proto__]. *)
Definition inherited_function (k : string) : bool :=
  includes Object_prototype_functions k.

(** [k === '__proto__'] *)
Definition names_prototype (k : string) : bool :=
  String.eqb k "__proto__".

(** What the built-in operations throw. *)
Definition TypeError : JsValue :=
  Obj [("name", Str "TypeError")].

Definition RangeError : JsValue :=
  Obj [("name", Str "RangeError")].

(** ** [DEVICE_INSTANCES], an [Array] used as a dictionary *)

Definition digit (c : ascii) : option N :=
  let n := Ascii.N_of_ascii c in
  if (48 <=? n)%N && (n <=? 57)%N then Some (n - 48)%N else None.

Fixpoint decimal_from (acc : N) (s : string) : option N :=
  match s with
  | EmptyString => Some acc
  | String c rest =>
      match digit c with
      | Some d => decimal_from (10 * acc + d)%N rest
      | None => None
      end
  end.

(** An array index: the canonical decimal form of an integer below
    [2^32 - 1]. *)
Definition array_index (k : string) : option N :=
  match decimal_from 0 k with
  | Some n =>
      if String.eqb (pretty n) k && (n <? 4294967295)%N then Some n else None
  | None => None
  end.

(** [a[n] = v] for an index [n]: the elements come first, in ascending
    order. *)
Fixpoint element_set {A : Type} (n : N) (k : string) (v : A)
  (props : list (string * A)) : list (string * A) :=
  match props with
  | [] => [(k, v)]
  | (k', v') :: rest =>
      match array_index k' with
      | Some m =>
          if (m <? n)%N then (k', v') :: element_set n k v rest
          else if (m =? n)%N then (k, v) :: rest
          else (k, v) :: (k', v') :: rest
      | None => (k, v) :: (k', v') :: rest
      end
  end.

(** [a[k] = v] on an array, for [k] other than [length] and [__proto__]:
    the list is in the order of [Object.values(a)]. *)
Definition Array_set {A : Type} (k : string) (v : A)
  (props : list (string * A)) : list (string * A) :=
  match array_index k with
  | Some n => element_set n k v props
  | None => prop_set k v props
  end.

(** ** [log] (lines 262-272)

    The third argument is read only through its [name]; [who] is that name
    when the argument is given and truthy.  [log_content] is the constant
    [content], which goes to the console and, with a line break, to the end
    of [./debug.log]. *)
Definition log_content (icon : string) (message : string)
  (who : option string) : string :=
  (if negb (String.eqb icon "") then icon +:+ "  " else "")
  +:+ (match who with
       | Some name => chalk.black_bgCyan (" " +:+ name +:+ " ") +:+ " "
       | None => ""
       end)
  +:+ message.

Definition log (icon : string) (message : string) (who : option string)
  (st : State) : State :=
  let content := log_content icon message who in
  emit (fs_writeFile "./debug.log" (content +:+ newline))
       (emit (console_log content) st).

(** ** [getEntityTopic] (lines 191-193) *)
Definition getEntityTopic (device : Device) (entity : EntityValue) : string :=
  join "/" [BASE_TOPIC; DEVICE_TOPIC; Device.id device;
            join_element (if truthy (entity_get entity "key")
                          then entity_get entity "key"
                          else entity_value entity)].

(** ** [subscribe] (lines 173-189)

    [SUBSCRIBED_TOPICS[topic]] is an object only as an own property, so the
    first test creates the entry whenever there is none.  The second test
    finds a function under [device.id] when the entry has a handler there or
    when the id names a function every object inherits; the call then
    returns [false] with the entry already created.  With [__proto__] as the
    topic the entry is [Object.prototype] itself, and with [__proto__] as the
    id the assignment replaces the entry's prototype: [None]. *)
Definition subscribe (topic : string) (device : Device) (key : JsValue)
  (st : State) : option (bool * State) :=
  if names_prototype topic || names_prototype (Device.id device) then None
  else
    let st :=
      match SUBSCRIBED_TOPICS st !! topic with
      | Some _ => st
      | None => set_SUBSCRIBED_TOPICS (<[topic := ∅]> (SUBSCRIBED_TOPICS st)) st
      end in
    let handlers := default ∅ (SUBSCRIBED_TOPICS st !! topic) in
    match handlers !! Device.id device with
    | Some _ => Some (false, st)
    | None =>
        if inherited_function (Device.id device) then Some (false, st)
        else
          let st :=
            set_SUBSCRIBED_TOPICS
              (<[topic := <[Device.id device := mkHandler device key]> handlers]>
                 (SUBSCRIBED_TOPICS st)) st in
          let st := emit (client_subscribe topic) st in
          let st :=
            log "📡" ("subscribed to topic " +:+ dquote +:+ chalk.yellow topic
                      +:+ dquote)
                (Some (Device.name device)) st in
          Some (true, st)
    end.

(** [subscribe] for each element of an array, as in
    [xs.forEach(x => subscribe(client, topic x, device, key x))]; the result
    of each call is dropped. *)
Fixpoint subscribeEach {A : Type} (topic : A → string) (key : A → JsValue)
  (device : Device) (xs : list A) (st : State) : Outcome * State :=
  match xs with
  | [] => (Returns, st)
  | x :: rest =>
      match subscribe (topic x) device (key x) st with
      | Some (_, st) => subscribeEach topic key device rest st
      | None => (Unmodelled, st)
      end
  end.

(** ** [publishHomeAssistantDiscovery] (lines 195-260) *)
Definition publishHomeAssistantDiscovery (device : Device)
  (entity : EntityValue) (topic : string) (st : State) : State :=
  let st := set_HA_DISCOVERY (HA_DISCOVERY st ++ [topic]) st in
  let id := Device.id device +:+ "_" +:+ String_ (entity_get entity "key") in
  let type :=
    if truthy (entity_get entity "type") then entity_get entity "type"
    else Str "sensor" in
  let config : list (string * JsValue) :=
    [("name", Str (Device.name device +:+ " "
                   +:+ String_ (entity_get entity "name")));
     ("unique_id", Str id);
     ("device", Obj [("name", Str (Device.name device));
                     ("model", Str (Device.model device));
                     ("manufacturer", Str (Device.manufacturer device));
                     ("sw_version", Str (Device.version device));
                     ("identifiers", Arr [Str (Device.id device)])])] in
  let config :=
    if instanceof_Object (entity_get entity "states") then
      foldl (λ config state,
               prop_set (state +:+ "_topic")
                 (Str (getEntityTopic device entity +:+ "/" +:+ state)) config)
            config (Object_keys (entity_get entity "states"))
    else config in
  let config :=
    match entity_get entity "commands" with
    | Arr commands =>
        foldl (λ config command,
                 prop_set (String_ command +:+ "_topic")
                   (Str (getEntityTopic device entity +:+ "/"
                         +:+ String_ command)) config)
              config commands
    | _ => config
    end in
  let config :=
    if is_string type "sensor" then
      prop_set "unit_of_measurement" (entity_get entity "unit")
        (prop_set "device_class" (entity_get entity "class") config)
    else config in
  let config :=
    if is_string type "select" then
      if instanceof_Object (entity_get entity "options") then
        prop_set "command_template"
          (Str (join ""
                  (map (λ '(key, value),
                          "{% if value == " +:+ dquote +:+ String_ value
                          +:+ dquote +:+ " %} " +:+ key +:+ " {% endif %}")
                       (Object_entries (entity_get entity "options")))))
          (prop_set "options"
             (Arr (Object_values (entity_get entity "options"))) config)
      else config
    else config in
  let config :=
    if is_string type "climate" then
      prop_set "availability_topic" (Str (topic +:+ "/state"))
        (prop_set "payload_not_available" (Str "offline")
           (prop_set "payload_available" (Str "online")
              (prop_set "fan_modes" (entity_get entity "fanModes")
                 (prop_set "modes" (entity_get entity "modes")
                    (prop_set "temp_step" (entity_get entity "tempStep")
                       (prop_set "max_temp" (entity_get entity "maxTemp")
                          (prop_set "min_temp" (entity_get entity "minTemp")
                             config)))))))
    else config in
  let config :=
    if is_string type "number" then
      prop_set "step" (entity_get entity "step")
        (prop_set "max" (entity_get entity "max")
           (prop_set "min" (entity_get entity "min") config))
    else config in
  let config :=
    if is_string type "light" then
      prop_set "brightness" (entity_get entity "brightness")
        (prop_set "schema" (Str "json")
           (prop_set "brightness_scale" (entity_get entity "brightnessScale")
              config))
    else config in
  emit (client_publish (join "/" [HA_BASE_TOPIC; join_element type; id; "config"])
          (JSON_stringify (Obj config)) true) st.

(** ** [publish] (lines 151-171) *)
Definition publish (device : Device) (entity : EntityValue)
  (support : list string) (st : State) : State :=
  let topic := getEntityTopic device entity in
  let st :=
    if negb (includes (PUBLISH_TOPICS st) topic) then
      let st :=
        log "📣" ("published entity " +:+ dquote
                  +:+ chalk.cyan (String_ (entity_get entity "name"))
                  +:+ dquote +:+ " to topic " +:+ dquote
                  +:+ chalk.yellow topic +:+ dquote)
            (Some (Device.name device)) st in
      let st :=
        emit (client_publish topic (JSON_stringify (entity_value entity)) true)
             st in
      set_PUBLISH_TOPICS (PUBLISH_TOPICS st ++ [topic]) st
    else st in
  let st :=
    if instanceof_Object (entity_get entity "states") then
      foldl (λ st '(key, state),
               emit (client_publish
                       (getEntityTopic device entity +:+ "/" +:+ key)
                       (Text (String_ state)) true) st)
            st (Object_entries (entity_get entity "states"))
    else st in
  if includes support "homeassistant" && negb (includes (HA_DISCOVERY st) topic)
  then publishHomeAssistantDiscovery device entity topic st
  else st.

(** ** [processEntity] (lines 143-149) *)
Definition processEntity (device : Device) (entity : EntityValue)
  (support : list string) (st : State) : Outcome * State :=
  let st := publish device entity support st in
  match entity_get entity "commands" with
  | Arr commands =>
      subscribeEach
        (λ command, getEntityTopic device entity +:+ "/" +:+ String_ command)
        (λ _, entity_get entity "key")
        device commands st
  | _ => (Returns, st)
  end.

(** ** The reconciler and the message listener *)

(** A payload that [JSON.parse] accepted, by what [processConfig] reads of
    it.  [fleet data]: [data.support.includes] can be called, [data.support]
    being an array or a string, and the loop over [data.devices] runs to its
    end, no element being [null]; a string [data.support] is searched for a
    substring, and [FleetConfig.support] then holds [homeassistant] exactly
    when the search finds it.  [unusable_support]: [data.support.includes]
    cannot be called ([data] is [null] or not an object, or [support] is
    missing, [null], a number, a boolean or an object), so line 101 throws.
    [truncated data]: [data.support.includes] can be called, and the loop
    over [data.devices] is given the entries of [FleetConfig.devices data]
    and then throws, because [data.devices] is missing or not iterable (no
    entry is given) or because the next element is [null]. *)
Inductive Document : Type :=
| fleet (data : FleetConfig)
| unusable_support
| truncated (data : FleetConfig).

Section Connector.

(** The own properties of [DEVICE_CLASSES], filled once at start-up from
    [./device/], each holding a class, which is given as its constructor;
    the prototype of [DEVICE_CLASSES] is [Object.prototype]. *)
Variable DEVICE_CLASSES : gmap string (DeviceConfig → Device).

(** [JSON.parse] on a configuration payload: [None] when it throws. *)
Variable JSON_parse : string → option Document.

(** What [JSON.parse] throws. *)
Definition SyntaxError : JsValue :=
  Obj [("name", Str "SyntaxError")].

(** [Object.values(DEVICE_INSTANCES).forEach(device => device.disconnect())]
    (lines 105-107), on the values already listed. *)
Fixpoint disconnectEach (instances : list Device) (st : State)
  : Outcome * State :=
  match instances with
  | [] => (Returns, st)
  | device :: rest =>
      let st := emit (device_disconnect device) st in
      match Device.disconnect device with
      | Some reason => (Throws reason, st)
      | None => disconnectEach rest st
      end
  end.

(** [DEVICE_INSTANCES[device.id] = device] (line 135): [length] is the
    array's own length, which an object cannot be, and [__proto__] names the
    array's prototype. *)
Definition storeInstance (device : Device) (st : State) : Outcome * State :=
  if names_prototype (Device.id device) then (Unmodelled, st)
  else if String.eqb (Device.id device) "length" then (Throws RangeError, st)
  else (Returns,
        set_DEVICE_INSTANCES
          (Array_set (Device.id device) device (DEVICE_INSTANCES st)) st).

(** The body of [for (let config of data.devices)] (lines 115-139).  A class
    name that [DEVICE_CLASSES] only inherits is truthy and no device class:
    [new Object(config)] is [config] itself, which has no [onEntityUpdate],
    and the other inherited members cannot be constructed. *)
Definition processDevice (data : FleetConfig) (config : DeviceConfig)
  (st : State) : Outcome * State :=
  match DEVICE_CLASSES !! DeviceConfig.class config with
  | Some deviceClass =>
      let device := deviceClass config in
      let st := emit (device_new config) st in
      let st :=
        emit (device_onEntityUpdate device (FleetConfig.support data)) st in
      let st := emit (device_onMessage device) st in
      let st := emit (device_connect device) st in
      let result := Device.connect device in
      let message :=
        "connects by "
        +:+ chalk.yellow (Device.manufacturer device +:+ " "
                          +:+ Device.model device)
        +:+ ": " in
      match result with
      | Str reason =>
          (Returns,
           log "⚡" (message +:+ chalk.black_bgRed " FAIL " +:+ " " +:+ reason)
               (Some (Device.name device)) st)
      | _ =>
          let st :=
            log "⚡" (message +:+ chalk.black_bgGreen " SUCCESS ")
                (Some (Device.name device)) st in
          match
            match DeviceConfig.subscribe config with
            | Some entries =>
                subscribeEach (λ entry, entry.2) (λ entry, Str entry.1)
                              device entries st
            | None => (Returns, st)
            end
          with
          | (Returns, st) => storeInstance device st
          | (outcome, st) => (outcome, st)
          end
      end
  | None =>
      if inherited_function (DeviceConfig.class config)
         || names_prototype (DeviceConfig.class config)
      then (Throws TypeError, st)
      else
        (Returns,
         log "⚠️"
             ("Unknown device class in config: " +:+ DeviceConfig.class config)
             None st)
  end.

(** The whole [for] loop (lines 114-140): it ends with the first round that
    does not return. *)
Fixpoint processDevices (data : FleetConfig) (configs : list DeviceConfig)
  (st : State) : Outcome * State :=
  match configs with
  | [] => (Returns, st)
  | config :: rest =>
      match processDevice data config st with
      | (Returns, st) => processDevices data rest st
      | (outcome, st) => (outcome, st)
      end
  end.

(** ** [processConfig] (lines 100-141) *)
Definition processConfig (data : FleetConfig) (st : State) : Outcome * State :=
  let st :=
    if includes (FleetConfig.support data) "homeassistant"
    then emit (client_subscribe (HA_BASE_TOPIC +:+ "/status")) st
    else st in
  match disconnectEach (map snd (DEVICE_INSTANCES st)) st with
  | (Returns, st) =>
      let st :=
        emit (client_unsubscribe (map fst (map_to_list (SUBSCRIBED_TOPICS st))))
             st in
      let st := set_SUBSCRIBED_TOPICS ∅ st in
      let st := set_PUBLISH_TOPICS [] st in
      processDevices data (FleetConfig.devices data) st
  | (outcome, st) => (outcome, st)
  end.

(** [processConfig] on what [JSON.parse] returned. *)
Definition processDocument (document : Document) (st : State)
  : Outcome * State :=
  match document with
  | fleet data => processConfig data st
  | unusable_support => (Throws TypeError, st)
  | truncated data =>
      match processConfig data st with
      | (Returns, st) => (Throws TypeError, st)
      | (outcome, st) => (outcome, st)
      end
  end.

(** [process.on('unhandledRejection', ...)] (lines 274-276): the rejection
    reason is passed to [log] in the place of a device. *)
Definition unhandledRejection (reason : JsValue) (st : State) : State :=
  log "💥" ("Unhandled Rejection at:" +:+ "[object Promise]" +:+ "reason:")
      (if truthy reason then Some (String_ (get reason "name")) else None) st.

(** The table branch of the listener (lines 89-91): every handler of the
    topic is called with the last part of the topic and the payload. *)
Definition dispatch (topic : string) (parts : list string) (message : string)
  (st : State) : State :=
  match SUBSCRIBED_TOPICS st !! topic with
  | Some handlers =>
      foldl (λ st '(_, handler),
               emit (device_handle (handler_device handler)
                                   (handler_key handler)
                                   (last_part parts) message) st)
            st (map_to_list handlers)
  | None => st
  end.

(** ** [client.on('message', ...)] (lines 81-97)

    [processConfig] is started and not awaited: when its promise rejects, the
    listener has returned and the rejection reaches [unhandledRejection]. *)
Definition onMessage (topic : string) (message : string) (st : State)
  : Outcome * State :=
  let parts := split_slash topic in
  if bool_decide (parts !! 0%nat = Some BASE_TOPIC) then
    if bool_decide (parts !! 1%nat = Some CONFIG_TOPIC) then
      let st := log "✨" "New config discovered. Processing..." None st in
      match JSON_parse message with
      | None => (Throws SyntaxError, st)
      | Some document =>
          match processDocument document st with
          | (Returns, st) => (Returns, st)
          | (Throws reason, st) => (Returns, unhandledRejection reason st)
          | (Unmodelled, st) => (Unmodelled, st)
          end
      end
    else (Returns, dispatch topic parts message st)
  else if bool_decide (parts !! 0%nat = Some HA_BASE_TOPIC) then
    if bool_decide (parts !! 1%nat = Some "status")
       && bool_decide (length parts = 2%nat)
       && String.eqb message "online"
    then (Returns, set_HA_DISCOVERY [] st)
    else (Returns, st)
  else (Returns, st).

End Connector.

(** ** Vocabulary of the statements *)

(** The calls made between two states of one run, oldest first. *)
Definition since (st st' : State) : list Effect :=
  drop (length (trace st)) (trace st').

(** The two calls of one [log]. *)
Definition log_effects (icon : string) (message : string)
  (who : option string) : list Effect :=
  [console_log (log_content icon message who);
   fs_writeFile "./debug.log" (log_content icon message who +:+ newline)].

(** [SUBSCRIBED_TOPICS[topic][id]] when both levels exist. *)
Definition handler_at (st : State) (topic id : string) : option Handler :=
  SUBSCRIBED_TOPICS st !! topic ≫= λ handlers, handlers !! id.

(** Every handler is stored under the id of the device it calls; [subscribe]
    is the only writer of the table and keeps it so. *)
Definition keyed_by_id (st : State) : Prop :=
  ∀ topic handlers id handler,
    SUBSCRIBED_TOPICS st !! topic = Some handlers →
    handlers !! id = Some handler →
    Device.id (handler_device handler) = id.

(** The call one table entry makes when a message is dispatched. *)
Definition handle_call (parts : list string) (message : string)
  (entry : string * Handler) : Effect :=
  device_handle (handler_device entry.2) (handler_key entry.2)
                (last_part parts) message.

(** The topic [publishHomeAssistantDiscovery] publishes to. *)
Definition discovery_topic (device : Device) (entity : EntityValue) : string :=
  join "/" [HA_BASE_TOPIC;
            join_element (if truthy (entity_get entity "type")
                          then entity_get entity "type" else Str "sensor");
            Device.id device +:+ "_" +:+ String_ (entity_get entity "key");
            "config"].

Definition is_publish (e : Effect) : bool :=
  match e with
  | client_publish _ _ _ => true
  | _ => false
  end.

Definition is_device_new (e : Effect) : bool :=
  match e with
  | device_new _ => true
  | _ => false
  end.

(** The descriptors ([JSON.stringify] payloads) published to [topic], each
    with its retain flag. *)
Definition descriptor_publications (topic : string) (effects : list Effect)
  : list (JsValue * bool) :=
  omap (λ e, match e with
             | client_publish t (JSON_stringify v) retain =>
                 if decide (t = topic) then Some (v, retain) else None
             | _ => None
             end) effects.

(** The state publications (text payloads): topic, text, retain flag. *)
Definition state_publications (effects : list Effect)
  : list (string * string * bool) :=
  omap (λ e, match e with
             | client_publish t (Text s) retain => Some (t, s, retain)
             | _ => None
             end) effects.

(** A publication under the discovery hub's namespace. *)
Definition is_discovery_publication (e : Effect) : bool :=
  match e with
  | client_publish t _ _ => String.prefix (HA_BASE_TOPIC +:+ "/") t
  | _ => false
  end.

(** The condition under which [publish] calls
    [publishHomeAssistantDiscovery] (line 168). *)
Definition announces (device : Device) (entity : EntityValue)
  (support : list string) (st : State) : bool :=
  includes support "homeassistant"
  && negb (includes (HA_DISCOVERY st) (getEntityTopic device entity)).

(** The three parts of what one [publish] call sends: the descriptor with
    its log line, the states, and the discovery announcement. *)
Definition descriptor_part (device : Device) (entity : EntityValue)
  (message : string) (st : State) : list Effect :=
  if includes (PUBLISH_TOPICS st) (getEntityTopic device entity) then []
  else log_effects "📣" message (Some (Device.name device))
       ++ [client_publish (getEntityTopic device entity)
                          (JSON_stringify (entity_value entity)) true].

Definition states_part (device : Device) (entity : EntityValue)
  : list Effect :=
  map (λ '(key, state),
         client_publish (getEntityTopic device entity +:+ "/" +:+ key)
                        (Text (String_ state)) true)
      (Object_entries (entity_get entity "states")).

Definition discovery_part (device : Device) (entity : EntityValue)
  (support : list string) (config : list (string * JsValue)) (st : State)
  : list Effect :=
  if announces device entity support st
  then [client_publish (discovery_topic device entity)
                       (JSON_stringify (Obj config)) true]
  else [].

Definition extends (st st' : State) : Prop :=
  ∃ effects, trace st' = trace st ++ effects.

(** [typeof result === 'string'], with the string. *)
Definition failure_reason (result : JsValue) : option string :=
  match result with
  | Str reason => Some reason
  | _ => None
  end.

(** The constant [message] of [processConfig] (line 124). *)
Definition connect_message (device : Device) : string :=
  "connects by "
  +:+ chalk.yellow (Device.manufacturer device +:+ " " +:+ Device.model device)
  +:+ ": ".

(** The calls of one round of the loop up to and including [connect]. *)
Definition connect_calls (data : FleetConfig) (config : DeviceConfig)
  (device : Device) : list Effect :=
  [device_new config;
   device_onEntityUpdate device (FleetConfig.support data);
   device_onMessage device;
   device_connect device].

(** The state after a [subscribe] call; where the call is not followed, the
    state in which it is made. *)
Definition after_subscribe (topic : string) (device : Device) (key : JsValue)
  (st : State) : State :=
  match subscribe topic device key st with
  | Some (_, st') => st'
  | None => st
  end.

(** Neither the topic nor the device id is [__proto__]: [subscribe] is
    followed. *)
Definition plain_pair (topic : string) (device : Device) : bool :=
  negb (names_prototype topic || names_prototype (Device.id device)).

(** The state in which [subscribe] returns [false] for an id that only
    names an inherited function: the topic has its entry. *)
Definition with_entry (topic : string) (st : State) : State :=
  match SUBSCRIBED_TOPICS st !! topic with
  | Some _ => st
  | None => set_SUBSCRIBED_TOPICS (<[topic := ∅]> (SUBSCRIBED_TOPICS st)) st
  end.

(** [Object.entries(config.subscribe).forEach(...)] (line 132). *)
Definition subscribe_entries (device : Device)
  (entries : list (string * string)) (st : State) : Outcome * State :=
  subscribeEach (λ entry : string * string, entry.2)
                (λ entry : string * string, Str entry.1) device entries st.


(** The calls of [processConfig] before it resets the tables
    (lines 101-107), when every [disconnect] returns. *)
Definition teardown_calls (data : FleetConfig) (st : State) : list Effect :=
  (if includes (FleetConfig.support data) "homeassistant"
   then [client_subscribe (HA_BASE_TOPIC +:+ "/status")] else [])
  ++ map device_disconnect (map snd (DEVICE_INSTANCES st)).

(** The listener takes the [processConfig] branch for this topic. *)
Definition config_topic (topic : string) : bool :=
  bool_decide (split_slash topic !! 0%nat = Some BASE_TOPIC)
  && bool_decide (split_slash topic !! 1%nat = Some CONFIG_TOPIC).

(** The hub's announcement that it has started. *)
Definition hub_online (topic message : string) : bool :=
  String.eqb topic "homeassistant/status" && String.eqb message "online".

(** What happens to the module between two reconciliations and across
    them: a driver fires its entity-update callback, or the broker delivers
    a message. *)
Inductive Step : Type :=
| entity_update (device : Device) (entity : EntityValue) (support : list string)
| broker_message (topic : string) (message : string).

Definition reconciles (s : Step) : bool :=
  match s with
  | broker_message topic _ => config_topic topic
  | entity_update _ _ _ => false
  end.

Definition signals_hub_online (s : Step) : bool :=
  match s with
  | broker_message topic message => hub_online topic message
  | entity_update _ _ _ => false
  end.

Section Runs.

Variable DEVICE_CLASSES : gmap string (DeviceConfig → Device).
Variable JSON_parse : string → option Document.

Definition step (s : Step) (st : State) : Outcome * State :=
  match s with
  | entity_update device entity support =>
      processEntity device entity support st
  | broker_message topic message =>
      onMessage DEVICE_CLASSES JSON_parse topic message st
  end.

(** A run goes on after a listener has thrown, and ends with the first step
    that is not followed. *)
Fixpoint run (steps : list Step) (st : State) : State :=
  match steps with
  | [] => st
  | s :: rest =>
      match step s st with
      | (Unmodelled, st) => st
      | (_, st) => run rest st
      end
  end.

(** The entries of [data.devices] whose class is known and whose [connect]
    does not report a failure. *)
Definition connected_configs (data : FleetConfig) : list DeviceConfig :=
  List.filter
    (λ config,
       match DEVICE_CLASSES !! DeviceConfig.class config with
       | Some deviceClass =>
           match failure_reason (Device.connect (deviceClass config)) with
           | Some _ => false
           | None => true
           end
       | None => false
       end)
    (FleetConfig.devices data).



End Runs.

(** ** Concrete devices and configurations *)

Definition devA : Device :=
  Device.mk "a" "Lamp" "Acme" "L1" "1.0" (Bool true) None.


Definition power_set : string := "connector/device/a/power/set".

Definition power : EntityValue :=
  EntityObject [("key", Str "power"); ("name", Str "Power");
                ("type", Str "switch");
                ("states", Obj [("state", Str "ON")]);
                ("commands", Arr [Str "set"])].

(** Three driver classes that take the device id from the configuration:
    [Foo] connects, [Bar] reports a failure, and [Bad] connects but throws
    when it is disconnected. *)
Definition port_busy : JsValue :=
  Obj [("name", Str "Error"); ("message", Str "port busy")].

Definition Foo (config : DeviceConfig) : Device :=
  Device.mk (String_ (prop_get (DeviceConfig.settings config) "id"))
            "Foo" "Acme" "F1" "1.0" (Bool true) None.

Definition Bar (config : DeviceConfig) : Device :=
  Device.mk (String_ (prop_get (DeviceConfig.settings config) "id"))
            "Bar" "Acme" "B1" "1.0" (Str "timeout") None.

Definition Bad (config : DeviceConfig) : Device :=
  Device.mk (String_ (prop_get (DeviceConfig.settings config) "id"))
            "Bad" "Acme" "X1" "1.0" Undefined (Some port_busy).

Definition classes : gmap string (DeviceConfig → Device) :=
  <["Foo" := Foo]> (<["Bar" := Bar]> (<["Bad" := Bad]> ∅)).

Definition a_foo (id : string) : DeviceConfig :=
  DeviceConfig.mk "Foo"
    (Some [("power", "connector/device/" +:+ id +:+ "/power/set")])
    [("id", Str id)].

Definition a_bad (id : string) : DeviceConfig :=
  DeviceConfig.mk "Bad" None [("id", Str id)].





Definition one_foo : FleetConfig :=
  FleetConfig.mk ["homeassistant"] [a_foo "foo"].

Definition bad_then_foo : FleetConfig :=
  FleetConfig.mk [] [a_bad "bad"; a_foo "foo"].

Definition no_devices : FleetConfig :=
  FleetConfig.mk [] [].

(** [JSON.parse] on the payloads used below: a document that stands for
    [no_devices], one without a [devices] field, one without a [support]
    field, and anything else, which is taken to be cut short. *)
Definition no_devices_json : string :=
  "{" +:+ dquote +:+ "support" +:+ dquote +:+ ":[],"
  +:+ dquote +:+ "devices" +:+ dquote +:+ ":[]}".

Definition support_only_json : string :=
  "{" +:+ dquote +:+ "support" +:+ dquote +:+ ":[]}".

Definition devices_only_json : string :=
  "{" +:+ dquote +:+ "devices" +:+ dquote +:+ ":[]}".

Definition parse (message : string) : option Document :=
  if String.eqb message no_devices_json then Some (fleet no_devices)
  else if String.eqb message support_only_json then Some (truncated no_devices)
  else if String.eqb message devices_only_json then Some unusable_support
  else None.

(** A device whose id is the name of a function that every object
    inherits, and a configuration whose class is such a name. *)
Definition devC : Device :=
  Device.mk "constructor" "Lamp" "Acme" "L1" "1.0" (Bool true) None.



(** The fleets after a first reconciliation. *)
Definition fleet_of_one : State :=
  (processConfig classes one_foo initial).2.

Definition fleet_with_bad : State :=
  (processConfig classes bad_then_foo initial).2.

(** ** Start-up: the device classes and the broker connection (lines 20-78)

    The callback of [fs.readdir], [connect] and the listener of the client's
    [connect] event.  The loader runs before there is a client, so it has a
    state of its own ([Loader]): the table of classes and the calls made so
    far.  What the environment decides is a parameter: the outcome of each
    dynamic import, the listing of the directory, the command line, the
    process environment and the content of the local configuration file.
    Strings are sequences of one-byte characters, as file names and options
    in ASCII are in JavaScript. *)

Definition DEVICE_PATH : string := "./device/".

(** [s.lastIndexOf(c)] for a one-character [c], counted from [i]. *)
Fixpoint lastIndexOf_from (c : ascii) (s : string) (i : Z) : Z :=
  match s with
  | EmptyString => (-1)%Z
  | String a rest =>
      let later := lastIndexOf_from c rest (i + 1)%Z in
      if (0 <=? later)%Z then later
      else if Ascii.eqb a c then i else (-1)%Z
  end.

Definition lastIndexOf (c : ascii) (s : string) : Z :=
  lastIndexOf_from c s 0%Z.

(** [s.slice(0, n)]: a negative [n] counts from the end. *)
Definition slice0 (s : string) (n : Z) : string :=
  let len := Z.of_nat (String.length s) in
  let stop := if (n <? 0)%Z then Z.max (len + n) 0 else Z.min n len in
  String.substring 0 (Z.to_nat stop) s.

(** [String(file).slice(0, file.lastIndexOf('.'))] (line 36): the key under
    which the class of [file] is stored. *)
Definition className (file : string) : string :=
  slice0 file (lastIndexOf "." file).

(** [s.split(c)] for a one-character separator. *)
Fixpoint split_on (c : ascii) (s : string) : list string :=
  match s with
  | EmptyString => [""]
  | String a rest =>
      if Ascii.eqb a c then "" :: split_on c rest
      else match split_on c rest with
           | [] => [String a ""]
           | part :: parts => String a part :: parts
           end
  end.

(** What a [catch] or an error callback receives: an [Error] object, or any
    other value. *)
Inductive Thrown : Type :=
| ErrorObject (name : string) (message : string)
| ThrownValue (v : JsValue).

(** [String(error)]; for an [Error] object, [Error.prototype.toString]. *)
Definition Thrown_String (error : Thrown) : string :=
  match error with
  | ErrorObject name message =>
      if String.eqb name "" then message
      else if String.eqb message "" then name
      else name +:+ ": " +:+ message
  | ThrownValue v => String_ v
  end.

Definition Thrown_truthy (error : Thrown) : bool :=
  match error with
  | ErrorObject _ _ => true
  | ThrownValue v => truthy v
  end.

(** What [await import(specifier)] does: it throws, or yields a module whose
    [default] export is a device class or is missing. *)
Inductive Imported : Type :=
| import_rejects (error : Thrown)
| import_module (default : option (DeviceConfig → Device)).

(** What the callback of [fs.readdir] receives. *)
Inductive Readdir : Type :=
| readdir_fails (name : string) (message : string)
| readdir_lists (files : list string).

(** The calls of the start-up code: those of [Effect], the dynamic import and
    the calls on the [mqtt] module and its client. *)
Inductive Call : Type :=
| import_ (specifier : string)
| effect (e : Effect)
| mqtt_connect (url : string) (port : JsValue) (username : JsValue)
               (password : JsValue)
| client_on (event : string).

(** [DEVICE_CLASSES] while it is filled (a property may hold [undefined])
    and the calls made so far. *)
Record Loader : Type := mkLoader {
  loaded : gmap string (option (DeviceConfig → Device));
  calls : list Call
}.

(** What [processConfig] finds in [DEVICE_CLASSES]: the truthy properties. *)
Definition classes_of (ld : Loader) : gmap string (DeviceConfig → Device) :=
  omap (λ default, default) (loaded ld).

Definition call (c : Call) (ld : Loader) : Loader :=
  mkLoader (loaded ld) (calls ld ++ [c]).

Definition log_calls (icon : string) (message : string) (who : option string)
  (ld : Loader) : Loader :=
  mkLoader (loaded ld) (calls ld ++ map effect (log_effects icon message who)).

(** [log(error)] (line 40): the error stands in the place of the icon, and
    there is neither message nor device. *)
Definition log_thrown (error : Thrown) (ld : Loader) : Loader :=
  let content :=
    (if Thrown_truthy error then Thrown_String error +:+ "  " else "")
    +:+ "" +:+ "undefined" in
  mkLoader (loaded ld)
    (calls ld ++ [effect (console_log content);
                  effect (fs_writeFile "./debug.log" (content +:+ newline))]).

(** The development filter (line 32). *)
Definition filtered (file : string) : bool :=
  includes ["Socketcan.js"; "Bluetooth.js"] file.

(** [process.env.k] *)
Definition env_get (env : gmap string string) (k : string) : JsValue :=
  match env !! k with
  | Some s => Str s
  | None => Undefined
  end.

(** [a || b] *)
Definition or_ (a b : JsValue) : JsValue :=
  if truthy a then a else b.

(** [Object.fromEntries] on arrays of strings: the first two elements of
    each are the key and the value. *)
Definition entry_key (entry : list string) : string :=
  default "undefined" (entry !! 0%nat).

Definition entry_value (entry : list string) : JsValue :=
  match entry !! 1%nat with
  | Some v => Str v
  | None => Undefined
  end.

Definition fromEntries (entries : list (list string))
  : list (string * JsValue) :=
  foldl (λ o entry, prop_set (entry_key entry) (entry_value entry) o)
        [] entries.

(** The key under which a command-line argument is stored. *)
Definition arg_key (arg : string) : string :=
  entry_key (split_on "=" arg).

(** The constant [args] of [connect] (line 50). *)
Definition parseArgs (argv : list string) : list (string * JsValue) :=
  fromEntries (map (split_on "=") (drop 2 argv)).

(** The constant [host] of [connect] (line 52). *)
Definition connect_host (argv : list string) (env : gmap string string)
  : JsValue :=
  or_ (or_ (prop_get (parseArgs argv) "host") (env_get env "MQTT_HOST"))
      (Str "localhost").

(** ** [connect] (lines 49-98): the client is created and the three
    listeners are installed. *)
Definition connect (argv : list string) (env : gmap string string)
  : list Call :=
  let args := parseArgs argv in
  let host := connect_host argv env in
  [mqtt_connect ("mqtt://" +:+ String_ host)
     (or_ (or_ (prop_get args "port") (env_get env "MQTT_PORT")) (Num 1883))
     (or_ (prop_get args "username") (env_get env "MQTT_USERNAME"))
     (or_ (prop_get args "password") (env_get env "MQTT_PASSWORD"));
   client_on "connect"; client_on "error"; client_on "message"].

(** The listener of the client's [connect] event (lines 63-73);
    [configFile] is the content of [./config.json] when the file exists. *)
Definition onConnect (configFile : option string) (st : State) : State :=
  let st :=
    match configFile with
    | Some content =>
        emit (client_publish (BASE_TOPIC +:+ "/" +:+ CONFIG_TOPIC)
                             (Text content) true)
             (log "✨" "Local config found. Publishing..." None st)
    | None => st
    end in
  emit (client_subscribe (BASE_TOPIC +:+ "/" +:+ CONFIG_TOPIC)) st.

Section Startup.

(** [import(specifier)], by specifier. *)
Variable import : string → Imported.

(** One round of [for (let file of files)] (lines 25-43). *)
Definition loadFile (file : string) (ld : Loader) : Loader :=
  let ld := call (import_ (DEVICE_PATH +:+ file)) ld in
  match import (DEVICE_PATH +:+ file) with
  | import_rejects error => log_thrown error ld
  | import_module default =>
      if filtered file then ld
      else
        log_calls "✨" ("Device class found: " +:+ file) None
          (mkLoader (<[className file := default]> (loaded ld)) (calls ld))
  end.

Definition loadFiles (files : list string) (ld : Loader) : Loader :=
  foldl (λ ld file, loadFile file ld) ld files.

(** The callback of [fs.readdir] (lines 21-47), from the module as loaded. *)
Definition onReaddir (argv : list string) (env : gmap string string)
  (result : Readdir) : Loader :=
  match result with
  | readdir_fails name message =>
      log_calls "⚠️" (Thrown_String (ErrorObject name message)) None
                (mkLoader ∅ [])
  | readdir_lists files =>
      let ld := loadFiles files (mkLoader ∅ []) in
      mkLoader (loaded ld) (calls ld ++ connect argv env)
  end.

End Startup.

(** Whether [c] occurs in [s]. *)
Fixpoint occurs (c : ascii) (s : string) : bool :=
  match s with
  | EmptyString => false
  | String a rest => Ascii.eqb a c || occurs c rest
  end.

(** A call on the [mqtt] module or on its client. *)
Definition is_broker_call (c : Call) : bool :=
  match c with
  | mqtt_connect _ _ _ _ | client_on _ => true
  | _ => false
  end.

(** Whether [import] can store a class for [file]: it yields a module and
    the file is not filtered. *)
Definition stores (import : string → Imported) (file : string) : bool :=
  match import (DEVICE_PATH +:+ file) with
  | import_rejects _ => false
  | import_module _ => negb (filtered file)
  end.

(** The last segment of the canonical topic (line 192). *)
Definition entity_segment (entity : EntityValue) : string :=
  join_element (if truthy (entity_get entity "key")
                then entity_get entity "key"
                else entity_value entity).

Definition is_handle (e : Effect) : bool :=
  match e with
  | device_handle _ _ _ _ => true
  | _ => false
  end.

(** The step is an entity update of a driver whose configuration lists the
    discovery hub. *)
Definition hub_supported (s : Step) : bool :=
  match s with
  | entity_update _ _ support => includes support "homeassistant"
  | broker_message _ _ => false
  end.

(** ** The discovery document, stage by stage

    The constants [id], [type] and [config] of
    [publishHomeAssistantDiscovery] (lines 198-257), in the order in which
    the function fills [config]. *)
Definition discovery_id (device : Device) (entity : EntityValue) : string :=
  Device.id device +:+ "_" +:+ String_ (entity_get entity "key").

Definition discovery_type (entity : EntityValue) : JsValue :=
  if truthy (entity_get entity "type") then entity_get entity "type"
  else Str "sensor".

(** Lines 200-210. *)
Definition config_identity (device : Device) (entity : EntityValue)
  : list (string * JsValue) :=
  [("name", Str (Device.name device +:+ " "
                 +:+ String_ (entity_get entity "name")));
   ("unique_id", Str (discovery_id device entity));
   ("device", Obj [("name", Str (Device.name device));
                   ("model", Str (Device.model device));
                   ("manufacturer", Str (Device.manufacturer device));
                   ("sw_version", Str (Device.version device));
                   ("identifiers", Arr [Str (Device.id device)])])].

(** Lines 212-216. *)
Definition config_states (device : Device) (entity : EntityValue)
  (config : list (string * JsValue)) : list (string * JsValue) :=
  if instanceof_Object (entity_get entity "states") then
    foldl (λ config state,
             prop_set (state +:+ "_topic")
               (Str (getEntityTopic device entity +:+ "/" +:+ state)) config)
          config (Object_keys (entity_get entity "states"))
  else config.

(** Lines 218-222. *)
Definition config_commands (device : Device) (entity : EntityValue)
  (config : list (string * JsValue)) : list (string * JsValue) :=
  match entity_get entity "commands" with
  | Arr commands =>
      foldl (λ config command,
               prop_set (String_ command +:+ "_topic")
                 (Str (getEntityTopic device entity +:+ "/"
                       +:+ String_ command)) config)
            config commands
  | _ => config
  end.

(** Lines 224-227. *)
Definition config_sensor (entity : EntityValue)
  (config : list (string * JsValue)) : list (string * JsValue) :=
  if is_string (discovery_type entity) "sensor" then
    prop_set "unit_of_measurement" (entity_get entity "unit")
      (prop_set "device_class" (entity_get entity "class") config)
  else config.

(** Lines 229-234. *)
Definition config_select (entity : EntityValue)
  (config : list (string * JsValue)) : list (string * JsValue) :=
  if is_string (discovery_type entity) "select" then
    if instanceof_Object (entity_get entity "options") then
      prop_set "command_template"
        (Str (join ""
                (map (λ '(key, value),
                        "{% if value == " +:+ dquote +:+ String_ value
                        +:+ dquote +:+ " %} " +:+ key +:+ " {% endif %}")
                     (Object_entries (entity_get entity "options")))))
        (prop_set "options"
           (Arr (Object_values (entity_get entity "options"))) config)
    else config
  else config.

(** Lines 236-245. *)
Definition config_climate (entity : EntityValue) (topic : string)
  (config : list (string * JsValue)) : list (string * JsValue) :=
  if is_string (discovery_type entity) "climate" then
    prop_set "availability_topic" (Str (topic +:+ "/state"))
      (prop_set "payload_not_available" (Str "offline")
         (prop_set "payload_available" (Str "online")
            (prop_set "fan_modes" (entity_get entity "fanModes")
               (prop_set "modes" (entity_get entity "modes")
                  (prop_set "temp_step" (entity_get entity "tempStep")
                     (prop_set "max_temp" (entity_get entity "maxTemp")
                        (prop_set "min_temp" (entity_get entity "minTemp")
                           config)))))))
  else config.

(** Lines 247-251. *)
Definition config_number (entity : EntityValue)
  (config : list (string * JsValue)) : list (string * JsValue) :=
  if is_string (discovery_type entity) "number" then
    prop_set "step" (entity_get entity "step")
      (prop_set "max" (entity_get entity "max")
         (prop_set "min" (entity_get entity "min") config))
  else config.

(** Lines 253-257. *)
Definition config_light (entity : EntityValue)
  (config : list (string * JsValue)) : list (string * JsValue) :=
  if is_string (discovery_type entity) "light" then
    prop_set "brightness" (entity_get entity "brightness")
      (prop_set "schema" (Str "json")
         (prop_set "brightness_scale" (entity_get entity "brightnessScale")
            config))
  else config.

(** The [config] that is published (line 259). *)
Definition discovery_config (device : Device) (entity : EntityValue)
  (topic : string) : list (string * JsValue) :=
  config_light entity
    (config_number entity
       (config_climate entity topic
          (config_select entity
             (config_sensor entity
                (config_commands device entity
                   (config_states device entity
                      (config_identity device entity))))))).

(** A property name that ends in [_topic]. *)
Definition ends_topic (k : string) : bool :=
  String.eqb (String.substring (String.length k - 6) 6 k) "_topic".

(** ** The broker's view of one topic

    Whether the client is subscribed to [topic] after one more call, and
    after a sequence of calls from a fresh client: the last [subscribe] or
    [unsubscribe] that names the topic decides. *)
Definition broker_step (topic : string) (subscribed : bool) (e : Effect)
  : bool :=
  match e with
  | client_subscribe t => if String.eqb t topic then true else subscribed
  | client_unsubscribe ts => if includes ts topic then false else subscribed
  | _ => subscribed
  end.

Definition subscribed_at_broker (topic : string) (effects : list Effect)
  : bool :=
  foldl (broker_step topic) false effects.

Definition is_unsubscribe (e : Effect) : bool :=
  match e with
  | client_unsubscribe _ => true
  | _ => false
  end.

(** Every topic that holds a handler in the subscription table is subscribed
    at the broker. *)
Definition handlers_subscribed (st : State) : Prop :=
  ∀ topic id handler,
    handler_at st topic id = Some handler →
    subscribed_at_broker topic (trace st) = true.

(** The ids of the devices whose [handle] was called, one per call. *)
Definition handled_ids (effects : list Effect) : list string :=
  omap (λ e, match e with
             | device_handle device _ _ _ => Some (Device.id device)
             | _ => None
             end) effects.

(** ** Traces *)

Lemma since_app st st' l : trace st' = trace st ++ l → since st st' = l.
Proof. intros H. unfold since. rewrite H. apply drop_app_length. Qed.

Lemma since_refl st : since st st = [].
Proof. apply since_app. by rewrite app_nil_r. Qed.

Lemma extends_since st st' : extends st st' → trace st' = trace st ++ since st st'.
Proof. intros [l Hl]. by rewrite (since_app _ _ _ Hl). Qed.

Lemma extends_refl st : extends st st.
Proof. exists []. by rewrite app_nil_r. Qed.

Lemma same_trace st st' :
  trace st' = trace st → extends st st' ∧ since st st' = [].
Proof.
  intros H. split.
  - exists []. by rewrite app_nil_r.
  - apply since_app. by rewrite app_nil_r.
Qed.

Lemma extends_trans st1 st2 st3 :
  extends st1 st2 → extends st2 st3 → extends st1 st3.
Proof.
  intros [l1 H1] [l2 H2]. exists (l1 ++ l2). by rewrite H2, H1, app_assoc.
Qed.

Lemma since_trans st1 st2 st3 :
  extends st1 st2 → extends st2 st3 →
  since st1 st3 = since st1 st2 ++ since st2 st3.
Proof.
  intros H1 H2. apply since_app.
  rewrite (extends_since _ _ H2), (extends_since _ _ H1).
  by rewrite app_assoc.
Qed.

Lemma trace_log icon message who st :
  trace (log icon message who st) = trace st ++ log_effects icon message who.
Proof. unfold log. simpl. by rewrite <- app_assoc. Qed.

Lemma extends_emit e st : extends st (emit e st).
Proof. by exists [e]. Qed.

Lemma extends_log icon message who st : extends st (log icon message who st).
Proof. eexists. apply trace_log. Qed.

Lemma foldl_emit_trace {A} (g : State → A → State) (f : A → Effect) :
  (∀ st x, g st x = emit (f x) st) →
  ∀ l st, trace (foldl g st l) = trace st ++ map f l.
Proof.
  intros Hg l. induction l as [|x l IH]; intros st; simpl.
  - by rewrite app_nil_r.
  - rewrite IH, Hg. simpl. by rewrite <- app_assoc.
Qed.

Lemma foldl_emit_fields {A} (g : State → A → State) (f : A → Effect) :
  (∀ st x, g st x = emit (f x) st) →
  ∀ l st,
    SUBSCRIBED_TOPICS (foldl g st l) = SUBSCRIBED_TOPICS st
    ∧ PUBLISH_TOPICS (foldl g st l) = PUBLISH_TOPICS st
    ∧ HA_DISCOVERY (foldl g st l) = HA_DISCOVERY st
    ∧ DEVICE_INSTANCES (foldl g st l) = DEVICE_INSTANCES st.
Proof.
  intros Hg l. induction l as [|x l IH]; intros st; simpl; [done|].
  destruct (IH (g st x)) as (->&->&->&->). by rewrite Hg.
Qed.

(** A fold whose every round only extends the trace extends it. *)
Lemma foldl_extends {A} (g : State → A → State) :
  (∀ st x, extends st (g st x)) →
  ∀ l st, extends st (foldl g st l).
Proof.
  intros Hg l. induction l as [|x l IH]; intros st; simpl.
  - apply extends_refl.
  - eapply extends_trans; [apply Hg | apply IH].
Qed.

(** What holds of the calls of every round holds of the calls of the fold. *)
Lemma foldl_since_Forall {A} (g : State → A → State) (P : Effect → Prop) :
  (∀ st x, extends st (g st x)) →
  (∀ st x, Forall P (since st (g st x))) →
  ∀ l st, Forall P (since st (foldl g st l)).
Proof.
  intros Hext Hg l. induction l as [|x l IH]; intros st; simpl.
  - rewrite since_refl. constructor.
  - rewrite (since_trans st (g st x)); [| apply Hext | by apply foldl_extends].
    apply Forall_app. split; [apply Hg | apply IH].
Qed.

(** ** [subscribe] *)

Lemma subscribe_unmodelled topic device key st :
  plain_pair topic device = false → subscribe topic device key st = None.
Proof.
  unfold plain_pair, subscribe. intros H%negb_false_iff. by rewrite H.
Qed.

Lemma subscribe_present topic device key st handler :
  plain_pair topic device = true →
  handler_at st topic (Device.id device) = Some handler →
  subscribe topic device key st = Some (false, st).
Proof.
  unfold plain_pair, handler_at, subscribe. intros Hp%negb_true_iff H.
  rewrite Hp.
  destruct (SUBSCRIBED_TOPICS st !! topic) as [handlers|] eqn:Ht; [|done].
  simpl in *. rewrite Ht. simpl. by rewrite H.
Qed.

Lemma handler_at_with_entry topic st t i :
  handler_at (with_entry topic st) t i = handler_at st t i.
Proof.
  unfold with_entry, handler_at.
  destruct (SUBSCRIBED_TOPICS st !! topic) eqn:Ht; [done|]. simpl.
  destruct (decide (topic = t)) as [<-|Hne].
  - by rewrite lookup_insert_eq, Ht.
  - by rewrite lookup_insert_ne.
Qed.

Lemma subscribe_inherited topic device key st :
  plain_pair topic device = true →
  handler_at st topic (Device.id device) = None →
  inherited_function (Device.id device) = true →
  subscribe topic device key st = Some (false, with_entry topic st).
Proof.
  unfold plain_pair, handler_at, subscribe, with_entry.
  intros Hp%negb_true_iff H Hi. rewrite Hp.
  destruct (SUBSCRIBED_TOPICS st !! topic) as [handlers|] eqn:Ht; simpl in *.
  - rewrite Ht. simpl. by rewrite H, Hi.
  - rewrite lookup_insert_eq. simpl. by rewrite lookup_empty, Hi.
Qed.

Lemma subscribe_absent topic device key st :
  plain_pair topic device = true →
  handler_at st topic (Device.id device) = None →
  inherited_function (Device.id device) = false →
  ∃ st', subscribe topic device key st = Some (true, st')
    ∧ SUBSCRIBED_TOPICS st'
      = <[topic := <[Device.id device := mkHandler device key]>
                     (default ∅ (SUBSCRIBED_TOPICS st !! topic))]>
          (SUBSCRIBED_TOPICS st)
    ∧ PUBLISH_TOPICS st' = PUBLISH_TOPICS st
    ∧ HA_DISCOVERY st' = HA_DISCOVERY st
    ∧ DEVICE_INSTANCES st' = DEVICE_INSTANCES st
    ∧ trace st' = trace st ++
        client_subscribe topic
        :: log_effects "📡" ("subscribed to topic " +:+ dquote
                             +:+ chalk.yellow topic +:+ dquote)
                       (Some (Device.name device)).
Proof.
  unfold plain_pair, handler_at, subscribe. intros Hp%negb_true_iff H Hi.
  rewrite Hp.
  destruct (SUBSCRIBED_TOPICS st !! topic) as [handlers|] eqn:Ht; simpl in *.
  - rewrite Ht. simpl. rewrite H, Hi. eexists. split; [reflexivity|].
    simpl. repeat split; try done. by rewrite <- !app_assoc.
  - rewrite lookup_insert_eq. simpl. rewrite lookup_empty, Hi.
    eexists. split; [reflexivity|]. simpl. rewrite insert_insert_eq.
    repeat split; try done. by rewrite <- !app_assoc.
Qed.

(** The four ways a [subscribe] call goes. *)
Lemma subscribe_cases topic device key st :
  (plain_pair topic device = false
   ∧ subscribe topic device key st = None
   ∧ after_subscribe topic device key st = st)
  ∨ (plain_pair topic device = true
     ∧ (∃ h, handler_at st topic (Device.id device) = Some h)
     ∧ subscribe topic device key st = Some (false, st)
     ∧ after_subscribe topic device key st = st)
  ∨ (plain_pair topic device = true
     ∧ handler_at st topic (Device.id device) = None
     ∧ inherited_function (Device.id device) = true
     ∧ subscribe topic device key st = Some (false, with_entry topic st)
     ∧ after_subscribe topic device key st = with_entry topic st)
  ∨ (plain_pair topic device = true
     ∧ handler_at st topic (Device.id device) = None
     ∧ inherited_function (Device.id device) = false
     ∧ ∃ st', subscribe topic device key st = Some (true, st')
         ∧ after_subscribe topic device key st = st'
         ∧ SUBSCRIBED_TOPICS st'
           = <[topic := <[Device.id device := mkHandler device key]>
                          (default ∅ (SUBSCRIBED_TOPICS st !! topic))]>
               (SUBSCRIBED_TOPICS st)
         ∧ PUBLISH_TOPICS st' = PUBLISH_TOPICS st
         ∧ HA_DISCOVERY st' = HA_DISCOVERY st
         ∧ DEVICE_INSTANCES st' = DEVICE_INSTANCES st
         ∧ trace st' = trace st ++
             client_subscribe topic
             :: log_effects "📡" ("subscribed to topic " +:+ dquote
                                  +:+ chalk.yellow topic +:+ dquote)
                            (Some (Device.name device))).
Proof.
  unfold after_subscribe.
  destruct (plain_pair topic device) eqn:Hp.
  - destruct (handler_at st topic (Device.id device)) as [h|] eqn:Hh.
    + right. left. rewrite (subscribe_present _ _ _ _ _ Hp Hh). eauto.
    + destruct (inherited_function (Device.id device)) eqn:Hi.
      * right. right. left.
        by rewrite (subscribe_inherited _ _ _ _ Hp Hh Hi).
      * right. right. right.
        destruct (subscribe_absent topic device key st Hp Hh Hi)
          as (st' & -> & H). split_and!; try done. exists st'. by split.
  - left. by rewrite (subscribe_unmodelled _ _ _ _ Hp).
Qed.

Lemma with_entry_fields topic st :
  PUBLISH_TOPICS (with_entry topic st) = PUBLISH_TOPICS st
  ∧ HA_DISCOVERY (with_entry topic st) = HA_DISCOVERY st
  ∧ DEVICE_INSTANCES (with_entry topic st) = DEVICE_INSTANCES st
  ∧ trace (with_entry topic st) = trace st.
Proof. unfold with_entry. by destruct (SUBSCRIBED_TOPICS st !! topic). Qed.

Lemma subscribe_frame topic device key st :
  let st' := after_subscribe topic device key st in
  PUBLISH_TOPICS st' = PUBLISH_TOPICS st
  ∧ HA_DISCOVERY st' = HA_DISCOVERY st
  ∧ DEVICE_INSTANCES st' = DEVICE_INSTANCES st
  ∧ extends st st'
  ∧ Forall (λ e, is_publish e = false ∧ is_device_new e = false)
           (since st st').
Proof.
  cbv zeta.
  destruct (subscribe_cases topic device key st)
    as [(_ & _ & ->) | [(_ & _ & _ & ->) | [(_ & _ & _ & _ & ->)
        | (_ & _ & _ & st' & _ & -> & _ & ? & ? & ? & Htr)]]].
  - repeat split; try done; [apply extends_refl|].
    rewrite since_refl. constructor.
  - repeat split; try done; [apply extends_refl|].
    rewrite since_refl. constructor.
  - destruct (with_entry_fields topic st) as (? & ? & ? & Htr).
    destruct (same_trace _ _ Htr) as [? ->]. by repeat split.
  - repeat split; try done; [by eexists|].
    rewrite (since_app _ _ _ Htr). by repeat constructor.
Qed.

Lemma keyed_by_id_with_entry topic st :
  keyed_by_id st → keyed_by_id (with_entry topic st).
Proof.
  intros Hinv t hs i h Ht Hi.
  assert (handler_at (with_entry topic st) t i = Some h) as H.
  { unfold handler_at. rewrite Ht. done. }
  rewrite handler_at_with_entry in H. unfold handler_at in H.
  destruct (SUBSCRIBED_TOPICS st !! t) as [hs'|] eqn:E; [|done].
  by apply (Hinv t hs').
Qed.

Lemma keyed_by_id_subscribe topic device key st :
  keyed_by_id st → keyed_by_id (after_subscribe topic device key st).
Proof.
  intros Hinv.
  destruct (subscribe_cases topic device key st)
    as [(_ & _ & ->) | [(_ & _ & _ & ->) | [(_ & _ & _ & _ & ->)
        | (_ & _ & _ & st' & _ & -> & Ht & _)]]]; try done.
  - by apply keyed_by_id_with_entry.
  - intros t hs i h. rewrite Ht.
    destruct (decide (topic = t)) as [->|Hne].
    + rewrite lookup_insert_eq. intros [= <-].
      destruct (decide (Device.id device = i)) as [<-|Hni].
      * rewrite lookup_insert_eq. by intros [= <-].
      * rewrite lookup_insert_ne by done.
        destruct (SUBSCRIBED_TOPICS st !! t) as [hs|] eqn:E; simpl.
        -- by apply (Hinv t hs).
        -- by rewrite lookup_empty.
    + rewrite lookup_insert_ne by done. apply Hinv.
Qed.

(** A handler, once stored, is never replaced or removed by [subscribe]. *)
Lemma subscribe_keeps topic device key st t i h :
  handler_at st t i = Some h →
  handler_at (after_subscribe topic device key st) t i = Some h.
Proof.
  intros Hold.
  destruct (subscribe_cases topic device key st)
    as [(_ & _ & ->) | [(_ & _ & _ & ->) | [(_ & _ & _ & _ & ->)
        | (_ & Hh & _ & st' & _ & -> & Ht & _)]]]; try done.
  - by rewrite handler_at_with_entry.
  - unfold handler_at in *. rewrite Ht.
    destruct (decide (topic = t)) as [->|Hne].
    + rewrite lookup_insert_eq. simpl.
      destruct (decide (Device.id device = i)) as [<-|Hni].
      * by rewrite Hold in Hh.
      * rewrite lookup_insert_ne by done.
        by destruct (SUBSCRIBED_TOPICS st !! t).
    + by rewrite lookup_insert_ne.
Qed.

(** [subscribe] writes no handler but the one of its pair. *)
Lemma subscribe_other topic device key st t i :
  (t, i) ≠ (topic, Device.id device) →
  handler_at (after_subscribe topic device key st) t i = handler_at st t i.
Proof.
  intros Hne.
  destruct (subscribe_cases topic device key st)
    as [(_ & _ & ->) | [(_ & _ & _ & ->) | [(_ & _ & _ & _ & ->)
        | (_ & Hh & _ & st' & _ & -> & Ht & _)]]]; try done.
  - by rewrite handler_at_with_entry.
  - unfold handler_at in *. rewrite Ht.
    destruct (decide (topic = t)) as [->|Hnt].
    + rewrite lookup_insert_eq. simpl.
      rewrite lookup_insert_ne by congruence.
      by destruct (SUBSCRIBED_TOPICS st !! t).
    + by rewrite lookup_insert_ne.
Qed.


Lemma subscribe_at topic device key st :
  plain_pair topic device = true →
  inherited_function (Device.id device) = false →
  handler_at st topic (Device.id device) = None →
  handler_at (after_subscribe topic device key st) topic (Device.id device)
  = Some (mkHandler device key).
Proof.
  intros Hp Hi H.
  destruct (subscribe_absent topic device key st Hp H Hi)
    as (st' & Hs & Htable & _).
  unfold after_subscribe. rewrite Hs.
  unfold handler_at. rewrite Htable, lookup_insert_eq. cbn.
  by rewrite lookup_insert_eq.
Qed.


(** ** [subscribeEach] *)

Section SubscribeEach.

Context {A : Type} (topic : A → string) (key : A → JsValue) (device : Device).

Lemma subscribeEach_cons x xs st :
  subscribeEach topic key device (x :: xs) st
  = if plain_pair (topic x) device
    then subscribeEach topic key device xs
           (after_subscribe (topic x) device (key x) st)
    else (Unmodelled, st).
Proof.
  cbn [subscribeEach]. unfold after_subscribe.
  destruct (subscribe_cases (topic x) device (key x) st)
    as [(-> & -> & _) | [(-> & _ & -> & _) | [(-> & _ & _ & -> & _)
        | (-> & _ & _ & st' & -> & _)]]]; done.
Qed.

Lemma subscribeEach_invariant (P : State → Prop) :
  (∀ st x, P st → P (after_subscribe (topic x) device (key x) st)) →
  ∀ xs st, P st → P (subscribeEach topic key device xs st).2.
Proof.
  intros HP xs. induction xs as [|x xs IH]; intros st H; [done|].
  rewrite subscribeEach_cons. destruct (plain_pair _ _); [|done].
  by apply IH, HP.
Qed.

Lemma subscribeEach_preserves {B} (proj : State → B) :
  (∀ st x, proj (after_subscribe (topic x) device (key x) st) = proj st) →
  ∀ xs st, proj (subscribeEach topic key device xs st).2 = proj st.
Proof.
  intros HP xs. induction xs as [|x xs IH]; intros st; [done|].
  rewrite subscribeEach_cons. destruct (plain_pair _ _); [|done].
  by rewrite IH, HP.
Qed.

Lemma subscribeEach_extends xs st :
  extends st (subscribeEach topic key device xs st).2.
Proof.
  revert st. induction xs as [|x xs IH]; intros st; [apply extends_refl|].
  rewrite subscribeEach_cons.
  destruct (plain_pair _ _); [|apply extends_refl].
  eapply extends_trans; [|apply IH]. apply subscribe_frame.
Qed.

Lemma subscribeEach_since_Forall (P : Effect → Prop) :
  (∀ st x, Forall P (since st (after_subscribe (topic x) device (key x) st))) →
  ∀ xs st, Forall P (since st (subscribeEach topic key device xs st).2).
Proof.
  intros HP xs. induction xs as [|x xs IH]; intros st.
  - cbn. rewrite since_refl. constructor.
  - rewrite subscribeEach_cons.
    destruct (plain_pair _ _); [|cbn; rewrite since_refl; constructor].
    rewrite (since_trans st (after_subscribe (topic x) device (key x) st));
      [| apply subscribe_frame | apply subscribeEach_extends].
    apply Forall_app. split; [apply HP | apply IH].
Qed.

(** [subscribeEach] never throws, and it returns when nothing names a
    prototype. *)
Lemma subscribeEach_outcome xs st :
  (subscribeEach topic key device xs st).1
  = if forallb (λ x, plain_pair (topic x) device) xs
    then Returns else Unmodelled.
Proof.
  revert st. induction xs as [|x xs IH]; intros st; [done|].
  rewrite subscribeEach_cons. cbn [forallb].
  destruct (plain_pair _ _); [apply IH | done].
Qed.

Lemma subscribeEach_frame xs st :
  let st' := (subscribeEach topic key device xs st).2 in
  PUBLISH_TOPICS st' = PUBLISH_TOPICS st
  ∧ HA_DISCOVERY st' = HA_DISCOVERY st
  ∧ DEVICE_INSTANCES st' = DEVICE_INSTANCES st
  ∧ extends st st'
  ∧ Forall (λ e, is_publish e = false ∧ is_device_new e = false)
           (since st st')
  ∧ (keyed_by_id st → keyed_by_id st')
  ∧ (∀ t i h, handler_at st t i = Some h → handler_at st' t i = Some h).
Proof.
  cbv zeta. split_and!.
  - apply (subscribeEach_preserves PUBLISH_TOPICS). intros.
    apply subscribe_frame.
  - apply (subscribeEach_preserves HA_DISCOVERY). intros.
    apply subscribe_frame.
  - apply (subscribeEach_preserves DEVICE_INSTANCES). intros.
    apply subscribe_frame.
  - apply subscribeEach_extends.
  - apply subscribeEach_since_Forall. intros. apply subscribe_frame.
  - apply (subscribeEach_invariant keyed_by_id). intros.
    by apply keyed_by_id_subscribe.
  - intros t i h.
    apply (subscribeEach_invariant (λ st, handler_at st t i = Some h)).
    intros. by apply subscribe_keeps.
Qed.

End SubscribeEach.

(** What was called in a front part without [P] was called before the first
    call with [P]. *)
Lemma called_before {A} (P : A → Prop) (front rest calls later : list A) e x :
  front ++ rest = calls ++ e :: later →
  Forall (λ y, ¬ P y) front →
  P e →
  x ∈ front → x ∈ calls.
Proof.
  revert calls. induction front as [|f front IH]; intros calls Heq Hf He Hx.
  - by apply elem_of_nil in Hx.
  - apply Forall_cons in Hf as [Hf Hfront].
    destruct calls as [|c calls]; simpl in Heq; injection Heq as -> Heq.
    + done.
    + apply elem_of_cons in Hx as [->|Hx].
      * apply list_elem_of_here.
      * apply list_elem_of_further. by eapply IH.
Qed.

(** ** [publish] and [processEntity] *)

Lemma Object_entries_not_object v :
  instanceof_Object v = false → Object_entries v = [].
Proof. by destruct v. Qed.

Lemma publishHomeAssistantDiscovery_unfold device entity topic st :
  ∃ config,
    publishHomeAssistantDiscovery device entity topic st
    = emit (client_publish (discovery_topic device entity)
                           (JSON_stringify (Obj config)) true)
           (set_HA_DISCOVERY (HA_DISCOVERY st ++ [topic]) st).
Proof. eexists. reflexivity. Qed.

Lemma publish_spec device entity support st :
  let topic := getEntityTopic device entity in
  let st' := publish device entity support st in
  SUBSCRIBED_TOPICS st' = SUBSCRIBED_TOPICS st
  ∧ DEVICE_INSTANCES st' = DEVICE_INSTANCES st
  ∧ PUBLISH_TOPICS st'
    = (if includes (PUBLISH_TOPICS st) topic then PUBLISH_TOPICS st
       else PUBLISH_TOPICS st ++ [topic])
  ∧ HA_DISCOVERY st'
    = (if announces device entity support st then HA_DISCOVERY st ++ [topic]
       else HA_DISCOVERY st)
  ∧ ∃ message config,
      trace st' = trace st
                  ++ descriptor_part device entity message st
                  ++ states_part device entity
                  ++ discovery_part device entity support config st.
Proof.
  intros topic st'. unfold st', publish. fold topic.
  set (st1 := if negb (includes (PUBLISH_TOPICS st) topic) then _ else st).
  set (st2 := if instanceof_Object (entity_get entity "states") then _ else st1).
  pose (message := "published entity " +:+ dquote
                   +:+ chalk.cyan (String_ (entity_get entity "name"))
                   +:+ dquote +:+ " to topic " +:+ dquote
                   +:+ chalk.yellow topic +:+ dquote).
  assert (H1 : SUBSCRIBED_TOPICS st1 = SUBSCRIBED_TOPICS st
               ∧ DEVICE_INSTANCES st1 = DEVICE_INSTANCES st
               ∧ HA_DISCOVERY st1 = HA_DISCOVERY st
               ∧ PUBLISH_TOPICS st1
                 = (if includes (PUBLISH_TOPICS st) topic then PUBLISH_TOPICS st
                    else PUBLISH_TOPICS st ++ [topic])
               ∧ trace st1 = trace st ++ descriptor_part device entity message st).
  { unfold st1, descriptor_part. fold topic.
    destruct (includes (PUBLISH_TOPICS st) topic); simpl.
    - by rewrite app_nil_r.
    - repeat split; try done. by rewrite <- !app_assoc. }
  destruct H1 as (Hs1 & Hd1 & Hh1 & Hp1 & Ht1).
  assert (H2 : SUBSCRIBED_TOPICS st2 = SUBSCRIBED_TOPICS st1
               ∧ PUBLISH_TOPICS st2 = PUBLISH_TOPICS st1
               ∧ HA_DISCOVERY st2 = HA_DISCOVERY st1
               ∧ DEVICE_INSTANCES st2 = DEVICE_INSTANCES st1
               ∧ trace st2 = trace st1 ++ states_part device entity).
  { unfold st2, states_part. fold topic.
    destruct (instanceof_Object (entity_get entity "states")) eqn:Ho.
    - pose (f := λ '(key, state),
                   client_publish (topic +:+ "/" +:+ key)
                                  (Text (String_ state)) true).
      assert (Hg : ∀ (s : State) (x : string * JsValue),
                 (let '(key, state) := x in
                  emit (client_publish (topic +:+ "/" +:+ key)
                                       (Text (String_ state)) true) s)
                 = emit (f x) s) by by intros ? [? ?].
      destruct (foldl_emit_fields _ f Hg
                  (Object_entries (entity_get entity "states")) st1)
        as (?&?&?&?).
      split_and!; try done.
      by apply (foldl_emit_trace _ f Hg).
    - rewrite Object_entries_not_object by done. simpl.
      by rewrite app_nil_r. }
  destruct H2 as (Hs2 & Hp2 & Hh2 & Hd2 & Ht2).
  destruct (publishHomeAssistantDiscovery_unfold device entity topic st2)
    as [config Hpub].
  assert (Hann : includes support "homeassistant"
                 && negb (includes (HA_DISCOVERY st2) topic)
                 = announces device entity support st).
  { unfold announces. fold topic. by rewrite Hh2, Hh1. }
  rewrite Hann. unfold discovery_part.
  destruct (announces device entity support st).
  - rewrite Hpub. simpl. rewrite Hs2, Hs1, Hd2, Hd1, Hp2, Hp1, Hh2, Hh1.
    split_and!; try done. exists message, config.
    by rewrite Ht2, Ht1, <- !app_assoc.
  - rewrite Hs2, Hs1, Hd2, Hd1, Hp2, Hp1, Hh2, Hh1.
    split_and!; try done. exists message, config.
    by rewrite Ht2, Ht1, app_nil_r, <- !app_assoc.
Qed.

(** ** Topics *)

(** A canonical entity topic lies under [connector/]. *)
Lemma getEntityTopic_prefix device entity :
  ∃ rest, getEntityTopic device entity = "connector/" +:+ rest.
Proof. eexists. reflexivity. Qed.

Lemma discovery_topic_prefix device entity :
  ∃ rest, discovery_topic device entity = "homeassistant/" +:+ rest.
Proof. eexists. reflexivity. Qed.

Lemma canonical_not_discovery device entity device' entity' :
  discovery_topic device' entity' ≠ getEntityTopic device entity.
Proof.
  destruct (getEntityTopic_prefix device entity) as [r ->].
  destruct (discovery_topic_prefix device' entity') as [r' ->].
  discriminate.
Qed.

Lemma canonical_not_in_hub_namespace device entity suffix :
  String.prefix (HA_BASE_TOPIC +:+ "/") (getEntityTopic device entity +:+ suffix)
  = false.
Proof.
  destruct (getEntityTopic_prefix device entity) as [r ->]. reflexivity.
Qed.

(** ** Reading publications off a list of calls *)

Lemma descriptor_publications_app topic l1 l2 :
  descriptor_publications topic (l1 ++ l2)
  = descriptor_publications topic l1 ++ descriptor_publications topic l2.
Proof. apply omap_app. Qed.

Lemma state_publications_app l1 l2 :
  state_publications (l1 ++ l2)
  = state_publications l1 ++ state_publications l2.
Proof. apply omap_app. Qed.

Lemma descriptor_publications_quiet topic l :
  Forall (λ e, is_publish e = false) l → descriptor_publications topic l = [].
Proof.
  induction 1 as [|e l He _ IH]; [done|].
  unfold descriptor_publications in *. by destruct e.
Qed.

Lemma state_publications_quiet l :
  Forall (λ e, is_publish e = false) l → state_publications l = [].
Proof.
  induction 1 as [|e l He _ IH]; [done|].
  unfold state_publications in *. by destruct e.
Qed.

Lemma descriptor_publications_states topic device entity :
  descriptor_publications topic (states_part device entity) = [].
Proof.
  unfold states_part.
  induction (Object_entries (entity_get entity "states")) as [|[k v] l IH];
    [done|].
  unfold descriptor_publications in *. simpl. exact IH.
Qed.

Lemma state_publications_states device entity :
  state_publications (states_part device entity)
  = map (λ '(key, state),
           (getEntityTopic device entity +:+ "/" +:+ key, String_ state, true))
        (Object_entries (entity_get entity "states")).
Proof.
  unfold states_part.
  induction (Object_entries (entity_get entity "states")) as [|[k v] l IH];
    [done|].
  unfold state_publications in *. simpl. f_equal. exact IH.
Qed.

Lemma descriptor_publications_descriptor topic device entity message st :
  descriptor_publications topic (descriptor_part device entity message st)
  = if includes (PUBLISH_TOPICS st) (getEntityTopic device entity) then []
    else if decide (getEntityTopic device entity = topic)
         then [(entity_value entity, true)] else [].
Proof.
  unfold descriptor_part.
  destruct (includes (PUBLISH_TOPICS st) (getEntityTopic device entity));
    [done|].
  unfold descriptor_publications. simpl. by case_decide.
Qed.

Lemma state_publications_descriptor device entity message st :
  state_publications (descriptor_part device entity message st) = [].
Proof.
  unfold descriptor_part.
  by destruct (includes (PUBLISH_TOPICS st) (getEntityTopic device entity)).
Qed.

Lemma descriptor_publications_discovery device entity device' entity'
  support config st :
  descriptor_publications (getEntityTopic device entity)
    (discovery_part device' entity' support config st) = [].
Proof.
  unfold discovery_part. destruct (announces _ _ _ _); [|done].
  unfold descriptor_publications. simpl.
  destruct (decide (discovery_topic device' entity'
                    = getEntityTopic device entity)) as [Heq|]; [|done].
  by destruct (canonical_not_discovery device entity device' entity').
Qed.

Lemma state_publications_discovery device entity support config st :
  state_publications (discovery_part device entity support config st) = [].
Proof. unfold discovery_part. by destruct (announces _ _ _ _). Qed.

Lemma canonical_not_hub device entity :
  String.prefix (HA_BASE_TOPIC +:+ "/") (getEntityTopic device entity) = false.
Proof.
  destruct (getEntityTopic_prefix device entity) as [r ->]. reflexivity.
Qed.

Lemma includes_app xs ys x :
  includes (xs ++ ys) x = includes xs x || includes ys x.
Proof.
  unfold includes. apply eq_true_iff_eq.
  rewrite orb_true_iff, !bool_decide_eq_true. apply elem_of_app.
Qed.

Lemma includes_singleton x y :
  includes [x] y = bool_decide (y = x).
Proof.
  unfold includes. apply bool_decide_ext. apply list_elem_of_singleton.
Qed.

(** ** Splitting topics *)

Lemma split_slash_nonempty s : split_slash s ≠ [].
Proof.
  destruct s as [|c s]; simpl; [done|].
  destruct (Ascii.eqb c "/"); [done|]. by destruct (split_slash s).
Qed.

Lemma join_split_slash s : join "/" (split_slash s) = s.
Proof.
  unfold join. induction s as [|c s IH]; [done|]. simpl.
  destruct (Ascii.eqb c "/") eqn:Hc.
  - apply Ascii.eqb_eq in Hc as ->.
    destruct (split_slash s) as [|p ps] eqn:Hs.
    + by destruct (split_slash_nonempty s).
    + simpl in *. by rewrite IH.
  - destruct (split_slash s) as [|p ps] eqn:Hs.
    + by destruct (split_slash_nonempty s).
    + rewrite <- IH. simpl. by destruct ps.
Qed.

(** The listener's test for the hub's root status topic (line 93) holds of
    exactly one topic. *)
Lemma hub_status_topic topic :
  bool_decide (split_slash topic !! 0%nat = Some HA_BASE_TOPIC)
  && bool_decide (split_slash topic !! 1%nat = Some "status")
  && bool_decide (length (split_slash topic) = 2%nat)
  = String.eqb topic "homeassistant/status".
Proof.
  destruct (String.eqb topic "homeassistant/status") eqn:Ht.
  - apply String.eqb_eq in Ht as ->. reflexivity.
  - apply andb_false_iff. rewrite andb_false_iff.
    rewrite !bool_decide_eq_false.
    destruct (decide (split_slash topic !! 0%nat = Some HA_BASE_TOPIC))
      as [H0|]; [|by left; left].
    destruct (decide (split_slash topic !! 1%nat = Some "status"))
      as [H1|]; [|by left; right].
    right. intros Hlen.
    apply String.eqb_neq in Ht. apply Ht.
    rewrite <- (join_split_slash topic).
    destruct (split_slash topic) as [|a [|b [|c l]]]; try done.
    simpl in H0, H1. by injection H0 as ->; injection H1 as ->.
Qed.

(** ** Folds over the state *)

Lemma foldl_preserves {A B} (proj : State → B) (g : State → A → State) :
  (∀ st x, proj (g st x) = proj st) →
  ∀ l st, proj (foldl g st l) = proj st.
Proof.
  intros Hg l. induction l as [|x l IH]; intros st; simpl; [done|].
  by rewrite IH.
Qed.

Lemma foldl_invariant {A} (P : State → Prop) (g : State → A → State) :
  (∀ st x, P st → P (g st x)) →
  ∀ l st, P st → P (foldl g st l).
Proof.
  intros Hg l. induction l as [|x l IH]; intros st H; simpl; [done|].
  by apply IH, Hg.
Qed.

(** ** [processEntity] *)

Lemma processEntity_spec device entity support st :
  let st1 := publish device entity support st in
  let st' := (processEntity device entity support st).2 in
  PUBLISH_TOPICS st' = PUBLISH_TOPICS st1
  ∧ HA_DISCOVERY st' = HA_DISCOVERY st1
  ∧ DEVICE_INSTANCES st' = DEVICE_INSTANCES st
  ∧ extends st st1 ∧ extends st1 st'
  ∧ Forall (λ e, is_publish e = false ∧ is_device_new e = false)
           (since st1 st')
  ∧ (keyed_by_id st → keyed_by_id st').
Proof.
  intros st1 st'.
  destruct (publish_spec device entity support st)
    as (Hs & Hd & _ & _ & message & config & Htr).
  fold st1 in Hs, Hd, Htr.
  assert (Hk1 : keyed_by_id st → keyed_by_id st1).
  { unfold keyed_by_id. by rewrite Hs. }
  assert (Hext : extends st st1) by by eexists.
  unfold st', processEntity. fold st1.
  destruct (entity_get entity "commands");
    try (split_and!; try done; [apply extends_refl |
                               cbn; rewrite since_refl; constructor]).
  match goal with
  | |- context [subscribeEach ?t ?k device ?xs st1] =>
      destruct (subscribeEach_frame t k device xs st1)
        as (Hp' & Hh' & Hd' & Hext' & Hq' & Hk' & _)
  end.
  split_and!; try done.
  - by rewrite Hd'.
  - intros H. by apply Hk', Hk1.
Qed.

(** [processEntity] never throws. *)
Lemma processEntity_outcome device entity support st :
  (processEntity device entity support st).1 = Returns
  ∨ (processEntity device entity support st).1 = Unmodelled.
Proof.
  unfold processEntity.
  destruct (entity_get entity "commands"); try by left.
  rewrite subscribeEach_outcome. destruct (forallb _ _); [by left | by right].
Qed.

(** ** [dispatch] *)

Lemma dispatch_trace topic parts message st :
  trace (dispatch topic parts message st)
  = trace st ++ map (handle_call parts message)
                    (map_to_list (default ∅ (SUBSCRIBED_TOPICS st !! topic))).
Proof.
  unfold dispatch. destruct (SUBSCRIBED_TOPICS st !! topic) as [hs|]; simpl.
  - apply foldl_emit_trace. by intros ? [? ?].
  - rewrite map_to_list_empty. simpl. by rewrite app_nil_r.
Qed.

Lemma dispatch_fields topic parts message st :
  let st' := dispatch topic parts message st in
  SUBSCRIBED_TOPICS st' = SUBSCRIBED_TOPICS st
  ∧ PUBLISH_TOPICS st' = PUBLISH_TOPICS st
  ∧ HA_DISCOVERY st' = HA_DISCOVERY st
  ∧ DEVICE_INSTANCES st' = DEVICE_INSTANCES st.
Proof.
  unfold dispatch. destruct (SUBSCRIBED_TOPICS st !! topic) as [hs|]; [|done].
  apply (foldl_emit_fields _ (handle_call parts message)). by intros ? [? ?].
Qed.

Lemma dispatch_quiet topic parts message st :
  Forall (λ e, is_publish e = false ∧ is_device_new e = false)
         (since st (dispatch topic parts message st)).
Proof.
  rewrite (since_app _ _ _ (dispatch_trace topic parts message st)).
  apply Forall_fmap, Forall_forall. by intros [? ?].
Qed.

(** ** One epoch of publications *)

(** Each descriptor that [publish] sends to a canonical topic uses up the
    topic's absence from the dedup set. *)
Lemma publish_descriptor_budget device entity device' entity' support st :
  let topic := getEntityTopic device entity in
  let st' := publish device' entity' support st in
  (length (descriptor_publications topic (since st st'))
   + (if includes (PUBLISH_TOPICS st') topic then 0 else 1)
   ≤ if includes (PUBLISH_TOPICS st) topic then 0 else 1)%nat.
Proof.
  intros topic st'.
  destruct (publish_spec device' entity' support st)
    as (_ & _ & Hp & _ & message & config & Htr).
  fold st' in Hp, Htr. rewrite (since_app _ _ _ Htr), Hp.
  rewrite !descriptor_publications_app, descriptor_publications_states,
    descriptor_publications_descriptor.
  unfold topic. rewrite descriptor_publications_discovery. fold topic.
  set (topic' := getEntityTopic device' entity').
  clearbody topic topic'. clear Htr.
  destruct (includes (PUBLISH_TOPICS st) topic') eqn:Hin'; simpl.
  - by destruct (includes (PUBLISH_TOPICS st) topic).
  - rewrite includes_app, includes_singleton.
    destruct (decide (topic' = topic)) as [Heq|Hne].
    + rewrite <- Heq, Hin', bool_decide_eq_true_2 by done. simpl. lia.
    + rewrite (bool_decide_eq_false_2 (topic = topic')) by done.
      rewrite orb_false_r. simpl.
      by destruct (includes (PUBLISH_TOPICS st) topic).
Qed.

(** Calls without a publication read as no descriptor. *)
Lemma descriptor_publications_quiet' topic l :
  Forall (λ e, is_publish e = false ∧ is_device_new e = false) l →
  descriptor_publications topic l = [].
Proof.
  intros H. apply descriptor_publications_quiet.
  eapply Forall_impl; [exact H|]. by intros ? [? ?].
Qed.

Lemma processEntity_descriptor_budget device entity device' entity' support st :
  let topic := getEntityTopic device entity in
  let st' := (processEntity device' entity' support st).2 in
  (length (descriptor_publications topic (since st st'))
   + (if includes (PUBLISH_TOPICS st') topic then 0 else 1)
   ≤ if includes (PUBLISH_TOPICS st) topic then 0 else 1)%nat.
Proof.
  intros topic st'.
  destruct (processEntity_spec device' entity' support st)
    as (Hp & _ & _ & Hext1 & Hext2 & Hq & _).
  fold st' in Hp, Hext2, Hq.
  rewrite (since_trans st _ st' Hext1 Hext2), descriptor_publications_app,
    (descriptor_publications_quiet' _ _ Hq), app_nil_r, Hp.
  apply publish_descriptor_budget.
Qed.

(** ** The device table as an association list *)



Lemma prop_set_keys {A} k (v : A) l x :
  x ∈ map fst (prop_set k v l) → x = k ∨ x ∈ map fst l.
Proof.
  induction l as [|[k' v'] l IH]; simpl.
  - intros H. apply list_elem_of_singleton in H. by left.
  - destruct (String.eqb k' k) eqn:E; simpl.
    + apply String.eqb_eq in E as ->. intros H. by right.
    + intros [->|H]%elem_of_cons.
      * right. apply list_elem_of_here.
      * destruct (IH H) as [->|?]; [by left|]. right.
        by apply list_elem_of_further.
Qed.

(** Storing an instance keeps one entry per id. *)
Lemma prop_set_NoDup {A} k (v : A) l :
  NoDup (map fst l) → NoDup (map fst (prop_set k v l)).
Proof.
  induction l as [|[k' v'] l IH]; simpl; intros H.
  - repeat constructor. by intros ?%elem_of_nil.
  - apply NoDup_cons in H as [Hnin Hnd].
    destruct (String.eqb k' k) eqn:E; simpl.
    + apply String.eqb_eq in E as ->. by apply NoDup_cons.
    + apply NoDup_cons. split; [|by apply IH].
      intros [->|?]%prop_set_keys; [|done].
      by rewrite String.eqb_refl in E.
Qed.

(** ** The device table as an array *)

Lemma array_index_canonical k n : array_index k = Some n → pretty n = k.
Proof.
  unfold array_index. destruct (decimal_from 0 k) as [m|]; [|done].
  destruct (String.eqb (pretty m) k) eqn:E; [|done].
  destruct (m <? 4294967295)%N; [|done]. intros [= <-].
  by apply String.eqb_eq.
Qed.



Lemma element_set_keeps_key {A} n k (v : A) l x :
  array_index k = Some n →
  x ∈ map fst l → x ∈ map fst (element_set n k v l).
Proof.
  intros Hk. induction l as [|[k0 v0] l IH]; simpl;
    [by intros ?%elem_of_nil|].
  intros Hin.
  destruct (array_index k0) as [m|] eqn:Hk0; simpl.
  - destruct (m <? n)%N; simpl.
    + apply elem_of_cons in Hin as [->|Hin];
        [apply list_elem_of_here | by apply list_elem_of_further, IH].
    + destruct (m =? n)%N eqn:Heq; simpl.
      * apply N.eqb_eq in Heq as ->.
        apply array_index_canonical in Hk, Hk0. by rewrite <- Hk, Hk0.
      * by apply list_elem_of_further.
  - by apply list_elem_of_further.
Qed.

Lemma prop_set_keeps_key {A} k (v : A) l x :
  x ∈ map fst l → x ∈ map fst (prop_set k v l).
Proof.
  induction l as [|[k' v'] l IH]; simpl; [by intros ?%elem_of_nil|].
  intros [->|Hin]%elem_of_cons.
  - destruct (String.eqb k' k) eqn:E; simpl.
    + apply String.eqb_eq in E as ->. apply list_elem_of_here.
    + apply list_elem_of_here.
  - destruct (String.eqb k' k); simpl.
    + by apply list_elem_of_further.
    + by apply list_elem_of_further, IH.
Qed.



Lemma Array_set_keeps_key {A} k (v : A) l x :
  x ∈ map fst l → x ∈ map fst (Array_set k v l).
Proof.
  unfold Array_set. destruct (array_index k) as [n|] eqn:Hk.
  - by apply element_set_keeps_key.
  - apply prop_set_keeps_key.
Qed.

(** ** More on [subscribe] *)

Lemma subscribe_entries_frame device entries st :
  let st' := (subscribe_entries device entries st).2 in
  PUBLISH_TOPICS st' = PUBLISH_TOPICS st
  ∧ HA_DISCOVERY st' = HA_DISCOVERY st
  ∧ DEVICE_INSTANCES st' = DEVICE_INSTANCES st
  ∧ extends st st'
  ∧ Forall (λ e, is_publish e = false ∧ is_device_new e = false)
           (since st st')
  ∧ (keyed_by_id st → keyed_by_id st')
  ∧ (∀ t i h, handler_at st t i = Some h → handler_at st' t i = Some h).
Proof. apply subscribeEach_frame. Qed.






(** ** The reconciler *)

Section Reconciler.

Variable DEVICE_CLASSES : gmap string (DeviceConfig → Device).
Variable JSON_parse : string → option Document.

Lemma disconnectEach_returns instances st :
  Forall (λ device, Device.disconnect device = None) instances →
  disconnectEach instances st
  = (Returns, foldl (λ st device, emit (device_disconnect device) st)
                    st instances).
Proof.
  intros H. revert st. induction H as [|d l Hd _ IH]; intros st; [done|].
  simpl. by rewrite Hd, IH.
Qed.

Lemma disconnectEach_throws before device after reason st :
  Forall (λ device, Device.disconnect device = None) before →
  Device.disconnect device = Some reason →
  disconnectEach (before ++ device :: after) st
  = (Throws reason, foldl (λ st device, emit (device_disconnect device) st)
                          st (before ++ [device])).
Proof.
  intros H Hthrow. revert st. induction H as [|d l Hd _ IH]; intros st; simpl.
  - by rewrite Hthrow.
  - by rewrite Hd, IH.
Qed.

(** Whatever the outcome, the disconnect pass touches no table and calls
    nothing but [disconnect], on a prefix of the instances. *)
Lemma disconnectEach_frame instances st :
  let st' := (disconnectEach instances st).2 in
  SUBSCRIBED_TOPICS st' = SUBSCRIBED_TOPICS st
  ∧ PUBLISH_TOPICS st' = PUBLISH_TOPICS st
  ∧ HA_DISCOVERY st' = HA_DISCOVERY st
  ∧ DEVICE_INSTANCES st' = DEVICE_INSTANCES st
  ∧ ∃ n, trace st' = trace st ++ map device_disconnect (take n instances).
Proof.
  revert st. induction instances as [|d l IH]; intros st; simpl.
  - split_and!; try done. exists 0%nat. by rewrite app_nil_r.
  - destruct (Device.disconnect d).
    + simpl. split_and!; try done. by exists 1%nat.
    + destruct (IH (emit (device_disconnect d) st)) as (->&->&->&->&n&->).
      split_and!; try done. exists (S n). simpl. by rewrite <- app_assoc.
Qed.

Lemma disconnectEach_modelled instances st :
  (disconnectEach instances st).1 ≠ Unmodelled.
Proof.
  revert st. induction instances as [|d l IH]; intros st; simpl; [done|].
  destruct (Device.disconnect d); [done | apply IH].
Qed.

Lemma disconnectEach_outcome instances st :
  (disconnectEach instances st).1 = Returns
  ↔ Forall (λ device, Device.disconnect device = None) instances.
Proof.
  split.
  - revert st. induction instances as [|d l IH]; intros st; simpl; [done|].
    destruct (Device.disconnect d) eqn:Hd; [done|].
    intros H. constructor; [done | by eapply IH].
  - intros H. by rewrite disconnectEach_returns.
Qed.

(** *** One round of the loop *)

Lemma storeInstance_frame device st :
  let st' := (storeInstance device st).2 in
  SUBSCRIBED_TOPICS st' = SUBSCRIBED_TOPICS st
  ∧ PUBLISH_TOPICS st' = PUBLISH_TOPICS st
  ∧ HA_DISCOVERY st' = HA_DISCOVERY st
  ∧ trace st' = trace st
  ∧ (∀ id, id ∈ map fst (DEVICE_INSTANCES st) →
           id ∈ map fst (DEVICE_INSTANCES st')).
Proof.
  unfold storeInstance.
  destruct (names_prototype _); [done|].
  destruct (String.eqb _ _); [done|]. cbn.
  split_and!; try done. intros id. apply Array_set_keeps_key.
Qed.

Lemma storeInstance_returns device st :
  names_prototype (Device.id device) = false →
  Device.id device ≠ "length" →
  storeInstance device st
  = (Returns,
     set_DEVICE_INSTANCES
       (Array_set (Device.id device) device (DEVICE_INSTANCES st)) st).
Proof.
  intros Hp Hl%String.eqb_neq. unfold storeInstance. by rewrite Hp, Hl.
Qed.

(** A class that is neither an own property of [DEVICE_CLASSES] nor a name
    it inherits. *)
Lemma processDevice_unknown data config st :
  DEVICE_CLASSES !! DeviceConfig.class config = None →
  inherited_function (DeviceConfig.class config)
  || names_prototype (DeviceConfig.class config) = false →
  processDevice DEVICE_CLASSES data config st
  = (Returns,
     log "⚠️" ("Unknown device class in config: " +:+ DeviceConfig.class config)
         None st).
Proof. intros H Hi. unfold processDevice. by rewrite H, Hi. Qed.

Lemma processDevice_inherited data config st :
  DEVICE_CLASSES !! DeviceConfig.class config = None →
  inherited_function (DeviceConfig.class config)
  || names_prototype (DeviceConfig.class config) = true →
  processDevice DEVICE_CLASSES data config st = (Throws TypeError, st).
Proof. intros H Hi. unfold processDevice. by rewrite H, Hi. Qed.

Lemma processDevice_known data config deviceClass st :
  DEVICE_CLASSES !! DeviceConfig.class config = Some deviceClass →
  let device := deviceClass config in
  let st1 :=
    emit (device_connect device)
      (emit (device_onMessage device)
         (emit (device_onEntityUpdate device (FleetConfig.support data))
            (emit (device_new config) st))) in
  processDevice DEVICE_CLASSES data config st
  = match failure_reason (Device.connect device) with
    | Some reason =>
        (Returns,
         log "⚡" (connect_message device +:+ " FAIL " +:+ " " +:+ reason)
             (Some (Device.name device)) st1)
    | None =>
        match
          subscribe_entries device (default [] (DeviceConfig.subscribe config))
            (log "⚡" (connect_message device +:+ " SUCCESS ")
                 (Some (Device.name device)) st1)
        with
        | (Returns, st3) => storeInstance device st3
        | (outcome, st3) => (outcome, st3)
        end
    end.
Proof.
  intros H device st1. unfold processDevice. rewrite H.
  fold device. fold st1.
  destruct (Device.connect device); try reflexivity;
    by destruct (DeviceConfig.subscribe config).
Qed.

Lemma processDevice_frame data config st :
  let st' := (processDevice DEVICE_CLASSES data config st).2 in
  PUBLISH_TOPICS st' = PUBLISH_TOPICS st
  ∧ HA_DISCOVERY st' = HA_DISCOVERY st
  ∧ extends st st'
  ∧ Forall (λ e, is_publish e = false) (since st st')
  ∧ (keyed_by_id st → keyed_by_id st').
Proof.
  destruct (DEVICE_CLASSES !! DeviceConfig.class config) as [deviceClass|]
    eqn:Hclass.
  - rewrite (processDevice_known _ _ _ _ Hclass).
    set (device := deviceClass config).
    set (st1 := emit (device_connect device) _).
    assert (Ht1 : trace st1 = trace st ++ connect_calls data config device).
    { unfold st1. simpl. by rewrite <- !app_assoc. }
    destruct (failure_reason (Device.connect device)) as [reason|].
    + simpl. split_and!; try done.
      * eexists. rewrite trace_log, Ht1, <- app_assoc. reflexivity.
      * erewrite since_app;
          [| by rewrite trace_log, Ht1, <- app_assoc].
        by repeat constructor.
    + set (st2 := log _ _ _ st1).
      destruct (subscribe_entries_frame device
                  (default [] (DeviceConfig.subscribe config)) st2)
        as (Hp & Hh & Hd & Hext & Hq & Hk & _).
      assert (Ht2 : trace st2 = trace st ++ connect_calls data config device
                     ++ log_effects "⚡" (connect_message device +:+ " SUCCESS ")
                                    (Some (Device.name device))).
      { unfold st2. by rewrite trace_log, Ht1, <- app_assoc. }
      assert (Hext2 : extends st st2) by by eexists.
      assert (Hq2 : Forall (λ e, is_publish e = false) (since st st2)).
      { rewrite (since_app _ _ _ Ht2). by repeat constructor. }
      assert (Hk2 : keyed_by_id st → keyed_by_id st2) by done.
      destruct (subscribe_entries device _ st2) as [outcome st3].
      cbn [snd] in *.
      assert (H3 : PUBLISH_TOPICS st3 = PUBLISH_TOPICS st
                   ∧ HA_DISCOVERY st3 = HA_DISCOVERY st
                   ∧ extends st st3
                   ∧ Forall (λ e, is_publish e = false) (since st st3)
                   ∧ (keyed_by_id st → keyed_by_id st3)).
      { split_and!.
        - by rewrite Hp.
        - by rewrite Hh.
        - by eapply extends_trans.
        - rewrite (since_trans st st2 st3) by done.
          apply Forall_app. split; [done|].
          eapply Forall_impl; [exact Hq|]. by intros ? [? ?].
        - intros ?. by apply Hk, Hk2. }
      destruct outcome; try done.
      destruct (storeInstance_frame device st3) as (Hs4 & Hp4 & Hh4 & Ht4 & _).
      destruct H3 as (Hp3 & Hh3 & [l Hl] & Hq3 & Hk3).
      assert (Hext4 : extends st (storeInstance device st3).2).
      { exists l. by rewrite Ht4. }
      split_and!; try congruence.
      * rewrite (since_app _ _ l) by (by rewrite Ht4).
        by rewrite (since_app _ _ l Hl) in Hq3.
      * intros Hkeyed. unfold keyed_by_id. rewrite Hs4. by apply Hk3.
  - destruct (inherited_function (DeviceConfig.class config)
              || names_prototype (DeviceConfig.class config)) eqn:Hi.
    + rewrite (processDevice_inherited _ _ _ Hclass Hi). cbn.
      split_and!; try done; [apply extends_refl|].
      rewrite since_refl. constructor.
    + rewrite (processDevice_unknown _ _ _ Hclass Hi). simpl.
      split_and!; try done.
      * apply extends_log.
      * rewrite (since_app _ _ _ (trace_log _ _ _ _)). by repeat constructor.
Qed.

(** *** The loop *)

Lemma processDevices_cons data config configs st :
  processDevices DEVICE_CLASSES data (config :: configs) st
  = match processDevice DEVICE_CLASSES data config st with
    | (Returns, st1) => processDevices DEVICE_CLASSES data configs st1
    | (outcome, st1) => (outcome, st1)
    end.
Proof. reflexivity. Qed.

Lemma processDevices_invariant (P : State → Prop) data :
  (∀ st config, P st → P (processDevice DEVICE_CLASSES data config st).2) →
  ∀ configs st, P st → P (processDevices DEVICE_CLASSES data configs st).2.
Proof.
  intros HP configs. induction configs as [|c l IH]; intros st H; [done|].
  rewrite processDevices_cons. specialize (HP st c H).
  destruct (processDevice DEVICE_CLASSES data c st) as [[|reason|] st1];
    cbn [snd] in *; try done.
  by apply IH.
Qed.

Lemma processDevices_preserves {B} (proj : State → B) data :
  (∀ st config,
     proj (processDevice DEVICE_CLASSES data config st).2 = proj st) →
  ∀ configs st,
    proj (processDevices DEVICE_CLASSES data configs st).2 = proj st.
Proof.
  intros HP configs. induction configs as [|c l IH]; intros st; [done|].
  rewrite processDevices_cons. specialize (HP st c).
  destruct (processDevice DEVICE_CLASSES data c st) as [[|reason|] st1];
    cbn [snd] in *; try done.
  by rewrite IH.
Qed.

Lemma processDevices_extends data configs st :
  extends st (processDevices DEVICE_CLASSES data configs st).2.
Proof.
  revert st. induction configs as [|c l IH]; intros st; [apply extends_refl|].
  rewrite processDevices_cons.
  destruct (processDevice_frame data c st) as (_ & _ & Hext & _).
  destruct (processDevice DEVICE_CLASSES data c st) as [[|reason|] st1];
    cbn [snd] in *; try done.
  eapply extends_trans; [exact Hext | apply IH].
Qed.

Lemma processDevices_since_Forall (P : Effect → Prop) data :
  (∀ st config,
     Forall P (since st (processDevice DEVICE_CLASSES data config st).2)) →
  ∀ configs st,
    Forall P (since st (processDevices DEVICE_CLASSES data configs st).2).
Proof.
  intros HP configs. induction configs as [|c l IH]; intros st.
  - cbn. rewrite since_refl. constructor.
  - rewrite processDevices_cons. specialize (HP st c).
    destruct (processDevice_frame data c st) as (_ & _ & Hext & _).
    destruct (processDevice DEVICE_CLASSES data c st) as [[|reason|] st1];
      cbn [snd] in *; try done.
    rewrite (since_trans st st1); [| done | apply processDevices_extends].
    apply Forall_app. split; [done | apply IH].
Qed.


Lemma processDevices_frame data configs st :
  let st' := (processDevices DEVICE_CLASSES data configs st).2 in
  PUBLISH_TOPICS st' = PUBLISH_TOPICS st
  ∧ HA_DISCOVERY st' = HA_DISCOVERY st
  ∧ extends st st'
  ∧ Forall (λ e, is_publish e = false) (since st st')
  ∧ (keyed_by_id st → keyed_by_id st').
Proof.
  cbv zeta. split_and!.
  - apply (processDevices_preserves PUBLISH_TOPICS). intros.
    apply processDevice_frame.
  - apply (processDevices_preserves HA_DISCOVERY). intros.
    apply processDevice_frame.
  - apply processDevices_extends.
  - apply processDevices_since_Forall. intros. apply processDevice_frame.
  - apply (processDevices_invariant keyed_by_id). intros ??.
    apply processDevice_frame.
Qed.

(** *** [processConfig] *)

(** When every [disconnect] returns, [processConfig] runs the loop from a
    state whose subscription table and dedup set are empty. *)
Lemma processConfig_completes data st :
  Forall (λ device, Device.disconnect device = None)
         (map snd (DEVICE_INSTANCES st)) →
  ∃ st0,
    processConfig DEVICE_CLASSES data st
    = processDevices DEVICE_CLASSES data (FleetConfig.devices data) st0
    ∧ SUBSCRIBED_TOPICS st0 = ∅
    ∧ PUBLISH_TOPICS st0 = []
    ∧ HA_DISCOVERY st0 = HA_DISCOVERY st
    ∧ DEVICE_INSTANCES st0 = DEVICE_INSTANCES st
    ∧ trace st0
      = trace st ++ teardown_calls data st
        ++ [client_unsubscribe (map fst (map_to_list (SUBSCRIBED_TOPICS st)))].
Proof.
  intros Hok. unfold processConfig.
  set (st1 := if includes (FleetConfig.support data) "homeassistant"
              then _ else st).
  assert (H1 : SUBSCRIBED_TOPICS st1 = SUBSCRIBED_TOPICS st
               ∧ PUBLISH_TOPICS st1 = PUBLISH_TOPICS st
               ∧ HA_DISCOVERY st1 = HA_DISCOVERY st
               ∧ DEVICE_INSTANCES st1 = DEVICE_INSTANCES st
               ∧ trace st1
                 = trace st
                   ++ if includes (FleetConfig.support data) "homeassistant"
                      then [client_subscribe (HA_BASE_TOPIC +:+ "/status")]
                      else []).
  { unfold st1. destruct (includes _ _); simpl; [done|].
    by rewrite app_nil_r. }
  destruct H1 as (Hs1 & Hp1 & Hh1 & Hd1 & Ht1).
  rewrite Hd1, (disconnectEach_returns _ _ Hok).
  set (f := device_disconnect).
  assert (Hg : ∀ (s : State) (d : Device),
             emit (device_disconnect d) s = emit (f d) s) by done.
  destruct (foldl_emit_fields _ f Hg (map snd (DEVICE_INSTANCES st)) st1)
    as (Hs2 & Hp2 & Hh2 & Hd2).
  pose proof (foldl_emit_trace _ f Hg (map snd (DEVICE_INSTANCES st)) st1)
    as Ht2.
  set (st2 := foldl _ st1 _) in *. clearbody st2.
  eexists. split; [reflexivity|]. simpl.
  rewrite Hs2, Hs1, Hh2, Hh1, Hd2, Hd1, Ht2, Ht1.
  split_and!; try done.
  unfold teardown_calls. by rewrite <- !app_assoc.
Qed.

(** A [disconnect] that throws ends [processConfig] there. *)
Lemma processConfig_aborts data st before device after reason :
  map snd (DEVICE_INSTANCES st) = before ++ device :: after →
  Forall (λ device, Device.disconnect device = None) before →
  Device.disconnect device = Some reason →
  ∃ st',
    processConfig DEVICE_CLASSES data st = (Throws reason, st')
    ∧ SUBSCRIBED_TOPICS st' = SUBSCRIBED_TOPICS st
    ∧ PUBLISH_TOPICS st' = PUBLISH_TOPICS st
    ∧ HA_DISCOVERY st' = HA_DISCOVERY st
    ∧ DEVICE_INSTANCES st' = DEVICE_INSTANCES st
    ∧ trace st'
      = trace st
        ++ (if includes (FleetConfig.support data) "homeassistant"
            then [client_subscribe (HA_BASE_TOPIC +:+ "/status")] else [])
        ++ map device_disconnect before ++ [device_disconnect device].
Proof.
  intros Hsplit Hok Hthrow. unfold processConfig.
  set (st1 := if includes (FleetConfig.support data) "homeassistant"
              then _ else st).
  assert (H1 : SUBSCRIBED_TOPICS st1 = SUBSCRIBED_TOPICS st
               ∧ PUBLISH_TOPICS st1 = PUBLISH_TOPICS st
               ∧ HA_DISCOVERY st1 = HA_DISCOVERY st
               ∧ DEVICE_INSTANCES st1 = DEVICE_INSTANCES st
               ∧ trace st1
                 = trace st
                   ++ if includes (FleetConfig.support data) "homeassistant"
                      then [client_subscribe (HA_BASE_TOPIC +:+ "/status")]
                      else []).
  { unfold st1. destruct (includes _ _); simpl; [done|].
    by rewrite app_nil_r. }
  destruct H1 as (Hs1 & Hp1 & Hh1 & Hd1 & Ht1).
  rewrite Hd1, Hsplit, (disconnectEach_throws _ _ _ _ _ Hok Hthrow).
  set (f := device_disconnect).
  assert (Hg : ∀ (s : State) (d : Device),
             emit (device_disconnect d) s = emit (f d) s) by done.
  destruct (foldl_emit_fields _ f Hg (before ++ [device]) st1)
    as (Hs2 & Hp2 & Hh2 & Hd2).
  pose proof (foldl_emit_trace _ f Hg (before ++ [device]) st1) as Ht2.
  set (st2 := foldl _ st1 _) in *. clearbody st2.
  eexists. split; [reflexivity|].
  rewrite Hs2, Hs1, Hp2, Hp1, Hh2, Hh1, Hd2, Hd1, Ht2, Ht1.
  split_and!; try done.
  by rewrite map_app, <- !app_assoc.
Qed.

(** When some [disconnect] throws, [processConfig] writes no table and
    calls nothing but the hub subscription and [disconnect]. *)
Lemma processConfig_incomplete data st :
  ¬ Forall (λ device, Device.disconnect device = None)
           (map snd (DEVICE_INSTANCES st)) →
  let st' := (processConfig DEVICE_CLASSES data st).2 in
  SUBSCRIBED_TOPICS st' = SUBSCRIBED_TOPICS st
  ∧ PUBLISH_TOPICS st' = PUBLISH_TOPICS st
  ∧ HA_DISCOVERY st' = HA_DISCOVERY st
  ∧ DEVICE_INSTANCES st' = DEVICE_INSTANCES st
  ∧ extends st st'
  ∧ Forall (λ e, is_publish e = false ∧ is_device_new e = false)
           (since st st').
Proof.
  intros Hno. unfold processConfig.
  set (st1 := if includes (FleetConfig.support data) "homeassistant"
              then _ else st).
  assert (H1 : SUBSCRIBED_TOPICS st1 = SUBSCRIBED_TOPICS st
               ∧ PUBLISH_TOPICS st1 = PUBLISH_TOPICS st
               ∧ HA_DISCOVERY st1 = HA_DISCOVERY st
               ∧ DEVICE_INSTANCES st1 = DEVICE_INSTANCES st
               ∧ extends st st1
               ∧ Forall (λ e, is_publish e = false ∧ is_device_new e = false)
                        (since st st1)).
  { unfold st1. destruct (includes _ _); simpl.
    - split_and!; try done; [apply extends_emit|].
      erewrite since_app by done. by repeat constructor.
    - split_and!; try done; [apply extends_refl|].
      rewrite since_refl. constructor. }
  destruct H1 as (Hs1 & Hp1 & Hh1 & Hd1 & Hext1 & Hq1).
  pose proof (disconnectEach_outcome (map snd (DEVICE_INSTANCES st1)) st1)
    as Hout.
  pose proof (disconnectEach_frame (map snd (DEVICE_INSTANCES st1)) st1)
    as (Hs2 & Hp2 & Hh2 & Hd2 & n & Ht2).
  pose proof (disconnectEach_modelled (map snd (DEVICE_INSTANCES st1)) st1)
    as Hmod.
  destruct (disconnectEach (map snd (DEVICE_INSTANCES st1)) st1)
    as [[|reason|] st2]; [| |done].
  { destruct Hno. rewrite <- Hd1. by apply Hout. }
  simpl in *.
  assert (Hext2 : extends st1 st2) by by eexists.
  split_and!.
  - by rewrite Hs2.
  - by rewrite Hp2.
  - by rewrite Hh2.
  - by rewrite Hd2.
  - by eapply extends_trans.
  - rewrite (since_trans st st1) by done. apply Forall_app. split; [done|].
    rewrite (since_app _ _ _ Ht2). by apply Forall_fmap, Forall_forall.
Qed.

(** Whatever its outcome, [processConfig] leaves the discovery cache alone,
    publishes nothing and keeps the table keyed by device id. *)
Lemma processConfig_frame data st :
  let st' := (processConfig DEVICE_CLASSES data st).2 in
  HA_DISCOVERY st' = HA_DISCOVERY st
  ∧ extends st st'
  ∧ Forall (λ e, is_publish e = false) (since st st')
  ∧ (keyed_by_id st → keyed_by_id st').
Proof.
  destruct (decide (Forall (λ device, Device.disconnect device = None)
                           (map snd (DEVICE_INSTANCES st)))) as [Hok|Hno].
  - destruct (processConfig_completes data st Hok)
      as (st0 & -> & Hs0 & Hp0 & Hh0 & Hd0 & Ht0).
    destruct (processDevices_frame data (FleetConfig.devices data) st0)
      as (_ & Hh & Hext & Hq & Hk).
    assert (Hext0 : extends st st0) by by eexists.
    simpl. split_and!.
    + by rewrite Hh.
    + by eapply extends_trans.
    + rewrite (since_trans st st0) by done. apply Forall_app. split; [|done].
      rewrite (since_app _ _ _ Ht0). apply Forall_app. split.
      * unfold teardown_calls. apply Forall_app. split.
        -- destruct (includes _ _); by repeat constructor.
        -- by apply Forall_fmap, Forall_forall.
      * by repeat constructor.
    + intros _. apply Hk. intros t hs i h. rewrite Hs0.
      by rewrite lookup_empty.
  - destruct (processConfig_incomplete data st Hno)
      as (Hs & _ & Hh & _ & Hext & Hq).
    split_and!; try done.
    + eapply Forall_impl; [exact Hq|]. by intros ? [? ?].
    + unfold keyed_by_id. by rewrite Hs.
Qed.

(** *** The listener *)

Lemma processDocument_frame document st :
  let st' := (processDocument DEVICE_CLASSES document st).2 in
  HA_DISCOVERY st' = HA_DISCOVERY st
  ∧ extends st st'
  ∧ Forall (λ e, is_publish e = false) (since st st')
  ∧ (keyed_by_id st → keyed_by_id st').
Proof.
  destruct document as [data| |data]; cbn [processDocument].
  - apply processConfig_frame.
  - cbn. split_and!; try done; [apply extends_refl|].
    rewrite since_refl. constructor.
  - pose proof (processConfig_frame data st) as H.
    by destruct (processConfig DEVICE_CLASSES data st) as [[|reason|] st2].
Qed.

Lemma onMessage_config topic message st :
  config_topic topic = true →
  onMessage DEVICE_CLASSES JSON_parse topic message st
  = let st1 := log "✨" "New config discovered. Processing..." None st in
    match JSON_parse message with
    | None => (Throws SyntaxError, st1)
    | Some document =>
        match processDocument DEVICE_CLASSES document st1 with
        | (Returns, st2) => (Returns, st2)
        | (Throws reason, st2) => (Returns, unhandledRejection reason st2)
        | (Unmodelled, st2) => (Unmodelled, st2)
        end
    end.
Proof.
  unfold config_topic, onMessage. intros [H0 H1]%andb_true_iff.
  by rewrite H0, H1.
Qed.

(** A topic under [connector] other than the configuration topic goes to
    the subscription table. *)
Lemma onMessage_table topic message st :
  split_slash topic !! 0%nat = Some BASE_TOPIC →
  config_topic topic = false →
  onMessage DEVICE_CLASSES JSON_parse topic message st
  = (Returns, dispatch topic (split_slash topic) message st).
Proof.
  unfold config_topic, onMessage. intros H0 Hc.
  rewrite (bool_decide_eq_true_2 _ H0) in *. simpl in Hc. by rewrite Hc.
Qed.

Lemma onMessage_hub_online st :
  onMessage DEVICE_CLASSES JSON_parse "homeassistant/status" "online" st
  = (Returns, set_HA_DISCOVERY [] st).
Proof. reflexivity. Qed.

Lemma config_topic_not_hub topic message :
  config_topic topic = true → hub_online topic message = false.
Proof.
  unfold hub_online. intros H.
  destruct (String.eqb topic "homeassistant/status") eqn:Ht; [|done].
  apply String.eqb_eq in Ht as ->. done.
Qed.

(** A message outside the configuration namespace: the listener returns,
    calls nothing but [handle], and writes at most the discovery cache. *)
Lemma onMessage_not_config topic message st :
  config_topic topic = false →
  let st' := (onMessage DEVICE_CLASSES JSON_parse topic message st).2 in
  (onMessage DEVICE_CLASSES JSON_parse topic message st).1 = Returns
  ∧ SUBSCRIBED_TOPICS st' = SUBSCRIBED_TOPICS st
  ∧ PUBLISH_TOPICS st' = PUBLISH_TOPICS st
  ∧ DEVICE_INSTANCES st' = DEVICE_INSTANCES st
  ∧ HA_DISCOVERY st'
    = (if hub_online topic message then [] else HA_DISCOVERY st)
  ∧ extends st st'
  ∧ Forall (λ e, is_publish e = false ∧ is_device_new e = false)
           (since st st').
Proof.
  unfold config_topic, onMessage. intros Hc.
  destruct (bool_decide (split_slash topic !! 0%nat = Some BASE_TOPIC))
    eqn:H0.
  - simpl in Hc. rewrite Hc. simpl.
    destruct (dispatch_fields topic (split_slash topic) message st)
      as (->&->&->&->).
    assert (hub_online topic message = false) as ->.
    { unfold hub_online.
      destruct (String.eqb topic "homeassistant/status") eqn:Ht; [|done].
      apply String.eqb_eq in Ht as ->. done. }
    split_and!; try done.
    + eexists. apply dispatch_trace.
    + apply dispatch_quiet.
  - pose proof (hub_status_topic topic) as Hhub.
    unfold hub_online. rewrite <- Hhub.
    destruct (bool_decide (split_slash topic !! 0%nat = Some HA_BASE_TOPIC));
      simpl.
    + destruct (bool_decide (split_slash topic !! 1%nat = Some "status")
                && bool_decide (length (split_slash topic) = 2%nat)
                && String.eqb message "online"); simpl.
      * destruct (same_trace st (set_HA_DISCOVERY [] st) eq_refl) as [? ->].
        split_and!; try done.
      * destruct (same_trace st st eq_refl) as [? ->].
        split_and!; try done.
    + destruct (same_trace st st eq_refl) as [? ->].
      split_and!; try done.
Qed.

Lemma unhandledRejection_frame reason st :
  let st' := unhandledRejection reason st in
  SUBSCRIBED_TOPICS st' = SUBSCRIBED_TOPICS st
  ∧ PUBLISH_TOPICS st' = PUBLISH_TOPICS st
  ∧ HA_DISCOVERY st' = HA_DISCOVERY st
  ∧ DEVICE_INSTANCES st' = DEVICE_INSTANCES st
  ∧ extends st st'
  ∧ Forall (λ e, is_publish e = false) (since st st').
Proof.
  unfold unhandledRejection. simpl. split_and!; try done.
  - apply extends_log.
  - rewrite (since_app _ _ _ (trace_log _ _ _ _)). by repeat constructor.
Qed.

(** Whatever the message, the listener publishes nothing, keeps the table
    keyed by device id, and empties the discovery cache for the hub's
    announcement only. *)
Lemma onMessage_frame topic message st :
  let st' := (onMessage DEVICE_CLASSES JSON_parse topic message st).2 in
  HA_DISCOVERY st'
  = (if hub_online topic message then [] else HA_DISCOVERY st)
  ∧ extends st st'
  ∧ Forall (λ e, is_publish e = false) (since st st')
  ∧ (keyed_by_id st → keyed_by_id st').
Proof.
  destruct (config_topic topic) eqn:Hc.
  - rewrite (onMessage_config _ _ _ Hc),
            (config_topic_not_hub _ message Hc).
    set (st1 := log _ _ _ st).
    assert (Hext1 : extends st st1) by apply extends_log.
    assert (Hq1 : Forall (λ e, is_publish e = false) (since st st1)).
    { unfold st1. rewrite (since_app _ _ _ (trace_log _ _ _ _)).
      by repeat constructor. }
    cbv zeta.
    destruct (JSON_parse message) as [document|]; [|by simpl].
    destruct (processDocument_frame document st1) as (Hh & Hext & Hq & Hk).
    destruct (processDocument DEVICE_CLASSES document st1)
      as [[|reason|] st2]; simpl in *.
    + split_and!; try done.
      * by eapply extends_trans.
      * rewrite (since_trans st st1) by done. by apply Forall_app.
    + destruct (unhandledRejection_frame reason st2)
        as (Hs3 & _ & Hh3 & _ & Hext3 & Hq3).
      split_and!.
      * unfold unhandledRejection in *. by simpl in *.
      * eapply extends_trans; [|exact Hext3]. by eapply extends_trans.
      * rewrite (since_trans st st2);
          [| by eapply extends_trans | done].
        apply Forall_app. split; [|done].
        rewrite (since_trans st st1) by done. by apply Forall_app.
      * intros H. unfold keyed_by_id. rewrite Hs3. by apply Hk.
    + split_and!; try done.
      * by eapply extends_trans.
      * rewrite (since_trans st st1) by done. by apply Forall_app.
  - destruct (onMessage_not_config topic message st Hc)
      as (_ & Hs & _ & _ & Hh & Hext & Hq).
    split_and!; try done.
    + eapply Forall_impl; [exact Hq|]. by intros ? [? ?].
    + unfold keyed_by_id. by rewrite Hs.
Qed.

(** *** Runs *)

Lemma step_frame s st :
  extends st (step DEVICE_CLASSES JSON_parse s st).2
  ∧ (keyed_by_id st → keyed_by_id (step DEVICE_CLASSES JSON_parse s st).2).
Proof.
  destruct s as [device entity support | topic message]; simpl.
  - destruct (processEntity_spec device entity support st)
      as (_ & _ & _ & Hext1 & Hext2 & _ & Hk).
    split; [by eapply extends_trans | done].
  - destruct (onMessage_frame topic message st) as (_ & Hext & _ & Hk).
    by split.
Qed.

Lemma run_cons s steps st :
  run DEVICE_CLASSES JSON_parse (s :: steps) st
  = run DEVICE_CLASSES JSON_parse
        (match (step DEVICE_CLASSES JSON_parse s st).1 with
         | Unmodelled => []
         | _ => steps
         end)
        (step DEVICE_CLASSES JSON_parse s st).2.
Proof.
  cbn [run].
  by destruct (step DEVICE_CLASSES JSON_parse s st) as [[|reason|] st1].
Qed.

Lemma run_invariant (P : State → Prop) :
  (∀ s st, P st → P (step DEVICE_CLASSES JSON_parse s st).2) →
  ∀ steps st, P st → P (run DEVICE_CLASSES JSON_parse steps st).
Proof.
  intros HP steps. induction steps as [|s steps IH]; intros st H; [done|].
  rewrite run_cons. specialize (HP s st H).
  destruct (step DEVICE_CLASSES JSON_parse s st).1;
    [by apply IH | by apply IH | done].
Qed.

Lemma run_extends steps st :
  extends st (run DEVICE_CLASSES JSON_parse steps st).
Proof.
  revert st. induction steps as [|s steps IH]; intros st;
    [apply extends_refl|].
  rewrite run_cons.
  destruct (step_frame s st) as [Hext _].
  destruct (step DEVICE_CLASSES JSON_parse s st).1; try done;
    eapply extends_trans; try exact Hext; apply IH.
Qed.

(** What holds of the calls of every step of a part of the run holds of
    the calls of the run. *)
Lemma run_since_Forall (P : Effect → Prop) (Q : Step → Prop) :
  (∀ s st, Q s → Forall P (since st (step DEVICE_CLASSES JSON_parse s st).2)) →
  ∀ steps st,
    Forall Q steps →
    Forall P (since st (run DEVICE_CLASSES JSON_parse steps st)).
Proof.
  intros HP steps. induction steps as [|s steps IH]; intros st Hsteps.
  - cbn. rewrite since_refl. constructor.
  - apply Forall_cons in Hsteps as [Hs Hsteps].
    rewrite run_cons. specialize (HP s st Hs).
    destruct (step_frame s st) as [Hext _].
    destruct (step DEVICE_CLASSES JSON_parse s st).1; try done;
      (rewrite (since_trans st (step DEVICE_CLASSES JSON_parse s st).2);
         [| done | apply run_extends]);
      apply Forall_app; (split; [done | by apply IH]).
Qed.

Lemma run_frame steps st :
  extends st (run DEVICE_CLASSES JSON_parse steps st)
  ∧ (keyed_by_id st → keyed_by_id (run DEVICE_CLASSES JSON_parse steps st)).
Proof.
  split; [apply run_extends|].
  apply (run_invariant keyed_by_id). intros ??. apply step_frame.
Qed.

(** The table stays keyed by device id in every state the module reaches. *)
Lemma keyed_by_id_initial : keyed_by_id initial.
Proof.
  intros topic handlers id handler H. simpl in H.
  by rewrite lookup_empty in H.
Qed.

Lemma keyed_by_id_reachable steps :
  keyed_by_id (run DEVICE_CLASSES JSON_parse steps initial).
Proof. apply run_frame, keyed_by_id_initial. Qed.

Lemma step_descriptor_budget device entity s st :
  reconciles s = false →
  let topic := getEntityTopic device entity in
  let st' := (step DEVICE_CLASSES JSON_parse s st).2 in
  (length (descriptor_publications topic (since st st'))
   + (if includes (PUBLISH_TOPICS st') topic then 0 else 1)
   ≤ if includes (PUBLISH_TOPICS st) topic then 0 else 1)%nat.
Proof.
  destruct s as [device' entity' support | topic' message]; simpl; intros Hs.
  - apply processEntity_descriptor_budget.
  - destruct (onMessage_not_config topic' message st Hs)
      as (_ & _ & -> & _ & _ & _ & Hq).
    by rewrite (descriptor_publications_quiet' _ _ Hq).
Qed.

Lemma run_descriptor_budget device entity steps st :
  Forall (λ s, reconciles s = false) steps →
  let topic := getEntityTopic device entity in
  let st' := run DEVICE_CLASSES JSON_parse steps st in
  (length (descriptor_publications topic (since st st'))
   + (if includes (PUBLISH_TOPICS st') topic then 0 else 1)
   ≤ if includes (PUBLISH_TOPICS st) topic then 0 else 1)%nat.
Proof.
  intros H. revert st. induction H as [|s steps Hs _ IH]; intros st.
  - cbn. rewrite since_refl. simpl. lia.
  - cbv zeta. rewrite run_cons.
    set (st1 := (step DEVICE_CLASSES JSON_parse s st).2).
    pose proof (step_descriptor_budget device entity s st Hs) as H1.
    cbv zeta in H1. fold st1 in H1.
    assert (Hext1 : extends st st1) by apply step_frame.
    destruct (step DEVICE_CLASSES JSON_parse s st).1; try exact H1.
    + pose proof (IH st1) as H2. cbv zeta in H2.
      rewrite (since_trans st st1); [| done | apply run_extends].
      rewrite descriptor_publications_app, length_app. lia.
    + pose proof (IH st1) as H2. cbv zeta in H2.
      rewrite (since_trans st st1); [| done | apply run_extends].
      rewrite descriptor_publications_app, length_app. lia.
Qed.

Lemma step_keeps_announced topic s st :
  signals_hub_online s = false →
  topic ∈ HA_DISCOVERY st →
  topic ∈ HA_DISCOVERY (step DEVICE_CLASSES JSON_parse s st).2.
Proof.
  destruct s as [device entity support | topic' message]; simpl;
    intros Hs Hin.
  - destruct (processEntity_spec device entity support st)
      as (_ & -> & _).
    destruct (publish_spec device entity support st) as (_ & _ & _ & -> & _).
    destruct (announces device entity support st); [|done].
    apply elem_of_app. by left.
  - destruct (onMessage_frame topic' message st) as (-> & _).
    by rewrite Hs.
Qed.

Lemma run_keeps_announced topic steps st :
  Forall (λ s, signals_hub_online s = false) steps →
  topic ∈ HA_DISCOVERY st →
  topic ∈ HA_DISCOVERY (run DEVICE_CLASSES JSON_parse steps st).
Proof.
  intros H. revert st. induction H as [|s steps Hs _ IH]; intros st Hin;
    [done|].
  rewrite run_cons.
  pose proof (step_keeps_announced topic s st Hs Hin) as H1.
  destruct (step DEVICE_CLASSES JSON_parse s st).1; try done; by apply IH.
Qed.

(** A [publish] of an entity whose topic is in the discovery cache sends
    nothing into the hub's namespace. *)
Lemma publish_cached_not_announced device entity support st :
  getEntityTopic device entity ∈ HA_DISCOVERY st →
  Forall (λ e, is_discovery_publication e = false)
         (since st (publish device entity support st)).
Proof.
  intros Hin.
  destruct (publish_spec device entity support st)
    as (_ & _ & _ & _ & message & config & Htr).
  rewrite (since_app _ _ _ Htr).
  assert (announces device entity support st = false) as Hann.
  { unfold announces, includes at 2. rewrite bool_decide_eq_true_2 by done.
    apply andb_false_r. }
  unfold discovery_part. rewrite Hann, app_nil_r.
  apply Forall_app. split.
  - unfold descriptor_part. destruct (includes _ _); [constructor|].
    repeat constructor; simpl; try apply canonical_not_hub.
  - unfold states_part. apply Forall_fmap, Forall_forall.
    intros [key state] _.
    exact (canonical_not_in_hub_namespace device entity ("/" +:+ key)).
Qed.

(** *** The claims about reconciliation, publication and the listener *)







(** When some [disconnect] throws, [processConfig] rejects with what was
    thrown and has neither unsubscribed nor instantiated. *)
Lemma processConfig_incomplete_throws data st :
  ¬ Forall (λ device, Device.disconnect device = None)
           (map snd (DEVICE_INSTANCES st)) →
  (∃ reason, (processConfig DEVICE_CLASSES data st).1 = Throws reason)
  ∧ Forall (λ e, is_device_new e = false ∧ is_unsubscribe e = false)
           (since st (processConfig DEVICE_CLASSES data st).2).
Proof.
  intros Hno. unfold processConfig.
  set (st1 := if includes (FleetConfig.support data) "homeassistant"
              then _ else st).
  assert (H1 : DEVICE_INSTANCES st1 = DEVICE_INSTANCES st
               ∧ extends st st1
               ∧ Forall (λ e, is_device_new e = false
                              ∧ is_unsubscribe e = false) (since st st1)).
  { unfold st1. destruct (includes _ _); simpl.
    - split_and!; try done; [apply extends_emit|].
      erewrite since_app by done. by repeat constructor.
    - split_and!; try done; [apply extends_refl|].
      rewrite since_refl. constructor. }
  destruct H1 as (Hd1 & Hext1 & Hq1).
  pose proof (disconnectEach_outcome (map snd (DEVICE_INSTANCES st1)) st1)
    as Hout.
  pose proof (disconnectEach_modelled (map snd (DEVICE_INSTANCES st1)) st1)
    as Hmod.
  pose proof (disconnectEach_frame (map snd (DEVICE_INSTANCES st1)) st1)
    as (_ & _ & _ & _ & n & Ht2).
  destruct (disconnectEach (map snd (DEVICE_INSTANCES st1)) st1)
    as [[|reason|] st2]; [| |done].
  { destruct Hno. rewrite <- Hd1. by apply Hout. }
  cbn [fst snd] in *. split; [by eexists|].
  assert (Hext2 : extends st1 st2) by by eexists.
  rewrite (since_trans st st1) by done. apply Forall_app. split; [done|].
  rewrite (since_app _ _ _ Ht2). by apply Forall_fmap, Forall_forall.
Qed.

(** C2 (as amended): in every [processConfig] run, a device is instantiated
    only after the disconnect pass has returned and the broker has been told
    to unsubscribe from the topics of the subscription table, which are
    exactly its keys.  When the disconnect pass returns, the table and the
    dedup set are then empty, the loop over the devices starts from that
    state, and with no devices it is the final state, reached without
    instantiating a device.  When a [disconnect] throws, [processConfig]
    rejects; the table and the dedup set are as before, nothing was
    unsubscribed and no device was instantiated. *)
Theorem processConfig_resets_before_devices (data : FleetConfig) (st : State) :
  let result := processConfig DEVICE_CLASSES data st in
  let topics := map fst (map_to_list (SUBSCRIBED_TOPICS st)) in
  let returning :=
    Forall (λ device, Device.disconnect device = None)
           (map snd (DEVICE_INSTANCES st)) in
  (∀ calls e later,
     since st result.2 = calls ++ e :: later →
     is_device_new e = true →
     client_unsubscribe topics ∈ calls ∧ returning)
  ∧ (∀ topic, topic ∈ topics ↔ is_Some (SUBSCRIBED_TOPICS st !! topic))
  ∧ (returning →
     ∃ st0,
       result
       = processDevices DEVICE_CLASSES data (FleetConfig.devices data) st0
       ∧ since st st0 = teardown_calls data st ++ [client_unsubscribe topics]
       ∧ Forall (λ e, is_device_new e = false) (since st st0)
       ∧ SUBSCRIBED_TOPICS st0 = ∅
       ∧ PUBLISH_TOPICS st0 = []
       ∧ extends st0 result.2
       ∧ (FleetConfig.devices data = [] → result = (Returns, st0)))
  ∧ (¬ returning →
     (∃ reason, result.1 = Throws reason)
     ∧ SUBSCRIBED_TOPICS result.2 = SUBSCRIBED_TOPICS st
     ∧ PUBLISH_TOPICS result.2 = PUBLISH_TOPICS st
     ∧ Forall (λ e, is_device_new e = false ∧ is_unsubscribe e = false)
              (since st result.2)).
Proof.
  intros result topics returning.
  assert (Hquiet : Forall (λ e, is_device_new e = false)
                          (teardown_calls data st
                           ++ [client_unsubscribe topics])).
  { unfold teardown_calls. rewrite !Forall_app. split_and!.
    - destruct (includes _ _); by repeat constructor.
    - by apply Forall_fmap, Forall_forall.
    - by repeat constructor. }
  split_and!.
  - intros calls e later Hsince He.
    destruct (decide (Forall (λ device, Device.disconnect device = None)
                             (map snd (DEVICE_INSTANCES st)))) as [Hok|Hno].
    + destruct (processConfig_completes data st Hok)
        as (st0 & Hrun & _ & _ & _ & _ & Ht0).
      assert (Hext0 : extends st st0) by by eexists.
      assert (Hext : extends st0 result.2).
      { unfold result. rewrite Hrun. apply processDevices_frame. }
      rewrite (since_trans st st0) in Hsince by done.
      rewrite (since_app _ _ _ Ht0) in Hsince.
      split; [|done].
      eapply (called_before (λ e, is_device_new e = true));
        [exact Hsince | | exact He |].
      * eapply Forall_impl; [exact Hquiet|]. intros ? ->. done.
      * apply elem_of_app. right. apply list_elem_of_here.
    + destruct (processConfig_incomplete data st Hno)
        as (_ & _ & _ & _ & _ & Hq).
      fold result in Hq. rewrite Hsince in Hq.
      apply Forall_app in Hq as [_ Hq].
      apply Forall_cons in Hq as [[_ Hq] _]. congruence.
  - intros topic. unfold topics. rewrite list_elem_of_fmap. split.
    + intros ([t hs] & -> & Hin). apply elem_of_map_to_list in Hin. eauto.
    + intros [hs Hhs]. exists (topic, hs). split; [done|].
      by apply elem_of_map_to_list.
  - intros Hok.
    destruct (processConfig_completes data st Hok)
      as (st0 & Hrun & Hs0 & Hp0 & _ & _ & Ht0).
    exists st0. unfold result. rewrite Hrun. split_and!; try done.
    + by apply since_app.
    + by rewrite (since_app _ _ _ Ht0).
    + apply processDevices_frame.
    + intros Hnil. by rewrite Hnil.
  - intros Hno.
    destruct (processConfig_incomplete data st Hno) as (Hs & Hp & _).
    destruct (processConfig_incomplete_throws data st Hno) as [Hthrow Hq].
    by split_and!.
Qed.

(** C3: a [publish] call sends the entity's descriptor, retained, to the
    canonical topic only when the topic is not yet in the dedup set, so a
    later call in the same epoch sends none and the whole epoch has at most
    one; every call sends [String(value)], retained, to [topic/subKey] for
    every pair of the entity's states. *)
Theorem publish_descriptor_once (device : Device) (entity : EntityValue)
  (support : list string) (steps : list Step) (st : State) :
  Forall (λ s, reconciles s = false) steps →
  let topic := getEntityTopic device entity in
  let states :=
    map (λ '(subKey, value), (topic +:+ "/" +:+ subKey, String_ value, true))
        (Object_entries (entity_get entity "states")) in
  let st1 := publish device entity support st in
  let st2 := run DEVICE_CLASSES JSON_parse steps st1 in
  let st3 := publish device entity support st2 in
  descriptor_publications topic (since st st1)
  = (if includes (PUBLISH_TOPICS st) topic then []
     else [(entity_value entity, true)])
  ∧ descriptor_publications topic (since st2 st3) = []
  ∧ (length (descriptor_publications topic (since st st3)) ≤ 1)%nat
  ∧ state_publications (since st st1) = states
  ∧ state_publications (since st2 st3) = states.
Proof.
  intros Hsteps topic states st1 st2 st3.
  assert (Hdesc : ∀ s,
    descriptor_publications topic (since s (publish device entity support s))
    = if includes (PUBLISH_TOPICS s) topic then []
      else [(entity_value entity, true)]).
  { intros s.
    destruct (publish_spec device entity support s)
      as (_ & _ & _ & _ & message & config & Htr).
    rewrite (since_app _ _ _ Htr), !descriptor_publications_app,
      descriptor_publications_states, descriptor_publications_descriptor.
    unfold topic. rewrite descriptor_publications_discovery, !app_nil_r.
    destruct (includes _ _); [done|]. by rewrite decide_True. }
  assert (Hstates : ∀ s,
    state_publications (since s (publish device entity support s)) = states).
  { intros s.
    destruct (publish_spec device entity support s)
      as (_ & _ & _ & _ & message & config & Htr).
    rewrite (since_app _ _ _ Htr), !state_publications_app,
      state_publications_descriptor, state_publications_states,
      state_publications_discovery.
    by rewrite app_nil_r. }
  assert (Hext1 : extends st st1).
  { destruct (publish_spec device entity support st)
      as (_ & _ & _ & _ & ? & ? & ?). by eexists. }
  assert (Hext2 : extends st1 st2) by apply run_frame.
  assert (Hext3 : extends st2 st3).
  { destruct (publish_spec device entity support st2)
      as (_ & _ & _ & _ & ? & ? & ?). by eexists. }
  pose proof (publish_descriptor_budget device entity device entity support st)
    as B1.
  pose proof (run_descriptor_budget device entity steps st1 Hsteps) as B2.
  pose proof (publish_descriptor_budget device entity device entity support st2)
    as B3.
  cbv zeta in B1, B2, B3. fold topic st1 in B1. fold topic st2 in B2.
  fold topic st3 in B3.
  assert (Hin1 : includes (PUBLISH_TOPICS st1) topic = true).
  { destruct (publish_spec device entity support st) as (_ & _ & Hp & _).
    fold topic st1 in Hp. rewrite Hp.
    destruct (includes (PUBLISH_TOPICS st) topic) eqn:E; [done|].
    rewrite includes_app, includes_singleton.
    rewrite (bool_decide_eq_true_2 (topic = topic)) by done.
    apply orb_true_r. }
  rewrite Hin1 in B2.
  assert (Hin2 : includes (PUBLISH_TOPICS st2) topic = true).
  { destruct (includes (PUBLISH_TOPICS st2) topic); [done | lia]. }
  split_and!.
  - apply Hdesc.
  - unfold st3. by rewrite Hdesc, Hin2.
  - rewrite (since_trans st st2 st3);
      [| by eapply extends_trans | done].
    rewrite (since_trans st st1 st2) by done.
    rewrite !descriptor_publications_app, !length_app.
    destruct (includes (PUBLISH_TOPICS st) topic); lia.
  - apply Hstates.
  - apply Hstates.
Qed.



(** C6: the hub's "online" announcement on [homeassistant/status] empties the
    discovery cache and changes nothing else; no other message and no
    reconciliation changes the cache; so an announced topic stays announced
    through any run without the hub's announcement, and a [publish] then
    sends nothing into the hub's namespace, while after the announcement a
    [publish] with the discovery integration enabled announces again. *)
Theorem discovery_cache_cleared_by_hub_only (device : Device)
  (entity : EntityValue) (support : list string) (st : State) :
  onMessage DEVICE_CLASSES JSON_parse "homeassistant/status" "online" st
  = (Returns, set_HA_DISCOVERY [] st)
  ∧ (∀ topic message,
       hub_online topic message = false →
       HA_DISCOVERY (onMessage DEVICE_CLASSES JSON_parse topic message st).2
       = HA_DISCOVERY st)
  ∧ (∀ data,
       HA_DISCOVERY (processConfig DEVICE_CLASSES data st).2 = HA_DISCOVERY st)
  ∧ (∀ steps,
       Forall (λ s, signals_hub_online s = false) steps →
       getEntityTopic device entity ∈ HA_DISCOVERY st →
       let st' := run DEVICE_CLASSES JSON_parse steps st in
       getEntityTopic device entity ∈ HA_DISCOVERY st'
       ∧ Forall (λ e, is_discovery_publication e = false)
                (since st' (publish device entity support st')))
  ∧ (includes support "homeassistant" = true →
     let st' := set_HA_DISCOVERY [] st in
     ∃ config,
       client_publish (discovery_topic device entity)
                      (JSON_stringify (Obj config)) true
       ∈ since st' (publish device entity support st')).
Proof.
  split_and!.
  - apply onMessage_hub_online.
  - intros topic message Hhub.
    destruct (onMessage_frame topic message st) as (-> & _).
    by rewrite Hhub.
  - intros data. apply processConfig_frame.
  - intros steps Hsteps Hin st'.
    assert (Hin' : getEntityTopic device entity ∈ HA_DISCOVERY st')
      by by apply run_keeps_announced.
    split; [done | by apply publish_cached_not_announced].
  - intros Hsup st'.
    destruct (publish_spec device entity support st')
      as (_ & _ & _ & _ & message & config & Htr).
    exists config. rewrite (since_app _ _ _ Htr).
    assert (announces device entity support st' = true) as Hann.
    { unfold announces. by rewrite Hsup. }
    unfold discovery_part. rewrite Hann.
    apply elem_of_app. right. apply elem_of_app. right.
    apply list_elem_of_here.
Qed.

(** C7 (as amended): a [disconnect] that throws during the teardown is not
    caught: [processConfig] rejects with what was thrown, after the
    instances before the throwing one have been disconnected and without
    calling [disconnect] on those after it, without unsubscribing, resetting
    a table or instantiating a device; the listener returns and the
    rejection is logged by the [unhandledRejection] handler. *)
Theorem disconnect_failure_aborts (data : FleetConfig) (st : State)
  (before : list Device) (device : Device) (after : list Device)
  (reason : JsValue) :
  map snd (DEVICE_INSTANCES st) = before ++ device :: after →
  Forall (λ device, Device.disconnect device = None) before →
  Device.disconnect device = Some reason →
  let hub_calls :=
    if includes (FleetConfig.support data) "homeassistant"
    then [client_subscribe (HA_BASE_TOPIC +:+ "/status")] else [] in
  let disconnect_calls :=
    map device_disconnect before ++ [device_disconnect device] in
  (∃ st',
     processConfig DEVICE_CLASSES data st = (Throws reason, st')
     ∧ SUBSCRIBED_TOPICS st' = SUBSCRIBED_TOPICS st
     ∧ PUBLISH_TOPICS st' = PUBLISH_TOPICS st
     ∧ DEVICE_INSTANCES st' = DEVICE_INSTANCES st
     ∧ since st st' = hub_calls ++ disconnect_calls)
  ∧ ∀ topic message,
      config_topic topic = true →
      JSON_parse message = Some (fleet data)
      ∨ JSON_parse message = Some (truncated data) →
      ∃ st',
        onMessage DEVICE_CLASSES JSON_parse topic message st = (Returns, st')
        ∧ SUBSCRIBED_TOPICS st' = SUBSCRIBED_TOPICS st
        ∧ PUBLISH_TOPICS st' = PUBLISH_TOPICS st
        ∧ DEVICE_INSTANCES st' = DEVICE_INSTANCES st
        ∧ since st st'
          = log_effects "✨" "New config discovered. Processing..." None
            ++ hub_calls ++ disconnect_calls
            ++ log_effects "💥"
                 ("Unhandled Rejection at:" +:+ "[object Promise]"
                  +:+ "reason:")
                 (if truthy reason then Some (String_ (get reason "name"))
                  else None).
Proof.
  intros Hsplit Hok Hthrow hub_calls disconnect_calls. split.
  - destruct (processConfig_aborts data st before device after reason
                Hsplit Hok Hthrow)
      as (st' & Hrun & Hs & Hp & _ & Hd & Ht).
    exists st'. split_and!; try done.
    apply since_app. by rewrite Ht.
  - intros topic message Htopic Hparse.
    rewrite (onMessage_config _ _ _ Htopic). cbv zeta.
    set (st1 := log _ _ _ st).
    destruct (processConfig_aborts data st1 before device after reason
                Hsplit Hok Hthrow)
      as (st2 & Hrun & Hs & Hp & _ & Hd & Ht).
    assert (Hdocument : ∃ document,
              JSON_parse message = Some document
              ∧ processDocument DEVICE_CLASSES document st1
                = (Throws reason, st2)).
    { destruct Hparse as [H|H]; eexists; (split; [exact H|]);
        cbn [processDocument]; by rewrite Hrun. }
    destruct Hdocument as (document & -> & ->).
    eexists. split; [reflexivity|].
    unfold unhandledRejection. simpl. split_and!; try done.
    apply since_app. rewrite trace_log, Ht. unfold st1.
    rewrite trace_log. fold hub_calls. unfold disconnect_calls.
    by rewrite <- !app_assoc.
Qed.

(** C9 (as amended): a payload on the configuration topic that
    [JSON.parse] rejects makes the listener throw before [processConfig] is
    called: the four tables are as before and nothing was called but [log].
    A payload that parses is handed to [processConfig] whatever it is: when
    its [support] cannot be searched, [processConfig] rejects at once and the
    tables are as before; when its [devices] cannot be iterated, the
    instances are disconnected, the broker is told to unsubscribe and the
    subscription table and the dedup set are emptied before [processConfig]
    rejects.  In both cases the listener returns and the rejection is
    logged. *)
Theorem malformed_config_leaves_fleet (topic message : string) (st : State) :
  config_topic topic = true →
  let rejection :=
    log_effects "💥" ("Unhandled Rejection at:" +:+ "[object Promise]"
                      +:+ "reason:") (Some "TypeError") in
  (JSON_parse message = None →
   ∃ st',
     onMessage DEVICE_CLASSES JSON_parse topic message st
     = (Throws SyntaxError, st')
     ∧ DEVICE_INSTANCES st' = DEVICE_INSTANCES st
     ∧ SUBSCRIBED_TOPICS st' = SUBSCRIBED_TOPICS st
     ∧ PUBLISH_TOPICS st' = PUBLISH_TOPICS st
     ∧ HA_DISCOVERY st' = HA_DISCOVERY st
     ∧ since st st'
       = log_effects "✨" "New config discovered. Processing..." None)
  ∧ (JSON_parse message = Some unusable_support →
     ∃ st',
       onMessage DEVICE_CLASSES JSON_parse topic message st = (Returns, st')
       ∧ DEVICE_INSTANCES st' = DEVICE_INSTANCES st
       ∧ SUBSCRIBED_TOPICS st' = SUBSCRIBED_TOPICS st
       ∧ PUBLISH_TOPICS st' = PUBLISH_TOPICS st
       ∧ HA_DISCOVERY st' = HA_DISCOVERY st
       ∧ since st st'
         = log_effects "✨" "New config discovered. Processing..." None
           ++ rejection)
  ∧ (∀ data,
       JSON_parse message = Some (truncated data) →
       FleetConfig.devices data = [] →
       Forall (λ device, Device.disconnect device = None)
              (map snd (DEVICE_INSTANCES st)) →
       ∃ st',
         onMessage DEVICE_CLASSES JSON_parse topic message st = (Returns, st')
         ∧ DEVICE_INSTANCES st' = DEVICE_INSTANCES st
         ∧ SUBSCRIBED_TOPICS st' = ∅
         ∧ PUBLISH_TOPICS st' = []
         ∧ HA_DISCOVERY st' = HA_DISCOVERY st
         ∧ since st st'
           = log_effects "✨" "New config discovered. Processing..." None
             ++ teardown_calls data st
             ++ [client_unsubscribe
                   (map fst (map_to_list (SUBSCRIBED_TOPICS st)))]
             ++ rejection).
Proof.
  intros Htopic rejection. rewrite (onMessage_config _ _ _ Htopic).
  cbv zeta. set (st1 := log _ _ _ st).
  assert (Ht1 : trace st1 = trace st
                ++ log_effects "✨" "New config discovered. Processing..."
                               None) by apply trace_log.
  split_and!.
  - intros ->. eexists. split; [reflexivity|]. split_and!; try done.
    by apply since_app.
  - intros ->. cbn [processDocument]. eexists. split; [reflexivity|].
    split_and!; try done. apply since_app.
    unfold unhandledRejection. rewrite trace_log, Ht1.
    by rewrite <- app_assoc.
  - intros data -> Hnil Hok. cbn [processDocument].
    destruct (processConfig_completes data st1 Hok)
      as (st0 & -> & Hs0 & Hp0 & Hh0 & Hd0 & Ht0).
    rewrite Hnil. cbn [processDevices]. eexists. split; [reflexivity|].
    unfold unhandledRejection.
    cbn [DEVICE_INSTANCES SUBSCRIBED_TOPICS PUBLISH_TOPICS HA_DISCOVERY log
         emit].
    split_and!; try done. apply since_app.
    rewrite trace_log, Ht0, Ht1. unfold teardown_calls.
    by rewrite <- !app_assoc.
Qed.

End Reconciler.

(** ** The claims about the topic router and the entity topic *)



(** C10: the canonical entity topic is [connector/device/<id>/<segment>],
    where the segment is the entity's [key] when that is truthy and the
    entity value itself otherwise; for a plain string it is the string. *)
Theorem getEntityTopic_segments (device : Device) (entity : EntityValue) :
  getEntityTopic device entity
  = "connector/device/" +:+ Device.id device +:+ "/"
    +:+ (if truthy (entity_get entity "key")
         then String_ (entity_get entity "key")
         else String_ (entity_value entity))
  ∧ ∀ s, getEntityTopic device (EntityString s)
         = "connector/device/" +:+ Device.id device +:+ "/" +:+ s.
Proof.
  split.
  - assert (join_element (if truthy (entity_get entity "key")
                          then entity_get entity "key"
                          else entity_value entity)
            = if truthy (entity_get entity "key")
              then String_ (entity_get entity "key")
              else String_ (entity_value entity)) as Hseg.
    { destruct (truthy (entity_get entity "key")) eqn:Hk.
      - by destruct (entity_get entity "key").
      - by destruct entity. }
    unfold getEntityTopic. rewrite Hseg. reflexivity.
  - intros s. reflexivity.
Qed.

(** ** The claims at concrete fleets *)

Lemma publish_descriptor_once_witness :
  let steps :=
    [entity_update devA power ["homeassistant"];
     broker_message power_set "ON"] in
  let st1 := publish devA power [] initial in
  let st3 := publish devA power [] (run classes parse steps st1) in
  Forall (λ s, reconciles s = false) steps
  ∧ descriptor_publications "connector/device/a/power" (since initial st1)
    = [(entity_value power, true)]
  ∧ (length (descriptor_publications "connector/device/a/power"
               (since initial st3)) ≤ 1)%nat.
Proof.
  intros steps st1 st3.
  assert (H : Forall (λ s, reconciles s = false) steps)
    by (repeat constructor).
  split; [exact H|].
  pose proof (publish_descriptor_once classes parse devA power [] steps
                initial H) as (H1 & _ & H3 & _).
  split; [exact H1 | exact H3].
Defined.



(** The device table is never emptied: the instance of a device that the
    next configuration no longer lists stays in it, and is disconnected
    again by every later reconciliation. *)
Example instance_outlives_its_config :
  let st' := (processConfig classes no_devices fleet_of_one).2 in
  connected_configs classes no_devices = []
  ∧ map fst (DEVICE_INSTANCES st') = ["foo"]
  ∧ since st' (processConfig classes no_devices st').2
    = [device_disconnect (Foo (a_foo "foo")); client_unsubscribe []].
Proof. split_and!; vm_compute; reflexivity. Qed.



Lemma discovery_cache_cleared_by_hub_only_witness :
  let st := (processEntity devA power ["homeassistant"] initial).2 in
  let st' :=
    run classes parse [broker_message "connector/config" no_devices_json] st in
  getEntityTopic devA power ∈ HA_DISCOVERY st
  ∧ getEntityTopic devA power ∈ HA_DISCOVERY st'
  ∧ Forall (λ e, is_discovery_publication e = false)
           (since st' (publish devA power ["homeassistant"] st')).
Proof.
  intros st st'.
  assert (Hin : getEntityTopic devA power ∈ HA_DISCOVERY st)
    by (vm_compute; apply list_elem_of_here).
  split; [exact Hin|].
  destruct (discovery_cache_cleared_by_hub_only classes parse devA power
              ["homeassistant"] st) as (_ & _ & _ & Hkeep & _).
  apply (Hkeep [broker_message "connector/config" no_devices_json]);
    [repeat constructor | exact Hin].
Defined.

(** C7, the claim at a concrete fleet: [bad] and [foo] are connected and
    [bad] throws when disconnected; the next reconciliation rejects, [foo]
    is not disconnected, the broker is not told to unsubscribe, the
    subscription table keeps its topic and no device is instantiated. *)
Lemma disconnect_failure_counterexample :
  let result := processConfig classes one_foo fleet_with_bad in
  map fst (DEVICE_INSTANCES fleet_with_bad) = ["bad"; "foo"]
  ∧ result.1 = Throws port_busy
  ∧ since fleet_with_bad result.2
    = [client_subscribe "homeassistant/status";
       device_disconnect (Bad (a_bad "bad"))]
  ∧ map fst (map_to_list (SUBSCRIBED_TOPICS result.2))
    = ["connector/device/foo/power/set"].
Proof. split_and!; vm_compute; reflexivity. Qed.

Lemma disconnect_failure_aborts_witness :
  map snd (DEVICE_INSTANCES fleet_with_bad)
  = [] ++ Bad (a_bad "bad") :: [Foo (a_foo "foo")]
  ∧ Device.disconnect (Bad (a_bad "bad")) = Some port_busy
  ∧ ∃ st',
      processConfig classes one_foo fleet_with_bad = (Throws port_busy, st')
      ∧ SUBSCRIBED_TOPICS st' = SUBSCRIBED_TOPICS fleet_with_bad.
Proof.
  assert (H : map snd (DEVICE_INSTANCES fleet_with_bad)
              = [] ++ Bad (a_bad "bad") :: [Foo (a_foo "foo")])
    by (vm_compute; reflexivity).
  split; [exact H|]. split; [reflexivity|].
  destruct (disconnect_failure_aborts classes parse one_foo fleet_with_bad
              [] (Bad (a_bad "bad")) [Foo (a_foo "foo")] port_busy
              H (List.Forall_nil _) eq_refl)
    as [(st' & Hrun & Hs & _) _].
  exists st'. split; [exact Hrun | exact Hs].
Defined.

Lemma malformed_config_leaves_fleet_witness :
  config_topic "connector/config" = true
  ∧ parse "{" = None
  ∧ ∃ st',
      onMessage classes parse "connector/config" "{" fleet_of_one
      = (Throws SyntaxError, st')
      ∧ DEVICE_INSTANCES st' = DEVICE_INSTANCES fleet_of_one
      ∧ SUBSCRIBED_TOPICS st' = SUBSCRIBED_TOPICS fleet_of_one
      ∧ PUBLISH_TOPICS st' = PUBLISH_TOPICS fleet_of_one.
Proof.
  split; [reflexivity|]. split; [reflexivity|].
  destruct (malformed_config_leaves_fleet classes parse "connector/config"
              "{" fleet_of_one eq_refl) as (Hthrows & _ & _).
  destruct (Hthrows eq_refl) as (st' & Hrun & Hd & Hs & Hp & _).
  exists st'. split; [exact Hrun|]. split; [exact Hd|].
  split; [exact Hs | exact Hp].
Defined.

(** C9, the claim at a concrete fleet: the payload has no [devices]; it
    parses, and the listener returns after the instance was disconnected,
    the broker told to unsubscribe, and the subscription table and the
    dedup set emptied. *)
Lemma parsed_payload_tears_down_counterexample :
  let st := (processEntity (Foo (a_foo "foo")) power [] fleet_of_one).2 in
  let result := onMessage classes parse "connector/config" support_only_json st
  in
  parse support_only_json = Some (truncated no_devices)
  ∧ is_Some (SUBSCRIBED_TOPICS st !! "connector/device/foo/power/set")
  ∧ PUBLISH_TOPICS st = ["connector/device/foo/power"]
  ∧ result.1 = Returns
  ∧ SUBSCRIBED_TOPICS result.2 = ∅
  ∧ PUBLISH_TOPICS result.2 = []
  ∧ device_disconnect (Foo (a_foo "foo")) ∈ since st result.2.
Proof.
  split_and!; try (vm_compute; reflexivity).
  - vm_compute. eauto.
  - vm_compute. do 2 apply list_elem_of_further. apply list_elem_of_here.
Qed.




Lemma processConfig_resets_before_devices_witness :
  let st := (processEntity (Foo (a_foo "foo")) power [] fleet_of_one).2 in
  is_Some (SUBSCRIBED_TOPICS st !! "connector/device/foo/power/set")
  ∧ PUBLISH_TOPICS st = ["connector/device/foo/power"]
  ∧ ∃ st0,
      processConfig classes no_devices st = (Returns, st0)
      ∧ SUBSCRIBED_TOPICS st0 = ∅
      ∧ PUBLISH_TOPICS st0 = [].
Proof.
  intros st.
  split; [vm_compute; eauto|]. split; [vm_compute; reflexivity|].
  destruct (processConfig_resets_before_devices classes no_devices st)
    as (_ & _ & Hreset & _).
  destruct Hreset as (st0 & Hrun & _ & _ & Hs & Hp & _ & Hend);
    [by repeat constructor|].
  exists st0. split; [exact (Hend eq_refl)|]. split; [exact Hs | exact Hp].
Defined.

(** C2, the claim at a concrete fleet: [bad] throws when disconnected; the
    reconciliation with an empty device list rejects, and the subscription
    table and the dedup set are not empty afterwards. *)
Lemma reset_skipped_counterexample :
  let st := (processEntity (Foo (a_foo "foo")) power [] fleet_with_bad).2 in
  let result := processConfig classes no_devices st in
  FleetConfig.devices no_devices = []
  ∧ result.1 = Throws port_busy
  ∧ is_Some (SUBSCRIBED_TOPICS result.2 !! "connector/device/foo/power/set")
  ∧ PUBLISH_TOPICS result.2 = ["connector/device/foo/power"]
  ∧ since st result.2 = [device_disconnect (Bad (a_bad "bad"))].
Proof.
  split_and!; try (vm_compute; reflexivity). vm_compute. eauto.
Qed.

(** ** Start-up: class keys *)

Lemma string_length_app (a b : string) :
  String.length (a +:+ b) = (String.length a + String.length b)%nat.
Proof. induction a as [|c a IH]; simpl; [done | by rewrite IH]. Qed.

Lemma substring_prefix (a b : string) :
  String.substring 0 (String.length a) (a +:+ b) = a.
Proof.
  induction a as [|c a IH]; simpl.
  - by destruct b.
  - by rewrite IH.
Qed.

Lemma lastIndexOf_from_absent c s i :
  occurs c s = false → lastIndexOf_from c s i = (-1)%Z.
Proof.
  revert i. induction s as [|a s IH]; intros i H; simpl in *; [done|].
  apply orb_false_iff in H as [Ha Hs]. by rewrite (IH _ Hs), Ha.
Qed.

Lemma lastIndexOf_from_last c base rest i :
  (0 ≤ i)%Z →
  occurs c rest = false →
  lastIndexOf_from c (base +:+ String c rest) i
  = (i + Z.of_nat (String.length base))%Z.
Proof.
  revert i. induction base as [|a base IH]; intros i Hi Hrest; simpl.
  - rewrite (lastIndexOf_from_absent _ _ _ Hrest). simpl.
    rewrite Ascii.eqb_refl. lia.
  - rewrite IH by (done || lia).
    destruct (0 <=? i + 1 + Z.of_nat (String.length base))%Z eqn:E; [lia|].
    apply Z.leb_gt in E. lia.
Qed.

(** X1: a file name with an extension is stored under the part before its
    last dot: the extension, which itself has no dot, is cut off and nothing
    else. *)
Theorem className_extension (base ext : string) :
  occurs "." ext = false →
  className (base +:+ "." +:+ ext) = base.
Proof.
  intros Hext. unfold className, lastIndexOf, slice0.
  change (base +:+ "." +:+ ext) with (base +:+ String "." ext).
  rewrite lastIndexOf_from_last by done.
  rewrite string_length_app. simpl String.length.
  destruct (0 + Z.of_nat (String.length base) <? 0)%Z eqn:E;
    [apply Z.ltb_lt in E; lia|].
  rewrite Z.min_l by lia.
  replace (Z.to_nat (0 + Z.of_nat (String.length base)))
    with (String.length base) by lia.
  apply substring_prefix.
Qed.

Lemma className_extension_witness :
  occurs "." "js" = false ∧ className ("Pigpio" +:+ "." +:+ "js") = "Pigpio".
Proof.
  split; [reflexivity|]. apply (className_extension "Pigpio" "js"). reflexivity.
Defined.

(** X2: a file name without a dot loses its last character: the class of
    [Foo] is stored under [Fo]. *)
Theorem className_no_dot (s : string) (c : ascii) :
  occurs "." (s +:+ String c "") = false →
  className (s +:+ String c "") = s.
Proof.
  intros H. unfold className, lastIndexOf, slice0.
  rewrite (lastIndexOf_from_absent _ _ _ H), string_length_app. simpl.
  rewrite Z.max_l by lia.
  replace (Z.to_nat (Z.of_nat (String.length s + 1) + -1))
    with (String.length s) by lia.
  apply substring_prefix.
Qed.

Lemma className_no_dot_witness :
  occurs "." ("Fo" +:+ String "o" "") = false
  ∧ className ("Fo" +:+ String "o" "") = "Fo".
Proof.
  split; [reflexivity|]. apply (className_no_dot "Fo" "o"). reflexivity.
Defined.

(** ** Start-up: loading the device classes *)

Section Loading.

Variable import : string → Imported.

Lemma loadFile_calls file ld :
  ∃ new, calls (loadFile import file ld)
         = calls ld ++ import_ (DEVICE_PATH +:+ file) :: new
    ∧ Forall (λ c, is_broker_call c = false) new.
Proof.
  unfold loadFile. destruct (import (DEVICE_PATH +:+ file)) as [error|default].
  - eexists. split; [simpl; by rewrite <- app_assoc|]. by repeat constructor.
  - destruct (filtered file).
    + exists []. by split.
    + eexists. split; [simpl; by rewrite <- app_assoc|]. by repeat constructor.
Qed.

Lemma loadFiles_calls files ld :
  ∃ new, calls (loadFiles import files ld) = calls ld ++ new
    ∧ Forall (λ c, is_broker_call c = false) new
    ∧ ∀ file, file ∈ files → import_ (DEVICE_PATH +:+ file) ∈ new.
Proof.
  unfold loadFiles. revert ld.
  induction files as [|f files IH]; intros ld; simpl.
  - exists []. rewrite app_nil_r. split_and!; try done.
    intros ? H. by apply elem_of_nil in H.
  - destruct (loadFile_calls f ld) as (new1 & H1 & Hq1).
    destruct (IH (loadFile import f ld)) as (new2 & H2 & Hq2 & Hin2).
    exists ((import_ (DEVICE_PATH +:+ f) :: new1) ++ new2).
    rewrite H2, H1, <- app_assoc. split_and!; try done.
    + apply Forall_app. split; [|done]. by constructor.
    + intros file [->|Hin]%elem_of_cons.
      * apply elem_of_app. left. apply list_elem_of_here.
      * apply elem_of_app. right. by apply Hin2.
Qed.

(** A file that cannot store a class leaves every key as it was. *)
Lemma loadFile_loaded_skip file ld :
  stores import file = false →
  loaded (loadFile import file ld) = loaded ld.
Proof.
  unfold stores, loadFile.
  destruct (import (DEVICE_PATH +:+ file)) as [error|default]; [done|].
  by destruct (filtered file).
Qed.

Lemma loadFile_loaded_other file ld k :
  className file ≠ k →
  loaded (loadFile import file ld) !! k = loaded ld !! k.
Proof.
  intros Hne. unfold loadFile.
  destruct (import (DEVICE_PATH +:+ file)) as [error|default]; [done|].
  destruct (filtered file); [done|]. simpl. by rewrite lookup_insert_ne.
Qed.

Lemma loadFiles_loaded_kept files ld k :
  (∀ file, file ∈ files → className file = k → stores import file = false) →
  loaded (loadFiles import files ld) !! k = loaded ld !! k.
Proof.
  unfold loadFiles. revert ld.
  induction files as [|f files IH]; intros ld H; simpl; [done|].
  rewrite IH.
  - destruct (decide (className f = k)) as [Hk|Hk].
    + rewrite loadFile_loaded_skip; [done|].
      apply H; [apply list_elem_of_here | done].
    + by apply loadFile_loaded_other.
  - intros file Hin. apply H. by apply list_elem_of_further.
Qed.

(** X3: a file whose import throws does not stop the loading: every file of
    the directory is imported, in any case; the failing one stores no class
    and leaves one line, made of the error's text and the word [undefined]
    (the error is passed to [log] in the place of the icon, without a
    message), and the loop goes on with the files after it. *)
Theorem import_failure_does_not_stop_loading (files : list string)
  (ld : Loader) :
  (∀ file, file ∈ files →
     import_ (DEVICE_PATH +:+ file) ∈ calls (loadFiles import files ld))
  ∧ ∀ before file after name message,
      files = before ++ file :: after →
      import (DEVICE_PATH +:+ file)
      = import_rejects (ErrorObject name message) →
      let ld1 := loadFiles import before ld in
      let ld2 := loadFile import file ld1 in
      let content :=
        (Thrown_String (ErrorObject name message) +:+ "  ") +:+ "undefined" in
      loadFiles import files ld = loadFiles import after ld2
      ∧ loaded ld2 = loaded ld1
      ∧ calls ld2
        = calls ld1
          ++ [import_ (DEVICE_PATH +:+ file);
              effect (console_log content);
              effect (fs_writeFile "./debug.log" (content +:+ newline))].
Proof.
  split.
  - intros file Hin.
    destruct (loadFiles_calls files ld) as (new & -> & _ & Hnew).
    apply elem_of_app. right. by apply Hnew.
  - intros before file after name message -> Himport ld1 ld2 content.
    split; [unfold loadFiles; by rewrite foldl_app|].
    unfold ld2, loadFile. rewrite Himport. simpl.
    split; [done|]. by rewrite <- app_assoc.
Qed.

(** X4: the class of a file that imports and is not filtered is found
    afterwards under the file's key, as [processConfig] looks it up, provided
    no later file that stores a class has the same key. *)
Theorem loaded_class_is_found (before : list string) (file : string)
  (after : list string) (default : option (DeviceConfig → Device))
  (ld : Loader) :
  import (DEVICE_PATH +:+ file) = import_module default →
  filtered file = false →
  (∀ later, later ∈ after → className later = className file →
            stores import later = false) →
  classes_of (loadFiles import (before ++ file :: after) ld)
  !! className file = default.
Proof.
  intros Himport Hfilter Hafter. unfold classes_of.
  rewrite lookup_omap. unfold loadFiles. rewrite foldl_app. simpl.
  change (foldl _ ?l after) with (loadFiles import after l).
  rewrite loadFiles_loaded_kept by done.
  unfold loadFile. rewrite Himport, Hfilter. simpl.
  by rewrite lookup_insert_eq.
Qed.

(** X5: a key is never stored by files that are filtered or fail to import:
    when every file with the key [k] is such a file, the directory leaves
    [k] without a class, although each of these files was imported. *)
Theorem filtered_class_is_not_loaded (files : list string) (k : string)
  (argv : list string) (env : gmap string string) :
  (∀ file, file ∈ files → className file = k → stores import file = false) →
  let ld := onReaddir import argv env (readdir_lists files) in
  classes_of ld !! k = None
  ∧ ∀ file, file ∈ files → import_ (DEVICE_PATH +:+ file) ∈ calls ld.
Proof.
  intros H ld. split.
  - unfold classes_of, ld. simpl. rewrite lookup_omap.
    rewrite (loadFiles_loaded_kept files _ k H). simpl.
    by rewrite lookup_empty.
  - intros file Hin. unfold ld. simpl.
    destruct (loadFiles_calls files (mkLoader ∅ [])) as (new & -> & _ & Hnew).
    apply elem_of_app. left. apply elem_of_app. right. by apply Hnew.
Qed.

(** X6: when the device directory cannot be read, the error is logged and
    the broker is never contacted; when it can, the client is created and
    its listeners installed once, after the last import, whatever the
    imports did. *)
Theorem connect_after_loading (argv : list string) (env : gmap string string) :
  (∀ name message,
     calls (onReaddir import argv env (readdir_fails name message))
     = map effect (log_effects "⚠️" (Thrown_String (ErrorObject name message))
                               None))
  ∧ ∀ files,
      ∃ loading,
        calls (onReaddir import argv env (readdir_lists files))
        = loading ++ connect argv env
        ∧ Forall (λ c, is_broker_call c = false) loading.
Proof.
  split; [done|]. intros files. simpl.
  destruct (loadFiles_calls files (mkLoader ∅ [])) as (new & Hnew & Hq & _).
  exists new. by rewrite Hnew.
Qed.

End Loading.

(** A directory with a class, a filtered file and a file that fails. *)
Lemma loaded_class_is_found_witness :
  let import := λ specifier,
    if String.eqb specifier "./device/Foo.js" then import_module (Some Foo)
    else if String.eqb specifier "./device/Bluetooth.js"
         then import_module (Some Bar)
         else import_rejects (ErrorObject "Error" "Cannot find module") in
  classes_of (loadFiles import (["Bluetooth.js"] ++ "Foo.js" :: ["Bar.js"])
                        (mkLoader ∅ []))
  !! "Foo" = Some Foo.
Proof.
  intros import.
  apply (loaded_class_is_found import ["Bluetooth.js"] "Foo.js" ["Bar.js"]
           (Some Foo) (mkLoader ∅ [])); [reflexivity | reflexivity |].
  intros later ->%list_elem_of_singleton _. reflexivity.
Defined.

Lemma filtered_class_is_not_loaded_witness :
  let import := λ specifier,
    if String.eqb specifier "./device/Bluetooth.js"
    then import_module (Some Bar)
    else import_rejects (ErrorObject "Error" "Cannot find module") in
  classes_of (onReaddir import [] ∅ (readdir_lists ["Bluetooth.js"; "Foo.js"]))
  !! "Bluetooth" = None.
Proof.
  intros import.
  apply (filtered_class_is_not_loaded import ["Bluetooth.js"; "Foo.js"]
           "Bluetooth" [] ∅).
  intros file Hin Hk.
  apply elem_of_cons in Hin as [->|Hin]; [reflexivity|].
  apply list_elem_of_singleton in Hin as ->. reflexivity.
Defined.

(** ** Start-up: the command line and the broker's address *)

Lemma split_on_absent c s :
  occurs c s = false → split_on c s = [s].
Proof.
  induction s as [|a s IH]; simpl; [done|].
  intros [Ha Hs]%orb_false_iff. by rewrite Ha, (IH Hs).
Qed.

Lemma split_on_first c k v :
  occurs c k = false →
  split_on c (k +:+ String c v) = k :: split_on c v.
Proof.
  induction k as [|a k IH]; simpl.
  - by rewrite Ascii.eqb_refl.
  - intros [Ha Hk]%orb_false_iff. by rewrite Ha, (IH Hk).
Qed.

Lemma prop_get_set_same k v o :
  prop_get (prop_set k v o) k = v.
Proof.
  induction o as [|[k' v'] o IH]; simpl.
  - by rewrite String.eqb_refl.
  - destruct (String.eqb k' k) eqn:E; simpl.
    + by rewrite String.eqb_refl.
    + by rewrite E.
Qed.

Lemma prop_get_set_other k k' v o :
  k ≠ k' → prop_get (prop_set k v o) k' = prop_get o k'.
Proof.
  intros Hne. induction o as [|[k0 v0] o IH]; simpl.
  - by apply String.eqb_neq in Hne as ->.
  - destruct (String.eqb k0 k) eqn:E; simpl.
    + apply String.eqb_eq in E as ->.
      by apply String.eqb_neq in Hne as ->.
    + by rewrite IH.
Qed.

Lemma foldl_entries_other entries o k :
  (∀ entry, entry ∈ entries → entry_key entry ≠ k) →
  prop_get (foldl (λ o entry, prop_set (entry_key entry) (entry_value entry) o)
                  o entries) k
  = prop_get o k.
Proof.
  revert o. induction entries as [|e entries IH]; intros o H; simpl; [done|].
  rewrite IH.
  - apply prop_get_set_other. apply H, list_elem_of_here.
  - intros entry Hin. by apply H, list_elem_of_further.
Qed.

Lemma fromEntries_last before entry after :
  (∀ later, later ∈ after → entry_key later ≠ entry_key entry) →
  prop_get (fromEntries (before ++ entry :: after)) (entry_key entry)
  = entry_value entry.
Proof.
  intros H. unfold fromEntries. rewrite foldl_app. simpl.
  rewrite foldl_entries_other by done. apply prop_get_set_same.
Qed.

Lemma parseArgs_last node script before arg after :
  (∀ later, later ∈ after → arg_key later ≠ arg_key arg) →
  prop_get (parseArgs (node :: script :: before ++ arg :: after)) (arg_key arg)
  = entry_value (split_on "=" arg).
Proof.
  intros H. unfold parseArgs.
  change (drop 2 (node :: script :: before ++ arg :: after))
    with (before ++ arg :: after).
  rewrite map_app. simpl map.
  apply fromEntries_last.
  intros later (a & -> & Hin)%list_elem_of_fmap. by apply H.
Qed.

(** X7: an argument [k=v] after the program and the script is read as the
    option [k] with the string [v] (with [=] in neither), unless a later
    argument has the same key: the last one wins. *)
Theorem parseArgs_key_value (node script : string) (before : list string)
  (k v : string) (after : list string) :
  occurs "=" k = false →
  occurs "=" v = false →
  (∀ later, later ∈ after → arg_key later ≠ k) →
  prop_get (parseArgs (node :: script :: before ++ (k +:+ "=" +:+ v) :: after))
           k
  = Str v.
Proof.
  intros Hk Hv Hafter.
  assert (Hsplit : split_on "=" (k +:+ "=" +:+ v) = [k; v]).
  { change (k +:+ "=" +:+ v) with (k +:+ String "=" v).
    by rewrite split_on_first, split_on_absent. }
  assert (Hkey : arg_key (k +:+ "=" +:+ v) = k).
  { unfold arg_key. by rewrite Hsplit. }
  rewrite <- Hkey at 2. rewrite parseArgs_last.
  - by rewrite Hsplit.
  - by rewrite Hkey.
Qed.

Lemma parseArgs_key_value_witness :
  prop_get (parseArgs ("node" :: "src/app.js"
                       :: ["port=1"] ++ ("port" +:+ "=" +:+ "1884")
                       :: ["host=broker"]))
           "port"
  = Str "1884".
Proof.
  apply (parseArgs_key_value "node" "src/app.js" ["port=1"] "port" "1884"
           ["host=broker"]); [reflexivity | reflexivity |].
  intros later ->%list_elem_of_singleton. discriminate.
Defined.

(** X8: a value is cut at its first [=]: of an argument [k=v=rest] only [v]
    is kept, so a password or host that contains [=] is truncated. *)
Theorem parseArgs_value_cut (node script : string) (before : list string)
  (k v rest : string) (after : list string) :
  occurs "=" k = false →
  occurs "=" v = false →
  (∀ later, later ∈ after → arg_key later ≠ k) →
  prop_get (parseArgs (node :: script
                       :: before ++ (k +:+ "=" +:+ v +:+ "=" +:+ rest) :: after))
           k
  = Str v.
Proof.
  intros Hk Hv Hafter.
  assert (Hsplit : ∃ parts,
            split_on "=" (k +:+ "=" +:+ v +:+ "=" +:+ rest) = k :: v :: parts).
  { change (k +:+ "=" +:+ v +:+ "=" +:+ rest)
      with (k +:+ String "=" (v +:+ String "=" rest)).
    rewrite !split_on_first by done. by eexists. }
  destruct Hsplit as [parts Hsplit].
  assert (Hkey : arg_key (k +:+ "=" +:+ v +:+ "=" +:+ rest) = k).
  { unfold arg_key. by rewrite Hsplit. }
  rewrite <- Hkey at 2. rewrite parseArgs_last.
  - by rewrite Hsplit.
  - by rewrite Hkey.
Qed.

Lemma parseArgs_value_cut_witness :
  prop_get (parseArgs ("node" :: "src/app.js"
                       :: [] ++ ("password" +:+ "=" +:+ "c2VjcmV0" +:+ "="
                                 +:+ "=")
                       :: []))
           "password"
  = Str "c2VjcmV0".
Proof.
  apply (parseArgs_value_cut "node" "src/app.js" [] "password" "c2VjcmV0" "="
           []); [reflexivity | reflexivity |].
  intros later Hin. by apply elem_of_nil in Hin.
Defined.

Lemma or_left a b : truthy a = true → or_ a b = a.
Proof. intros H. unfold or_. by rewrite H. Qed.

Lemma or_right a b : truthy a = false → or_ a b = b.
Proof. intros H. unfold or_. by rewrite H. Qed.

Lemma or_truthy a b : truthy b = true → truthy (or_ a b) = true.
Proof. intros Hb. unfold or_. by destruct (truthy a) eqn:E. Qed.

(** X9: the broker's host is the command line's [host] when that is given
    and not empty, otherwise the environment's [MQTT_HOST] when that is set
    and not empty, otherwise [localhost]; so the address is never
    [mqtt://] alone, and the port is never missing. *)
Theorem connect_host_precedence (argv : list string)
  (env : gmap string string) :
  let arg := prop_get (parseArgs argv) "host" in
  (∀ h, arg = Str h → h ≠ "" → connect_host argv env = Str h)
  ∧ (∀ h, (arg = Undefined ∨ arg = Str "") →
          env !! "MQTT_HOST" = Some h → h ≠ "" →
          connect_host argv env = Str h)
  ∧ ((arg = Undefined ∨ arg = Str "") →
     (env !! "MQTT_HOST" = None ∨ env !! "MQTT_HOST" = Some "") →
     connect_host argv env = Str "localhost")
  ∧ ∃ url port username password,
      connect argv env
      = [mqtt_connect url port username password;
         client_on "connect"; client_on "error"; client_on "message"]
      ∧ url = "mqtt://" +:+ String_ (connect_host argv env)
      ∧ truthy (connect_host argv env) = true
      ∧ truthy port = true.
Proof.
  cbv zeta. unfold connect_host.
  assert (Hstr : ∀ h, h ≠ "" → truthy (Str h) = true).
  { intros h Hh. simpl. by apply String.eqb_neq in Hh as ->. }
  assert (Hnot : ∀ v, v = Undefined ∨ v = Str "" → truthy v = false).
  { by intros v [->| ->]. }
  split_and!.
  - intros h Harg Hh. rewrite Harg.
    by rewrite !or_left by (by rewrite ?or_left by auto; auto).
  - intros h Harg Henv Hh. unfold env_get. rewrite Henv.
    rewrite (or_right _ _ (Hnot _ Harg)). by rewrite or_left by auto.
  - intros Harg Henv. rewrite (or_right _ _ (Hnot _ Harg)).
    unfold env_get. by destruct Henv as [->| ->].
  - do 4 eexists. split; [reflexivity|]. split; [reflexivity|].
    split; by apply or_truthy.
Qed.

(** ** Topics and the listener *)

Lemma split_slash_absent s :
  occurs "/" s = false → split_slash s = [s].
Proof.
  induction s as [|a s IH]; simpl; [done|].
  intros [Ha Hs]%orb_false_iff. by rewrite Ha, (IH Hs).
Qed.

Lemma split_slash_app a b :
  split_slash (a +:+ "/" +:+ b) = split_slash a ++ split_slash b.
Proof.
  induction a as [|x a IH]; [done|].
  change (String x a +:+ "/" +:+ b) with (String x (a +:+ "/" +:+ b)).
  cbn [split_slash]. rewrite IH.
  destruct (Ascii.eqb x "/"); [done|].
  destruct (split_slash a) as [|p ps] eqn:E; [|done].
  by apply split_slash_nonempty in E.
Qed.

Lemma split_slash_cons part rest :
  occurs "/" part = false →
  split_slash (part +:+ "/" +:+ rest) = part :: split_slash rest.
Proof. intros H. by rewrite split_slash_app, (split_slash_absent _ H). Qed.

Lemma getEntityTopic_unfold device entity :
  getEntityTopic device entity
  = BASE_TOPIC +:+ "/" +:+ DEVICE_TOPIC +:+ "/" +:+ Device.id device
    +:+ "/" +:+ entity_segment entity.
Proof. reflexivity. Qed.

Lemma split_slash_canonical device entity :
  ∃ rest, split_slash (getEntityTopic device entity)
          = BASE_TOPIC :: DEVICE_TOPIC :: rest.
Proof.
  rewrite getEntityTopic_unfold, !split_slash_cons by done. by eexists.
Qed.

Lemma split_slash_command device entity c :
  ∃ rest, split_slash (getEntityTopic device entity +:+ "/" +:+ c)
          = BASE_TOPIC :: DEVICE_TOPIC :: rest.
Proof.
  rewrite split_slash_app.
  destruct (split_slash_canonical device entity) as [rest ->]. by eexists.
Qed.

(** X10: the canonical topic of an entity splits back into its four
    segments when neither the device id nor the entity segment contains a
    slash; with a slash in either there are more parts, and the listener's
    last part is no longer the entity segment. *)
Theorem getEntityTopic_split (device : Device) (entity : EntityValue) :
  occurs "/" (Device.id device) = false →
  occurs "/" (entity_segment entity) = false →
  split_slash (getEntityTopic device entity)
  = [BASE_TOPIC; DEVICE_TOPIC; Device.id device; entity_segment entity]
  ∧ last_part (split_slash (getEntityTopic device entity))
    = entity_segment entity.
Proof.
  intros Hid Hseg.
  assert (split_slash (getEntityTopic device entity)
          = [BASE_TOPIC; DEVICE_TOPIC; Device.id device;
             entity_segment entity]) as H.
  { rewrite getEntityTopic_unfold, !split_slash_cons by done.
    by rewrite split_slash_absent. }
  by rewrite H.
Qed.

Lemma getEntityTopic_split_witness :
  split_slash (getEntityTopic devA power)
  = [BASE_TOPIC; DEVICE_TOPIC; "a"; "power"]
  ∧ last_part (split_slash (getEntityTopic devA power)) = "power".
Proof. apply (getEntityTopic_split devA power); reflexivity. Defined.

Lemma subscribe_at_most topic device key st t (h : Handler) :
  plain_pair topic device = true →
  inherited_function (Device.id device) = false →
  handler_at st t (Device.id device) = None
  ∨ handler_at st t (Device.id device) = Some h →
  (t = topic → h = mkHandler device key) →
  handler_at (after_subscribe topic device key st) t (Device.id device) = None
  ∨ handler_at (after_subscribe topic device key st) t (Device.id device)
    = Some h.
Proof.
  intros Hp Hi [H|H] Hh.
  - destruct (decide (t = topic)) as [->|Hne].
    + right. rewrite (Hh eq_refl). by apply subscribe_at.
    + left. rewrite subscribe_other; [done | congruence].
  - right. by apply subscribe_keeps.
Qed.

(** A topic under [connector] is not [__proto__]. *)
Lemma entity_topic_plain device entity rest :
  plain_pair (getEntityTopic device entity +:+ rest) device
  = negb (names_prototype (Device.id device)).
Proof. reflexivity. Qed.

(** The commands of an entity all store the handler of the entity's key. *)
Lemma commands_handler device entity commands c st :
  names_prototype (Device.id device) = false →
  inherited_function (Device.id device) = false →
  Str c ∈ commands →
  let topic := getEntityTopic device entity +:+ "/" +:+ c in
  let handler := mkHandler device (entity_get entity "key") in
  handler_at st topic (Device.id device) = None
  ∨ handler_at st topic (Device.id device) = Some handler →
  handler_at
    (subscribeEach
       (λ command, getEntityTopic device entity +:+ "/" +:+ String_ command)
       (λ _, entity_get entity "key") device commands st).2
    topic (Device.id device)
  = Some handler.
Proof.
  intros Hproto Hi Hin topic handler. revert st Hin.
  induction commands as [|x xs IH]; intros st Hin Hst.
  - by apply elem_of_nil in Hin.
  - assert (Hp : plain_pair (getEntityTopic device entity +:+ "/"
                             +:+ String_ x) device = true).
    { by rewrite entity_topic_plain, Hproto. }
    rewrite subscribeEach_cons, Hp.
    apply elem_of_cons in Hin as [<-|Hin].
    + apply subscribeEach_frame. cbn [String_]. fold topic.
      destruct Hst as [H|H].
      * by apply subscribe_at.
      * by apply subscribe_keeps.
    + apply IH; [done|]. by apply subscribe_at_most.
Qed.

Section Listener.

Variable DEVICE_CLASSES : gmap string (DeviceConfig → Device).
Variable JSON_parse : string → option Document.

Lemma onMessage_foreign topic message st :
  split_slash topic !! 0%nat ≠ Some BASE_TOPIC →
  let st' := (onMessage DEVICE_CLASSES JSON_parse topic message st).2 in
  (onMessage DEVICE_CLASSES JSON_parse topic message st).1 = Returns
  ∧ trace st' = trace st
  ∧ SUBSCRIBED_TOPICS st' = SUBSCRIBED_TOPICS st
  ∧ PUBLISH_TOPICS st' = PUBLISH_TOPICS st
  ∧ DEVICE_INSTANCES st' = DEVICE_INSTANCES st.
Proof.
  intros H. unfold onMessage.
  rewrite (bool_decide_eq_false_2 _ H).
  destruct (bool_decide (split_slash topic !! 0%nat = Some HA_BASE_TOPIC));
    [|done].
  by destruct (_ && _ && _).
Qed.

(** X11: a subscription to a topic whose first segment is not [connector]
    is stored and sent to the broker like any other (the topic is not
    [__proto__], and the device id is neither [__proto__] nor the name of a
    function that every object inherits), but the listener never calls its
    handler: a message on a topic outside [connector] makes no call at all
    and leaves the subscription table, the dedup set and the device table as
    they are, whatever the tables hold. *)
Theorem foreign_topic_handler_is_never_called (topic : string)
  (device : Device) (key : JsValue) (st : State) :
  split_slash topic !! 0%nat ≠ Some BASE_TOPIC →
  plain_pair topic device = true →
  inherited_function (Device.id device) = false →
  handler_at st topic (Device.id device) = None →
  ∃ st1,
    subscribe topic device key st = Some (true, st1)
    ∧ client_subscribe topic ∈ since st st1
    ∧ handler_at st1 topic (Device.id device) = Some (mkHandler device key)
    ∧ ∀ message st2,
        let st3 := (onMessage DEVICE_CLASSES JSON_parse topic message st2).2 in
        (onMessage DEVICE_CLASSES JSON_parse topic message st2).1 = Returns
        ∧ since st2 st3 = []
        ∧ SUBSCRIBED_TOPICS st3 = SUBSCRIBED_TOPICS st2
        ∧ PUBLISH_TOPICS st3 = PUBLISH_TOPICS st2
        ∧ DEVICE_INSTANCES st3 = DEVICE_INSTANCES st2.
Proof.
  intros Hforeign Hplain Hown Hfree.
  destruct (subscribe_absent topic device key st Hplain Hfree Hown)
    as (st1 & Hs & Htable & _ & _ & _ & Htrace).
  exists st1. split_and!.
  - done.
  - rewrite (since_app _ _ _ Htrace). apply list_elem_of_here.
  - unfold handler_at. rewrite Htable, lookup_insert_eq. cbn.
    by rewrite lookup_insert_eq.
  - intros message st2 st3.
    destruct (onMessage_foreign topic message st2 Hforeign)
      as (Hret & Htr & Ht & Hp & Hd).
    split_and!; try done. by apply same_trace.
Qed.

(** X12: a command of an entity reaches its driver: the device id is
    neither [__proto__] nor the name of a function that every object
    inherits; after [processEntity] on an entity with the command [c] (a
    string without a slash) and no earlier handler for the pair, a message
    on [<entity topic>/c] makes the listener call
    [device.handle(entity.key, c, payload)]. *)
Theorem entity_command_reaches_driver (device : Device)
  (entity : EntityValue) (support : list string)
  (commands : list JsValue) (c : string) (st : State) :
  entity_get entity "commands" = Arr commands →
  Str c ∈ commands →
  occurs "/" c = false →
  names_prototype (Device.id device) = false →
  inherited_function (Device.id device) = false →
  let topic := getEntityTopic device entity +:+ "/" +:+ c in
  handler_at st topic (Device.id device) = None →
  ∃ st1,
    processEntity device entity support st = (Returns, st1)
    ∧ handler_at st1 topic (Device.id device)
      = Some (mkHandler device (entity_get entity "key"))
    ∧ ∀ message,
        let r := onMessage DEVICE_CLASSES JSON_parse topic message st1 in
        r.1 = Returns
        ∧ device_handle device (entity_get entity "key") c message
          ∈ since st1 r.2.
Proof.
  intros Hcommands Hin Hc Hproto Hown topic Hfree.
  exists (processEntity device entity support st).2.
  set (st1 := (processEntity device entity support st).2).
  assert (Hout : (processEntity device entity support st).1 = Returns).
  { unfold processEntity. rewrite Hcommands, subscribeEach_outcome.
    rewrite (proj2 (forallb_forall _ _)); [done|].
    intros x _. by rewrite entity_topic_plain, Hproto. }
  assert (Hat : handler_at st1 topic (Device.id device)
                = Some (mkHandler device (entity_get entity "key"))).
  { unfold st1, processEntity. rewrite Hcommands.
    destruct (publish_spec device entity support st) as (Htable & _).
    apply commands_handler; try done.
    left. unfold handler_at. by rewrite Htable. }
  split_and!.
  - unfold st1. destruct (processEntity device entity support st) as [o s].
    cbn in Hout. by rewrite Hout.
  - done.
  - intros message r.
    destruct (split_slash_command device entity c) as [rest Hparts].
    fold topic in Hparts.
    assert (Hlast : last_part (split_slash topic) = c).
    { unfold topic. rewrite split_slash_app, (split_slash_absent _ Hc).
      unfold last_part. by rewrite last_snoc. }
    assert (Hr : r = (Returns,
                      dispatch topic (split_slash topic) message st1)).
    { unfold r. apply onMessage_table.
      - by rewrite Hparts.
      - unfold config_topic. rewrite Hparts. reflexivity. }
    rewrite Hr. cbn [fst snd]. split; [done|].
    rewrite (since_app _ _ _ (dispatch_trace topic _ message st1)).
    unfold handler_at in Hat.
    destruct (SUBSCRIBED_TOPICS st1 !! topic) as [handlers|] eqn:Ht; [|done].
    cbn in Hat. cbn [default].
    apply list_elem_of_fmap.
    exists (Device.id device, mkHandler device (entity_get entity "key")).
    split.
    + unfold handle_call. cbn. by rewrite Hlast.
    + by apply elem_of_map_to_list.
Qed.

(** X13: when the client connects, a local configuration file is published
    retained to [connector/config] before that topic is subscribed, and
    without the file the topic is only subscribed; a message on that topic
    is what the listener hands to [processConfig], so the file's content
    comes back as the fleet to reconcile. *)
Theorem local_config_is_reconciled (content : string) (st : State) :
  let topic := BASE_TOPIC +:+ "/" +:+ CONFIG_TOPIC in
  since st (onConnect None st) = [client_subscribe topic]
  ∧ since st (onConnect (Some content) st)
    = log_effects "✨" "Local config found. Publishing..." None
      ++ [client_publish topic (Text content) true; client_subscribe topic]
  ∧ ∀ st1 data,
      JSON_parse content = Some (fleet data) →
      onMessage DEVICE_CLASSES JSON_parse topic content st1
      = match processConfig DEVICE_CLASSES data
                (log "✨" "New config discovered. Processing..." None st1) with
        | (Returns, st2) => (Returns, st2)
        | (Throws reason, st2) => (Returns, unhandledRejection reason st2)
        | (Unmodelled, st2) => (Unmodelled, st2)
        end.
Proof.
  intros topic. split_and!.
  - by apply since_app.
  - apply since_app. unfold onConnect, log, emit. cbn [trace].
    by rewrite <- !app_assoc.
  - intros st1 data Hparse.
    rewrite (onMessage_config DEVICE_CLASSES JSON_parse topic content st1)
      by reflexivity.
    cbv zeta. by rewrite Hparse.
Qed.

End Listener.

Lemma entity_command_reaches_driver_witness :
  ∃ st1,
    processEntity devA power [] initial = (Returns, st1)
    ∧ handler_at st1 power_set "a" = Some (mkHandler devA (Str "power"))
    ∧ device_handle devA (Str "power") "set" "ON"
      ∈ since st1 (onMessage classes parse power_set "ON" st1).2.
Proof.
  destruct (entity_command_reaches_driver classes parse devA power []
              [Str "set"] "set" initial) as (st1 & Hrun & Hat & Hcall);
    [reflexivity | apply list_elem_of_here | reflexivity | reflexivity
     | reflexivity | reflexivity |].
  exists st1. split; [exact Hrun|].
  split; [exact Hat | exact (proj2 (Hcall "ON"))].
Defined.

Lemma foreign_topic_handler_is_never_called_witness :
  ∃ st1,
    subscribe "zigbee2mqtt/lamp" devA (Str "power") initial = Some (true, st1)
    ∧ client_subscribe "zigbee2mqtt/lamp" ∈ since initial st1
    ∧ since st1 (onMessage classes parse "zigbee2mqtt/lamp" "ON" st1).2 = [].
Proof.
  destruct (foreign_topic_handler_is_never_called classes parse
              "zigbee2mqtt/lamp" devA (Str "power") initial)
    as (st1 & Hrun & Hsub & _ & Hmsg);
    [vm_compute; discriminate | reflexivity | reflexivity | reflexivity |].
  exists st1. split; [exact Hrun|].
  split; [exact Hsub | exact (proj1 (proj2 (Hmsg "ON" st1)))].
Defined.

(** ** What every run keeps *)

Lemma includes_false xs x : includes xs x = false → x ∉ xs.
Proof. unfold includes. by intros ?%bool_decide_eq_false. Qed.

Lemma NoDup_snoc (xs : list string) x : NoDup xs → x ∉ xs → NoDup (xs ++ [x]).
Proof.
  intros Hxs Hx. apply NoDup_app. split_and!; [done| |apply NoDup_singleton].
  intros y Hy ->%list_elem_of_singleton. done.
Qed.

Lemma publish_NoDup device entity support st :
  NoDup (PUBLISH_TOPICS st) ∧ NoDup (HA_DISCOVERY st) →
  NoDup (PUBLISH_TOPICS (publish device entity support st))
  ∧ NoDup (HA_DISCOVERY (publish device entity support st)).
Proof.
  intros [Hp Hh].
  destruct (publish_spec device entity support st)
    as (_ & _ & -> & -> & _).
  split.
  - destruct (includes (PUBLISH_TOPICS st) _) eqn:E; [done|].
    by apply NoDup_snoc, includes_false.
  - unfold announces.
    destruct (includes support "homeassistant"); [|done].
    destruct (includes (HA_DISCOVERY st) _) eqn:E; [done|].
    by apply NoDup_snoc, includes_false.
Qed.

Section Invariants.

Variable DEVICE_CLASSES : gmap string (DeviceConfig → Device).
Variable JSON_parse : string → option Document.

Lemma processDevice_keeps_ids data config st id :
  id ∈ map fst (DEVICE_INSTANCES st) →
  id ∈ map fst
         (DEVICE_INSTANCES (processDevice DEVICE_CLASSES data config st).2).
Proof.
  intros Hin.
  destruct (DEVICE_CLASSES !! DeviceConfig.class config) as [deviceClass|] eqn:E.
  - rewrite (processDevice_known DEVICE_CLASSES data config deviceClass st E).
    cbv zeta. destruct (failure_reason _); [done|].
    match goal with
    | |- context [subscribe_entries ?d ?es ?s] =>
        pose proof (subscribe_entries_frame d es s) as (_ & _ & Hd & _);
        destruct (subscribe_entries d es s) as [[| |] st3]
    end; cbn [snd] in *.
    + apply storeInstance_frame. by rewrite Hd.
    + by rewrite Hd.
    + by rewrite Hd.
  - unfold processDevice. rewrite E. by destruct (_ || _).
Qed.

Lemma processConfig_keeps_ids data st id :
  id ∈ map fst (DEVICE_INSTANCES st) →
  id ∈ map fst (DEVICE_INSTANCES (processConfig DEVICE_CLASSES data st).2).
Proof.
  intros Hin. unfold processConfig.
  set (st1 := if includes (FleetConfig.support data) "homeassistant"
              then emit (client_subscribe (HA_BASE_TOPIC +:+ "/status")) st
              else st).
  assert (H1 : DEVICE_INSTANCES st1 = DEVICE_INSTANCES st).
  { unfold st1. by destruct (includes _ _). }
  destruct (disconnectEach_frame (map snd (DEVICE_INSTANCES st1)) st1)
    as (_ & _ & _ & H2 & _).
  destruct (disconnectEach (map snd (DEVICE_INSTANCES st1)) st1)
    as [[|reason|] st2]; cbn [snd] in *.
  - apply (processDevices_invariant DEVICE_CLASSES
             (λ st, id ∈ map fst (DEVICE_INSTANCES st))).
    + intros ??. apply processDevice_keeps_ids.
    + cbn. by rewrite H2, H1.
  - by rewrite H2, H1.
  - by rewrite H2, H1.
Qed.

Lemma processConfig_publish_topics data st :
  PUBLISH_TOPICS (processConfig DEVICE_CLASSES data st).2 = PUBLISH_TOPICS st
  ∨ PUBLISH_TOPICS (processConfig DEVICE_CLASSES data st).2 = [].
Proof.
  unfold processConfig.
  set (st1 := if includes (FleetConfig.support data) "homeassistant"
              then emit (client_subscribe (HA_BASE_TOPIC +:+ "/status")) st
              else st).
  assert (H1 : PUBLISH_TOPICS st1 = PUBLISH_TOPICS st).
  { unfold st1. by destruct (includes _ _). }
  destruct (disconnectEach_frame (map snd (DEVICE_INSTANCES st1)) st1)
    as (_ & H2 & _).
  destruct (disconnectEach (map snd (DEVICE_INSTANCES st1)) st1)
    as [[|reason|] st2]; cbn [snd] in *.
  - right.
    match goal with
    | |- PUBLISH_TOPICS (processDevices _ _ _ ?s).2 = _ =>
        destruct (processDevices_frame DEVICE_CLASSES data
                    (FleetConfig.devices data) s) as (-> & _)
    end.
    done.
  - left. by rewrite H2, H1.
  - left. by rewrite H2, H1.
Qed.

Lemma processDocument_state document st :
  (processDocument DEVICE_CLASSES document st).2 = st
  ∨ ∃ data, (processDocument DEVICE_CLASSES document st).2
            = (processConfig DEVICE_CLASSES data st).2.
Proof.
  destruct document as [data| |data]; cbn [processDocument].
  - right. by exists data.
  - by left.
  - right. exists data.
    by destruct (processConfig DEVICE_CLASSES data st) as [[|reason|] st2].
Qed.

Lemma onMessage_cases topic message st :
  let st' := (onMessage DEVICE_CLASSES JSON_parse topic message st).2 in
  (DEVICE_INSTANCES st' = DEVICE_INSTANCES st
   ∧ PUBLISH_TOPICS st' = PUBLISH_TOPICS st)
  ∨ ∃ data st1 st2,
      DEVICE_INSTANCES st1 = DEVICE_INSTANCES st
      ∧ PUBLISH_TOPICS st1 = PUBLISH_TOPICS st
      ∧ st2 = (processConfig DEVICE_CLASSES data st1).2
      ∧ DEVICE_INSTANCES st' = DEVICE_INSTANCES st2
      ∧ PUBLISH_TOPICS st' = PUBLISH_TOPICS st2.
Proof.
  destruct (config_topic topic) eqn:Hc.
  - rewrite (onMessage_config DEVICE_CLASSES JSON_parse _ _ _ Hc). cbv zeta.
    destruct (JSON_parse message) as [document|]; [|by left].
    set (st1 := log "✨" "New config discovered. Processing..." None st).
    destruct (processDocument_state document st1) as [Hsame | [data Hdata]].
    + left.
      destruct (processDocument DEVICE_CLASSES document st1)
        as [[|reason|] st2]; cbn [snd] in *; by subst st2.
    + right. exists data, st1. eexists.
      split; [done|]. split; [done|]. split; [reflexivity|].
      rewrite <- Hdata.
      by destruct (processDocument DEVICE_CLASSES document st1)
        as [[|reason|] st2].
  - left.
    by destruct (onMessage_not_config DEVICE_CLASSES JSON_parse topic message
                   st Hc) as (_ & _ & -> & -> & _).
Qed.

Lemma step_keeps_ids s st id :
  id ∈ map fst (DEVICE_INSTANCES st) →
  id ∈ map fst (DEVICE_INSTANCES (step DEVICE_CLASSES JSON_parse s st).2).
Proof.
  intros Hin. destruct s as [device entity support | topic message]; simpl.
  - by destruct (processEntity_spec device entity support st)
      as (_ & _ & -> & _).
  - destruct (onMessage_cases topic message st)
      as [[-> _] | (data & st1 & st2 & H1 & _ & -> & -> & _)]; [done|].
    apply processConfig_keeps_ids. by rewrite H1.
Qed.

Lemma step_NoDup s st :
  NoDup (PUBLISH_TOPICS st) ∧ NoDup (HA_DISCOVERY st) →
  NoDup (PUBLISH_TOPICS (step DEVICE_CLASSES JSON_parse s st).2)
  ∧ NoDup (HA_DISCOVERY (step DEVICE_CLASSES JSON_parse s st).2).
Proof.
  intros H. destruct s as [device entity support | topic message]; simpl.
  - destruct (processEntity_spec device entity support st)
      as (-> & -> & _).
    by apply publish_NoDup.
  - destruct H as [Hp Hh]. split.
    + destruct (onMessage_cases topic message st)
        as [[_ ->] | (data & st1 & st2 & _ & H1 & -> & _ & ->)]; [done|].
      destruct (processConfig_publish_topics data st1) as [-> | ->].
      * by rewrite H1.
      * constructor.
    + destruct (onMessage_frame DEVICE_CLASSES JSON_parse topic message st)
        as (-> & _).
      destruct (hub_online topic message); [constructor | done].
Qed.

Lemma publish_without_support device entity support st :
  includes support "homeassistant" = false →
  Forall (λ e, is_discovery_publication e = false)
         (since st (publish device entity support st)).
Proof.
  intros Hsupport.
  destruct (publish_spec device entity support st)
    as (_ & _ & _ & _ & message & config & Htr).
  rewrite (since_app _ _ _ Htr).
  unfold discovery_part, announces. rewrite Hsupport, app_nil_r.
  apply Forall_app. split.
  - unfold descriptor_part.
    destruct (includes (PUBLISH_TOPICS st) _); [constructor|].
    repeat constructor; simpl; try apply canonical_not_hub.
  - unfold states_part. apply Forall_fmap, Forall_forall.
    intros [key state] _.
    exact (canonical_not_in_hub_namespace device entity ("/" +:+ key)).
Qed.

Lemma not_publish_not_discovery effects :
  Forall (λ e, is_publish e = false) effects →
  Forall (λ e, is_discovery_publication e = false) effects.
Proof. intros H. eapply Forall_impl; [exact H|]. by intros []. Qed.

Lemma step_without_support s st :
  hub_supported s = false →
  Forall (λ e, is_discovery_publication e = false)
         (since st (step DEVICE_CLASSES JSON_parse s st).2).
Proof.
  intros Hs. destruct s as [device entity support | topic message]; simpl.
  - destruct (processEntity_spec device entity support st)
      as (_ & _ & _ & Hext1 & Hext2 & Hq & _).
    rewrite (since_trans st (publish device entity support st)) by done.
    apply Forall_app. split.
    + by apply publish_without_support.
    + apply not_publish_not_discovery.
      eapply Forall_impl; [exact Hq|]. by intros ? [? ?].
  - destruct (onMessage_frame DEVICE_CLASSES JSON_parse topic message st)
      as (_ & _ & Hq & _).
    by apply not_publish_not_discovery.
Qed.

(** X14: the device table never loses an id: whatever configurations,
    messages and entity updates follow, an id that has an instance keeps
    one, also when no later configuration lists the device. *)
Theorem device_table_never_shrinks (steps : list Step) (st : State)
  (id : string) :
  id ∈ map fst (DEVICE_INSTANCES st) →
  id ∈ map fst (DEVICE_INSTANCES (run DEVICE_CLASSES JSON_parse steps st)).
Proof.
  intros Hin.
  apply (run_invariant DEVICE_CLASSES JSON_parse
           (λ st, id ∈ map fst (DEVICE_INSTANCES st))); [|done].
  intros ??. apply step_keeps_ids.
Qed.

(** X15: in every state the module reaches from its start, the dedup set
    and the discovery cache list no topic twice. *)
Theorem dedup_lists_have_no_duplicates (steps : list Step) :
  let st := run DEVICE_CLASSES JSON_parse steps initial in
  NoDup (PUBLISH_TOPICS st) ∧ NoDup (HA_DISCOVERY st).
Proof.
  apply (run_invariant DEVICE_CLASSES JSON_parse
           (λ st, NoDup (PUBLISH_TOPICS st) ∧ NoDup (HA_DISCOVERY st))).
  - intros ??. apply step_NoDup.
  - split; constructor.
Qed.

(** X16: nothing is published under [homeassistant/] in a run in which no
    entity update comes from a configuration that lists [homeassistant] in
    its support. *)
Theorem no_discovery_without_support (steps : list Step) (st : State) :
  Forall (λ s, hub_supported s = false) steps →
  Forall (λ e, is_discovery_publication e = false)
         (since st (run DEVICE_CLASSES JSON_parse steps st)).
Proof.
  apply (run_since_Forall DEVICE_CLASSES JSON_parse
           (λ e, is_discovery_publication e = false)
           (λ s, hub_supported s = false)).
  intros s st' Hs. by apply step_without_support.
Qed.

End Invariants.

Lemma device_table_never_shrinks_witness :
  "foo" ∈ map fst (DEVICE_INSTANCES
                     (run classes parse
                          [broker_message "connector/config" no_devices_json;
                           entity_update devA power []]
                          fleet_of_one)).
Proof.
  apply (device_table_never_shrinks classes parse
           [broker_message "connector/config" no_devices_json;
            entity_update devA power []] fleet_of_one "foo").
  vm_compute. apply list_elem_of_here.
Defined.

Lemma no_discovery_without_support_witness :
  Forall (λ e, is_discovery_publication e = false)
         (since initial
                (run classes parse
                     [entity_update devA power []; broker_message power_set "ON"]
                     initial)).
Proof.
  apply (no_discovery_without_support classes parse
           [entity_update devA power []; broker_message power_set "ON"]
           initial).
  repeat constructor.
Defined.

(** ** The discovery document *)

Lemma publishHomeAssistantDiscovery_config device entity topic st :
  publishHomeAssistantDiscovery device entity topic st
  = emit (client_publish (discovery_topic device entity)
            (JSON_stringify (Obj (discovery_config device entity topic))) true)
         (set_HA_DISCOVERY (HA_DISCOVERY st ++ [topic]) st).
Proof. reflexivity. Qed.

Lemma substring_all s : String.substring 0 (String.length s) s = s.
Proof. induction s as [|c s IH]; simpl; [done | by rewrite IH]. Qed.

Lemma substring_suffix a b :
  String.substring (String.length a) (String.length b) (a +:+ b) = b.
Proof. induction a as [|c a IH]; simpl; [apply substring_all | done]. Qed.

Lemma ends_topic_app s : ends_topic (s +:+ "_topic") = true.
Proof.
  unfold ends_topic. rewrite string_length_app.
  replace (String.length s + String.length "_topic" - 6)%nat
    with (String.length s) by (simpl; lia).
  pose proof (substring_suffix s "_topic") as H.
  change (String.length "_topic") with 6 in H. by rewrite H.
Qed.

Lemma append_cancel_r a b c : a +:+ c = b +:+ c → a = b.
Proof.
  intros H.
  assert (String.length a = String.length b) as Hlen.
  { apply (f_equal String.length) in H. rewrite !string_length_app in H. lia. }
  rewrite <- (substring_prefix a c), <- (substring_prefix b c), H.
  by rewrite Hlen.
Qed.

Lemma topic_key_neq s k : ends_topic k = false → s +:+ "_topic" ≠ k.
Proof. intros Hk <-. by rewrite ends_topic_app in Hk. Qed.

Section TopicFields.

Context {A : Type} (f : A → string) (T : string).

Let write (config : list (string * JsValue)) (x : A)
  : list (string * JsValue) :=
  prop_set (f x +:+ "_topic") (Str (T +:+ "/" +:+ f x)) config.

Lemma fold_topics_other xs config k :
  ends_topic k = false →
  prop_get (foldl write config xs) k = prop_get config k.
Proof.
  intros Hk. revert config.
  induction xs as [|x xs IH]; intros config; simpl; [done|].
  rewrite IH. unfold write. by apply prop_get_set_other, topic_key_neq.
Qed.

Lemma fold_topics_keeps xs config s :
  prop_get config (s +:+ "_topic") = Str (T +:+ "/" +:+ s) →
  prop_get (foldl write config xs) (s +:+ "_topic") = Str (T +:+ "/" +:+ s).
Proof.
  revert config.
  induction xs as [|x xs IH]; intros config H; simpl; [done|].
  apply IH. unfold write.
  destruct (decide (f x = s)) as [<-|Hne].
  - apply prop_get_set_same.
  - rewrite prop_get_set_other; [done|].
    intros E. by apply append_cancel_r in E.
Qed.

Lemma fold_topics_sets xs config x :
  x ∈ xs →
  prop_get (foldl write config xs) (f x +:+ "_topic")
  = Str (T +:+ "/" +:+ f x).
Proof.
  intros (before & after & ->)%list_elem_of_split.
  rewrite foldl_app. simpl. apply fold_topics_keeps.
  unfold write. apply prop_get_set_same.
Qed.

End TopicFields.

Lemma config_states_other device entity config k :
  ends_topic k = false →
  prop_get (config_states device entity config) k = prop_get config k.
Proof.
  intros Hk. unfold config_states. destruct (instanceof_Object _); [|done].
  exact (fold_topics_other (λ state, state) (getEntityTopic device entity)
           _ config k Hk).
Qed.

Lemma config_commands_other device entity config k :
  ends_topic k = false →
  prop_get (config_commands device entity config) k = prop_get config k.
Proof.
  intros Hk. unfold config_commands.
  destruct (entity_get entity "commands"); try done.
  exact (fold_topics_other String_ (getEntityTopic device entity)
           _ config k Hk).
Qed.

Lemma config_commands_keeps device entity config s :
  prop_get config (s +:+ "_topic")
  = Str (getEntityTopic device entity +:+ "/" +:+ s) →
  prop_get (config_commands device entity config) (s +:+ "_topic")
  = Str (getEntityTopic device entity +:+ "/" +:+ s).
Proof.
  intros H. unfold config_commands.
  destruct (entity_get entity "commands"); try done.
  exact (fold_topics_keeps String_ (getEntityTopic device entity) _ config s H).
Qed.

(** The properties the type-dependent part of the function writes. *)
Lemma config_of_type_other entity topic config k :
  k ∉ ["unit_of_measurement"; "device_class"; "command_template"; "options";
       "availability_topic"; "payload_not_available"; "payload_available";
       "fan_modes"; "modes"; "temp_step"; "max_temp"; "min_temp";
       "step"; "max"; "min"; "brightness"; "schema"; "brightness_scale"] →
  prop_get (config_light entity
              (config_number entity
                 (config_climate entity topic
                    (config_select entity (config_sensor entity config))))) k
  = prop_get config k.
Proof.
  intros Hk.
  assert (Hne : ∀ l, l ∈ ["unit_of_measurement"; "device_class";
                           "command_template"; "options";
                           "availability_topic"; "payload_not_available";
                           "payload_available"; "fan_modes"; "modes";
                           "temp_step"; "max_temp"; "min_temp";
                           "step"; "max"; "min"; "brightness"; "schema";
                           "brightness_scale"] → l ≠ k).
  { by intros l Hl ->. }
  unfold config_light, config_number, config_climate, config_select,
    config_sensor.
  repeat match goal with
         | |- context [if ?c then _ else _] => destruct c
         end;
    repeat (rewrite prop_get_set_other
              by (apply Hne;
                  repeat first [ apply list_elem_of_here
                               | apply list_elem_of_further ]));
    reflexivity.
Qed.

Lemma topic_key_of_type s :
  s ≠ "availability" →
  s +:+ "_topic"
  ∉ ["unit_of_measurement"; "device_class"; "command_template"; "options";
     "availability_topic"; "payload_not_available"; "payload_available";
     "fan_modes"; "modes"; "temp_step"; "max_temp"; "min_temp";
     "step"; "max"; "min"; "brightness"; "schema"; "brightness_scale"].
Proof.
  intros Hs Hin.
  repeat (apply elem_of_cons in Hin as [Hin|Hin];
          [first [ exfalso; revert Hin; by apply topic_key_neq
                 | apply Hs, (append_cancel_r s "availability" "_topic"), Hin ]
          |]).
  by apply elem_of_nil in Hin.
Qed.

Lemma config_not_climate entity topic config k :
  is_string (discovery_type entity) "climate" = false →
  k ∉ ["unit_of_measurement"; "device_class"; "command_template"; "options";
       "step"; "max"; "min"; "brightness"; "schema"; "brightness_scale"] →
  prop_get (config_light entity
              (config_number entity
                 (config_climate entity topic
                    (config_select entity (config_sensor entity config))))) k
  = prop_get config k.
Proof.
  intros Hclimate Hk.
  assert (Hne : ∀ l, l ∈ ["unit_of_measurement"; "device_class";
                           "command_template"; "options";
                           "step"; "max"; "min"; "brightness"; "schema";
                           "brightness_scale"] → l ≠ k).
  { by intros l Hl ->. }
  unfold config_climate. rewrite Hclimate.
  unfold config_light, config_number, config_select, config_sensor.
  repeat match goal with
         | |- context [if ?c then _ else _] => destruct c
         end;
    repeat (rewrite prop_get_set_other
              by (apply Hne;
                  repeat first [ apply list_elem_of_here
                               | apply list_elem_of_further ]));
    reflexivity.
Qed.

Lemma topic_key_not_climate s :
  s +:+ "_topic"
  ∉ ["unit_of_measurement"; "device_class"; "command_template"; "options";
     "step"; "max"; "min"; "brightness"; "schema"; "brightness_scale"].
Proof.
  intros Hin.
  repeat (apply elem_of_cons in Hin as [Hin|Hin];
          [exfalso; revert Hin; by apply topic_key_neq|]).
  by apply elem_of_nil in Hin.
Qed.

Lemma topic_field_survives entity topic config s :
  (is_string (discovery_type entity) "climate" = true → s ≠ "availability") →
  prop_get (config_light entity
              (config_number entity
                 (config_climate entity topic
                    (config_select entity (config_sensor entity config)))))
           (s +:+ "_topic")
  = prop_get config (s +:+ "_topic").
Proof.
  intros Hs.
  destruct (is_string (discovery_type entity) "climate") eqn:E.
  - by apply config_of_type_other, topic_key_of_type, Hs.
  - apply config_not_climate; [done|]. apply topic_key_not_climate.
Qed.

Lemma identity_field_survives device entity topic k :
  k ∈ ["name"; "unique_id"; "device"] →
  prop_get (discovery_config device entity topic) k
  = prop_get (config_identity device entity) k.
Proof.
  intros Hk. unfold discovery_config.
  assert (ends_topic k = false) as Hend.
  { repeat (apply elem_of_cons in Hk as [->|Hk]; [reflexivity|]).
    by apply elem_of_nil in Hk. }
  rewrite config_of_type_other.
  - by rewrite config_commands_other, config_states_other.
  - intros Hin.
    repeat (apply elem_of_cons in Hk as [->|Hk];
            [repeat (apply elem_of_cons in Hin as [Hin|Hin];
                     [discriminate|]);
             by apply elem_of_nil in Hin|]).
    by apply elem_of_nil in Hk.
Qed.

(** X17: what is announced to the hub is one retained publication to
    [homeassistant/<type>/<device id>_<entity key>/config], and its name,
    unique id and device block are those of the device and the entity:
    no state, command or type of the entity overwrites them. *)
Theorem discovery_identity_is_kept (device : Device) (entity : EntityValue)
  (topic : string) (st : State) :
  let config := discovery_config device entity topic in
  since st (publishHomeAssistantDiscovery device entity topic st)
  = [client_publish
       (HA_BASE_TOPIC +:+ "/" +:+ join_element (discovery_type entity)
        +:+ "/" +:+ discovery_id device entity +:+ "/" +:+ "config")
       (JSON_stringify (Obj config)) true]
  ∧ prop_get config "name"
    = Str (Device.name device +:+ " " +:+ String_ (entity_get entity "name"))
  ∧ prop_get config "unique_id"
    = Str (Device.id device +:+ "_" +:+ String_ (entity_get entity "key"))
  ∧ prop_get config "device"
    = Obj [("name", Str (Device.name device));
           ("model", Str (Device.model device));
           ("manufacturer", Str (Device.manufacturer device));
           ("sw_version", Str (Device.version device));
           ("identifiers", Arr [Str (Device.id device)])].
Proof.
  intros config. split_and!.
  - by apply since_app.
  - unfold config. rewrite identity_field_survives; [done|].
    apply list_elem_of_here.
  - unfold config. rewrite identity_field_survives; [done|].
    apply list_elem_of_further, list_elem_of_here.
  - unfold config. rewrite identity_field_survives; [done|].
    do 2 apply list_elem_of_further. apply list_elem_of_here.
Qed.

(** X18: the announcement points the hub at the topics the module uses:
    for every state of the entity the field [<state>_topic] is the topic
    [publish] sends that state to, and for every command the field
    [<command>_topic] is the topic [processEntity] subscribes to.  The one
    exception is a climate entity's [availability_topic], which is always
    [<entity topic>/state]. *)
Theorem discovery_topics_are_entity_topics (device : Device)
  (entity : EntityValue) (topic : string) :
  let config := discovery_config device entity topic in
  let climate := is_string (discovery_type entity) "climate" in
  (∀ state,
     state ∈ Object_keys (entity_get entity "states") →
     (climate = true → state ≠ "availability") →
     prop_get config (state +:+ "_topic")
     = Str (getEntityTopic device entity +:+ "/" +:+ state))
  ∧ (∀ commands command,
       entity_get entity "commands" = Arr commands →
       command ∈ commands →
       (climate = true → String_ command ≠ "availability") →
       prop_get config (String_ command +:+ "_topic")
       = Str (getEntityTopic device entity +:+ "/" +:+ String_ command))
  ∧ (climate = true →
     prop_get config "availability_topic" = Str (topic +:+ "/state")).
Proof.
  intros config climate. split_and!.
  - intros state Hin Hs. unfold config, discovery_config.
    rewrite topic_field_survives by done.
    apply config_commands_keeps. unfold config_states.
    destruct (instanceof_Object (entity_get entity "states")) eqn:E.
    + exact (fold_topics_sets (λ state, state) (getEntityTopic device entity)
               _ _ state Hin).
    + unfold Object_keys in Hin.
      destruct (entity_get entity "states"); try done;
        by apply elem_of_nil in Hin.
  - intros commands command Hcommands Hin Hs. unfold config, discovery_config.
    rewrite topic_field_survives by done.
    unfold config_commands. rewrite Hcommands.
    exact (fold_topics_sets String_ (getEntityTopic device entity)
             _ _ command Hin).
  - intros Hclimate. unfold config, discovery_config.
    unfold climate in Hclimate.
    assert (Hnumber : is_string (discovery_type entity) "number" = false).
    { destruct (discovery_type entity); try done. simpl in *.
      by apply String.eqb_eq in Hclimate as ->. }
    assert (Hlight : is_string (discovery_type entity) "light" = false).
    { destruct (discovery_type entity); try done. simpl in *.
      by apply String.eqb_eq in Hclimate as ->. }
    unfold config_light, config_number, config_climate.
    rewrite Hlight, Hnumber, Hclimate. apply prop_get_set_same.
Qed.

(** X19: an entity without a key is announced under the unique id
    [<device id>_undefined]: two plain-string entities of one device have
    different canonical topics but one discovery topic and one unique id,
    so in the hub the second takes the place of the first. *)
Theorem keyless_entities_share_one_announcement (device : Device)
  (s1 s2 topic1 topic2 : string) (st1 st2 : State) :
  let shared :=
    "homeassistant/sensor/" +:+ (Device.id device +:+ "_undefined")
    +:+ "/config" in
  ∃ config1 config2,
    since st1 (publishHomeAssistantDiscovery device (EntityString s1) topic1 st1)
    = [client_publish shared (JSON_stringify (Obj config1)) true]
    ∧ since st2 (publishHomeAssistantDiscovery device (EntityString s2) topic2
                   st2)
      = [client_publish shared (JSON_stringify (Obj config2)) true]
    ∧ prop_get config1 "unique_id" = Str (Device.id device +:+ "_undefined")
    ∧ prop_get config2 "unique_id" = Str (Device.id device +:+ "_undefined")
    ∧ (s1 ≠ s2 →
       getEntityTopic device (EntityString s1)
       ≠ getEntityTopic device (EntityString s2)).
Proof.
  intros shared.
  exists (discovery_config device (EntityString s1) topic1),
         (discovery_config device (EntityString s2) topic2).
  assert (Hshared : ∀ s, discovery_topic device (EntityString s) = shared).
  { intros s. reflexivity. }
  split_and!.
  - rewrite publishHomeAssistantDiscovery_config, <- (Hshared s1).
    by apply since_app.
  - rewrite publishHomeAssistantDiscovery_config, <- (Hshared s2).
    by apply since_app.
  - rewrite identity_field_survives; [done|].
    apply list_elem_of_further, list_elem_of_here.
  - rewrite identity_field_survives; [done|].
    apply list_elem_of_further, list_elem_of_here.
  - intros Hne E. apply Hne.
    rewrite !getEntityTopic_unfold in E.
    unfold entity_segment in E. cbn in E.
    repeat (apply String.app_inj in E). done.
Qed.

(** ** The subscription table and the broker *)

Lemma broker_quiet topic effects :
  Forall (λ e, is_unsubscribe e = false) effects →
  foldl (broker_step topic) true effects = true.
Proof.
  induction 1 as [|e effects He _ IH]; simpl; [done|].
  destruct e; simpl in *; try done.
  by destruct (String.eqb _ _).
Qed.

Lemma handlers_subscribed_same st st' effects :
  (∀ topic id, handler_at st' topic id = handler_at st topic id) →
  trace st' = trace st ++ effects →
  Forall (λ e, is_unsubscribe e = false) effects →
  handlers_subscribed st → handlers_subscribed st'.
Proof.
  intros Ht Htr Hq H topic id handler Hsome. rewrite Ht in Hsome.
  unfold subscribed_at_broker. rewrite Htr, foldl_app.
  fold (subscribed_at_broker topic (trace st)).
  rewrite (H topic id handler Hsome).
  by apply broker_quiet.
Qed.

Lemma handlers_subscribed_quiet st st' effects :
  SUBSCRIBED_TOPICS st' = SUBSCRIBED_TOPICS st →
  trace st' = trace st ++ effects →
  Forall (λ e, is_unsubscribe e = false) effects →
  handlers_subscribed st → handlers_subscribed st'.
Proof.
  intros Ht. apply handlers_subscribed_same. intros topic id.
  unfold handler_at. by rewrite Ht.
Qed.

Lemma handlers_subscribed_emit e st :
  is_unsubscribe e = false →
  handlers_subscribed st → handlers_subscribed (emit e st).
Proof.
  intros He. apply (handlers_subscribed_quiet st _ [e]); try done.
  by constructor.
Qed.

Lemma handlers_subscribed_log icon message who st :
  handlers_subscribed st → handlers_subscribed (log icon message who st).
Proof.
  apply (handlers_subscribed_quiet st _ (log_effects icon message who)).
  - done.
  - apply trace_log.
  - by repeat constructor.
Qed.

Lemma handlers_subscribed_empty st :
  SUBSCRIBED_TOPICS st = ∅ → handlers_subscribed st.
Proof.
  intros Hempty topic id handler H. unfold handler_at in H.
  by rewrite Hempty, lookup_empty in H.
Qed.

Lemma handlers_subscribed_subscribe topic device key st :
  handlers_subscribed st →
  handlers_subscribed (after_subscribe topic device key st).
Proof.
  intros H.
  destruct (subscribe_cases topic device key st)
    as [(_ & _ & ->) | [(_ & _ & _ & ->) | [(_ & _ & _ & _ & ->)
        | (_ & _ & _ & st' & _ & -> & Ht & _ & _ & _ & Htr)]]]; try done.
  - destruct (with_entry_fields topic st) as (_ & _ & _ & Htr).
    apply (handlers_subscribed_same st _ []);
      [| by rewrite app_nil_r | constructor | done].
    intros t i. apply handler_at_with_entry.
  - intros t i h Hsome.
    unfold subscribed_at_broker. rewrite Htr, foldl_app. cbn [foldl].
    fold (subscribed_at_broker t (trace st)).
    assert (broker_step t (subscribed_at_broker t (trace st))
                        (client_subscribe topic) = true) as ->.
    { destruct (decide (t = topic)) as [->|Hne]; simpl.
      - by rewrite String.eqb_refl.
      - unfold handler_at in Hsome.
        rewrite Ht, lookup_insert_ne in Hsome by done.
        rewrite (H t i h Hsome). by destruct (String.eqb topic t). }
    apply broker_quiet. by repeat constructor.
Qed.

Lemma handlers_subscribed_subscribeEach {A} (topic : A → string)
  (key : A → JsValue) device xs st :
  handlers_subscribed st →
  handlers_subscribed (subscribeEach topic key device xs st).2.
Proof.
  apply (subscribeEach_invariant topic key device handlers_subscribed).
  intros ??. apply handlers_subscribed_subscribe.
Qed.

Lemma handlers_subscribed_publish device entity support st :
  handlers_subscribed st →
  handlers_subscribed (publish device entity support st).
Proof.
  destruct (publish_spec device entity support st)
    as (Ht & _ & _ & _ & message & config & Htr).
  apply (handlers_subscribed_quiet st _ _ Ht Htr).
  apply Forall_app. split; [|apply Forall_app; split].
  - unfold descriptor_part.
    destruct (includes (PUBLISH_TOPICS st) _); by repeat constructor.
  - unfold states_part. apply Forall_fmap, Forall_forall. by intros [? ?] _.
  - unfold discovery_part. destruct (announces _ _ _ _); by repeat constructor.
Qed.

Lemma handlers_subscribed_processEntity device entity support st :
  handlers_subscribed st →
  handlers_subscribed (processEntity device entity support st).2.
Proof.
  intros H. unfold processEntity.
  destruct (entity_get entity "commands");
    try by apply handlers_subscribed_publish.
  by apply handlers_subscribed_subscribeEach, handlers_subscribed_publish.
Qed.

Lemma handlers_subscribed_dispatch topic parts message st :
  handlers_subscribed st →
  handlers_subscribed (dispatch topic parts message st).
Proof.
  destruct (dispatch_fields topic parts message st) as (Ht & _).
  apply (handlers_subscribed_quiet st _ _ Ht (dispatch_trace _ _ _ _)).
  apply Forall_fmap, Forall_forall. by intros [? ?] _.
Qed.

Section Broker.

Variable DEVICE_CLASSES : gmap string (DeviceConfig → Device).
Variable JSON_parse : string → option Document.

Lemma handlers_subscribed_processDevice data config st :
  handlers_subscribed st →
  handlers_subscribed (processDevice DEVICE_CLASSES data config st).2.
Proof.
  intros H.
  destruct (DEVICE_CLASSES !! DeviceConfig.class config) as [deviceClass|] eqn:E.
  - rewrite (processDevice_known DEVICE_CLASSES data config deviceClass st E).
    cbv zeta.
    set (st1 := emit (device_connect (deviceClass config)) _).
    assert (H1 : handlers_subscribed st1).
    { by repeat apply handlers_subscribed_emit. }
    clearbody st1.
    destruct (failure_reason _).
    + by apply handlers_subscribed_log.
    + match goal with
      | |- context [subscribe_entries ?d ?es ?s] =>
          assert (H3 : handlers_subscribed (subscribe_entries d es s).2)
            by (by apply handlers_subscribed_subscribeEach,
                         handlers_subscribed_log);
          destruct (subscribe_entries d es s) as [[| |] st3]
      end; cbn [snd] in *; try done.
      destruct (storeInstance_frame (deviceClass config) st3)
        as (Ht & _ & _ & Htr & _).
      apply (handlers_subscribed_quiet st3 _ []);
        [done | by rewrite app_nil_r | constructor | done].
  - unfold processDevice. rewrite E.
    destruct (_ || _); [done|]. by apply handlers_subscribed_log.
Qed.

Lemma handlers_subscribed_processConfig data st :
  handlers_subscribed st →
  handlers_subscribed (processConfig DEVICE_CLASSES data st).2.
Proof.
  intros H. unfold processConfig.
  set (st1 := if includes (FleetConfig.support data) "homeassistant"
              then emit (client_subscribe (HA_BASE_TOPIC +:+ "/status")) st
              else st).
  assert (H1 : handlers_subscribed st1).
  { unfold st1. destruct (includes _ _); [|done].
    by apply handlers_subscribed_emit. }
  destruct (disconnectEach_frame (map snd (DEVICE_INSTANCES st1)) st1)
    as (Ht & _ & _ & _ & n & Htr).
  assert (H2 : handlers_subscribed
                 (disconnectEach (map snd (DEVICE_INSTANCES st1)) st1).2).
  { apply (handlers_subscribed_quiet st1 _ _ Ht Htr); [|done].
    apply Forall_fmap, Forall_forall. by intros ? _. }
  clearbody st1.
  destruct (disconnectEach (map snd (DEVICE_INSTANCES st1)) st1)
    as [[|reason|] st2]; cbn [snd] in *; [|done|done].
  apply (processDevices_invariant DEVICE_CLASSES handlers_subscribed).
  - intros ??. apply handlers_subscribed_processDevice.
  - by apply handlers_subscribed_empty.
Qed.

Lemma handlers_subscribed_processDocument document st :
  handlers_subscribed st →
  handlers_subscribed (processDocument DEVICE_CLASSES document st).2.
Proof.
  intros H. destruct document as [data| |data]; cbn [processDocument].
  - by apply handlers_subscribed_processConfig.
  - done.
  - pose proof (handlers_subscribed_processConfig data st H) as H2.
    by destruct (processConfig DEVICE_CLASSES data st) as [[|reason|] st2].
Qed.

Lemma handlers_subscribed_onMessage topic message st :
  handlers_subscribed st →
  handlers_subscribed (onMessage DEVICE_CLASSES JSON_parse topic message st).2.
Proof.
  intros H. unfold onMessage.
  assert (H1 : handlers_subscribed
                 (log "✨" "New config discovered. Processing..." None st))
    by by apply handlers_subscribed_log.
  destruct (bool_decide (split_slash topic !! 0%nat = Some BASE_TOPIC)).
  - destruct (bool_decide (split_slash topic !! 1%nat = Some CONFIG_TOPIC)).
    + destruct (JSON_parse message) as [document|]; [|done].
      pose proof (handlers_subscribed_processDocument document _ H1) as H2.
      destruct (processDocument DEVICE_CLASSES document _)
        as [[|reason|] st2]; cbn [snd] in *; [done| |done].
      by apply handlers_subscribed_log.
    + by apply handlers_subscribed_dispatch.
  - destruct (bool_decide (split_slash topic !! 0%nat = Some HA_BASE_TOPIC));
      [|done].
    by destruct (_ && _ && _).
Qed.

(** X20: every topic that holds a handler is subscribed at the broker: in
    each state the module reaches from its start, the last broker call that
    names a topic on which some device has a handler is a subscribe, so no
    handler is left behind an unsubscribe.  A topic whose entry in the table
    holds no handler need not be subscribed. *)
Theorem handlers_are_subscribed_at_broker (steps : list Step)
  (topic id : string) (handler : Handler) :
  let st := run DEVICE_CLASSES JSON_parse steps initial in
  handler_at st topic id = Some handler →
  subscribed_at_broker topic (trace st) = true.
Proof.
  intros st. revert topic id handler. change (handlers_subscribed st).
  apply (run_invariant DEVICE_CLASSES JSON_parse handlers_subscribed).
  - intros [device entity support | topic message] st' H; simpl.
    + by apply handlers_subscribed_processEntity.
    + by apply handlers_subscribed_onMessage.
  - by apply handlers_subscribed_empty.
Qed.

End Broker.

Lemma handlers_are_subscribed_at_broker_witness :
  subscribed_at_broker power_set
    (trace (run classes parse [entity_update devA power []] initial)) = true.
Proof.
  apply (handlers_are_subscribed_at_broker classes parse
           [entity_update devA power []] power_set "a"
           (mkHandler devA (Str "power"))).
  vm_compute. reflexivity.
Defined.

(** An entry of the table without a handler, on a topic the broker was never
    told to subscribe. *)
Example empty_entry_is_not_subscribed :
  let st := after_subscribe power_set devC (Str "power") initial in
  is_Some (SUBSCRIBED_TOPICS st !! power_set)
  ∧ subscribed_at_broker power_set (trace st) = false.
Proof. split; [vm_compute; eauto | vm_compute; reflexivity]. Qed.

(** ** One call per device *)

Lemma handled_ids_dispatch parts message (handlers : gmap string Handler) :
  (∀ id handler, handlers !! id = Some handler →
                 Device.id (handler_device handler) = id) →
  handled_ids (map (handle_call parts message) (map_to_list handlers))
  = map fst (map_to_list handlers).
Proof.
  intros Hkeyed.
  assert (H : ∀ entry, entry ∈ map_to_list handlers →
                       Device.id (handler_device entry.2) = entry.1).
  { intros [id handler] Hin%elem_of_map_to_list. by apply Hkeyed. }
  induction (map_to_list handlers) as [|entry entries IH]; [done|].
  unfold handled_ids in *. cbn.
  rewrite (H entry) by apply list_elem_of_here.
  f_equal. apply IH. intros e He. by apply H, list_elem_of_further.
Qed.

Section Dispatch.

Variable DEVICE_CLASSES : gmap string (DeviceConfig → Device).
Variable JSON_parse : string → option Document.

(** X21: a message calls each device at most once: in every state the
    module reaches from its start, the handle calls the listener makes for
    one message on a topic other than the config topic are for pairwise
    different device ids. *)
Theorem one_handle_call_per_device (steps : list Step)
  (topic message : string) :
  config_topic topic = false →
  let st := run DEVICE_CLASSES JSON_parse steps initial in
  NoDup (handled_ids
           (since st (onMessage DEVICE_CLASSES JSON_parse topic message st).2)).
Proof.
  intros Hc st.
  assert (Hkeyed : keyed_by_id st) by apply keyed_by_id_reachable.
  destruct (bool_decide (split_slash topic !! 0%nat = Some BASE_TOPIC)) eqn:E.
  - apply bool_decide_eq_true in E.
    rewrite (onMessage_table DEVICE_CLASSES JSON_parse topic message st E Hc).
    cbn [snd]. rewrite (since_app _ _ _ (dispatch_trace topic _ message st)).
    destruct (SUBSCRIBED_TOPICS st !! topic) as [handlers|] eqn:Ht; cbn.
    + rewrite handled_ids_dispatch by (intros ??; by apply (Hkeyed topic)).
      apply NoDup_fst_map_to_list.
    + rewrite map_to_list_empty. constructor.
  - apply bool_decide_eq_false in E.
    destruct (onMessage_foreign DEVICE_CLASSES JSON_parse topic message st E)
      as (_ & Htr & _).
    destruct (same_trace _ _ Htr) as [_ ->]. constructor.
Qed.

End Dispatch.

Lemma one_handle_call_per_device_witness :
  NoDup (handled_ids
           (since (run classes parse [entity_update devA power []] initial)
                  (onMessage classes parse power_set "ON"
                     (run classes parse [entity_update devA power []]
                          initial)).2)).
Proof.
  apply (one_handle_call_per_device classes parse
           [entity_update devA power []] power_set "ON").
  reflexivity.
Defined.

(** ** What a reconciliation unsubscribes *)

Section Teardown.

Variable DEVICE_CLASSES : gmap string (DeviceConfig → Device).

(** X22: a reconciliation unsubscribes every topic of the subscription
    table, whatever the topic is: when the disconnect pass returns, the loop
    over [data.devices] starts with none of these topics subscribed at the
    broker, also not [homeassistant/status], which the same reconciliation
    has just subscribed, or [connector/config]; with no device in the new
    configuration that is how the reconciliation ends. *)
Theorem reconciliation_unsubscribes_table_topics (data : FleetConfig)
  (st : State) (topic : string) :
  is_Some (SUBSCRIBED_TOPICS st !! topic) →
  Forall (λ device, Device.disconnect device = None)
         (map snd (DEVICE_INSTANCES st)) →
  ∃ st0,
    processConfig DEVICE_CLASSES data st
    = processDevices DEVICE_CLASSES data (FleetConfig.devices data) st0
    ∧ subscribed_at_broker topic (trace st0) = false
    ∧ (FleetConfig.devices data = [] →
       subscribed_at_broker topic
         (trace (processConfig DEVICE_CLASSES data st).2) = false).
Proof.
  intros [handlers Ht] Hdisconnect.
  destruct (processConfig_completes DEVICE_CLASSES data st Hdisconnect)
    as (st0 & Hrun & _ & _ & _ & _ & Htr).
  assert (H0 : subscribed_at_broker topic (trace st0) = false).
  { unfold subscribed_at_broker. rewrite Htr, app_assoc, foldl_app. cbn.
    assert (includes (map fst (map_to_list (SUBSCRIBED_TOPICS st))) topic
            = true) as ->; [|done].
    apply bool_decide_eq_true. apply list_elem_of_fmap.
    exists (topic, handlers). split; [done|]. by apply elem_of_map_to_list. }
  exists st0. split_and!; [done | done |].
  intros Hnone. by rewrite Hrun, Hnone.
Qed.

End Teardown.

Lemma reconciliation_unsubscribes_table_topics_witness :
  let st := after_subscribe "homeassistant/status" devA (Str "hub") initial in
  let data := FleetConfig.mk ["homeassistant"] [] in
  client_subscribe "homeassistant/status"
  ∈ since st (processConfig classes data st).2
  ∧ subscribed_at_broker "homeassistant/status"
      (trace (processConfig classes data st).2) = false.
Proof.
  intros st data.
  destruct (reconciliation_unsubscribes_table_topics classes data st
              "homeassistant/status") as (st0 & _ & _ & Hend).
  - vm_compute. by eexists.
  - constructor.
  - split; [|by apply Hend].
    vm_compute. apply list_elem_of_here.
Defined.
